(** * open-model-selector: normalization, retrieval and list derivation

    A shallow embedding of the parts of the repository that decide the
    behaviour of the model catalogue:

    - [utils/normalizers/base.ts]            ([toNum], [extractBaseFields])
    - [utils/normalizers/type-inference.ts]  ([MODEL_ID_TYPE_PATTERNS], [inferTypeFromId])
    - [utils/normalizers/{text,image,video,inpaint,embedding,tts,asr,upscale}.ts]
    - [utils/normalizers/index.ts]           ([defaultResponseExtractor], [defaultModelNormalizer])
    - [utils/helpers.ts]                     ([cn], [isDeprecated])
    - [hooks/use-models.ts]                  ([useModels])
    - [components/model-selector.tsx]        ([effectiveBaseUrl], [allModels],
      [favorites], [otherModels], [selectedModel], [handleModelSelect],
      [handleToggleFavorite])
    - [components/model-item.tsx]            ([itemClass])

    JavaScript values are an inductive type, numbers are IEEE 754 binary64
    values ([spec_float] at precision 53), exceptions are an error monad and
    the React effect of the hook is a function from the props to the state it
    settles in together with the trace of calls it made. *)

From Stdlib Require Import ZArith Bool List Ascii String Lia Permutation Sorted.
From Stdlib Require Import DecimalString.
From Stdlib Require Import Floats.SpecFloat.
Import ListNotations.

Local Open Scope string_scope.
Local Open Scope Z_scope.

Set Implicit Arguments.

(* ===================================================================== *)
(** ** Exceptions *)
(* ===================================================================== *)

(** A computation either returns or throws an [Error] with a message. *)
Inductive Result (A : Type) : Type :=
| Ok (a : A)
| Throw (message : string).

Arguments Ok {A} a.
Arguments Throw {A} message.

Definition bind {A B : Type} (r : Result A) (k : A -> Result B) : Result B :=
  match r with
  | Ok a => k a
  | Throw e => Throw e
  end.

Notation "'do' x <- r ; k" := (bind r (fun x => k))
  (at level 10, x name, r at level 100, k at level 200).

Definition throws {A : Type} (r : Result A) : bool :=
  match r with Ok _ => false | Throw _ => true end.

(* ===================================================================== *)
(** ** Numbers: IEEE 754 binary64 *)
(* ===================================================================== *)

Definition prec : Z := 53.
Definition emax : Z := 1024.

Definition number : Type := spec_float.

Definition NaN : number := S754_nan.
Definition Infinity : number := S754_infinity false.

(** The Number value of an integer literal of the source. *)
Definition num (z : Z) : number := binary_normalize prec emax z 0 false.

Definition num_div (x y : number) : number := SFdiv prec emax x y.
Definition num_sub (x y : number) : number := SFsub prec emax x y.

(** [Number.isNaN]. *)
Definition Number_isNaN (n : number) : bool :=
  match n with S754_nan => true | _ => false end.

(** [Number.isFinite]. *)
Definition Number_isFinite (n : number) : bool :=
  match n with S754_zero _ | S754_finite _ _ _ => true | _ => false end.

(** [x < 0] and [x > 0] on numbers; both are false on NaN. *)
Definition num_neg (x : number) : bool := SFltb x (S754_zero false).
Definition num_pos (x : number) : bool := SFltb (S754_zero false) x.

Definition number_eqb (x y : number) : bool :=
  match x, y with
  | S754_zero a, S754_zero b => Bool.eqb a b
  | S754_infinity a, S754_infinity b => Bool.eqb a b
  | S754_nan, S754_nan => true
  | S754_finite a m e, S754_finite b m' e' =>
      Bool.eqb a b && Pos.eqb m m' && Z.eqb e e'
  | _, _ => false
  end.

(* ===================================================================== *)
(** ** JavaScript values as they come out of [JSON.parse] *)
(* ===================================================================== *)

(** Strings are sequences of code units below 256, one [ascii] each.
    An object is the list of its own properties in property order; a
    well-formed object has no key twice, and [get] reads the first binding. *)
#[warnings="-register-all"] Inductive value : Type :=
| VUndefined
| VNull
| VBool (b : bool)
| VNum (n : number)
| VStr (s : string)
| VArr (items : list value)
| VObj (props : list (string * value)).

Fixpoint lookup (k : string) (props : list (string * value)) : option value :=
  match props with
  | [] => None
  | (k', v) :: rest => if String.eqb k k' then Some v else lookup k rest
  end.

(** [v.k] for the property names the normalizers read.  None of them is an
    index, [length] or a name found on a prototype, so only objects have
    them; every other value yields [undefined]. *)
Definition get (k : string) (v : value) : value :=
  match v with
  | VObj props => match lookup k props with Some x => x | None => VUndefined end
  | _ => VUndefined
  end.

(** ['k' in v] for an object or array [v] and a non-index name [k]. *)
Definition has_own (k : string) (v : value) : bool :=
  match v with
  | VObj props => match lookup k props with Some _ => true | None => false end
  | _ => false
  end.

(** ToBoolean. *)
Definition truthy (v : value) : bool :=
  match v with
  | VUndefined | VNull => false
  | VBool b => b
  | VNum n =>
      match n with
      | S754_zero _ | S754_nan => false
      | _ => true
      end
  | VStr s => negb (String.eqb s EmptyString)
  | VArr _ | VObj _ => true
  end.

Definition nullish (v : value) : bool :=
  match v with VUndefined | VNull => true | _ => false end.

(** [a || b] *)
Definition js_or (a b : value) : value := if truthy a then a else b.

(** [a ?? b] *)
Definition js_nullish (a b : value) : value := if nullish a then b else a.

(** [o?.k] *)
Definition get_opt (k : string) (o : value) : value :=
  if nullish o then VUndefined else get k o.

(** [typeof v === 'object'] *)
Definition typeof_object (v : value) : bool :=
  match v with VNull | VArr _ | VObj _ => true | _ => false end.

(** [v !== undefined] *)
Definition is_defined (v : value) : bool :=
  match v with VUndefined => false | _ => true end.

(** [a ?? b] where the left operand is a number or undefined. *)
Definition opt_nullish {A : Type} (a : option A) (b : A) : A :=
  match a with Some x => x | None => b end.

(* ===================================================================== *)
(** ** StringToNumber *)
(* ===================================================================== *)

Definition code (c : ascii) : Z := Z.of_N (N_of_ascii c).

(** StrWhiteSpaceChar below 256: TAB, LF, VT, FF, CR, SP, NBSP. *)
Definition is_white_space (c : ascii) : bool :=
  let n := code c in
  ((9 <=? n) && (n <=? 13)) || (n =? 32) || (n =? 160).

Fixpoint drop_white_space (s : list ascii) : list ascii :=
  match s with
  | c :: rest => if is_white_space c then drop_white_space rest else s
  | [] => []
  end.

(** [String.prototype.trim] on the list of code units. *)
Definition trim (s : list ascii) : list ascii :=
  rev (drop_white_space (rev (drop_white_space s))).

Definition digit_of (radix : Z) (c : ascii) : option Z :=
  let n := code c in
  let d :=
    if (48 <=? n) && (n <=? 57) then Some (n - 48)
    else if (97 <=? n) && (n <=? 102) then Some (n - 87)
    else if (65 <=? n) && (n <=? 70) then Some (n - 55)
    else None in
  match d with
  | Some k => if k <? radix then Some k else None
  | None => None
  end.

(** The longest prefix of digits of the radix, as their value read so far
    and their count, and the rest of the input. *)
Fixpoint span_digits (radix : Z) (acc : Z) (count : Z) (s : list ascii)
  : Z * Z * list ascii :=
  match s with
  | c :: rest =>
      match digit_of radix c with
      | Some d => span_digits radix (acc * radix + d) (count + 1) rest
      | None => (acc, count, s)
      end
  | [] => (acc, count, [])
  end.

(** NonDecimalIntegerLiteral digits: one or more digits up to the end. *)
Definition all_digits (radix : Z) (s : list ascii) : option Z :=
  let '(v, n, rest) := span_digits radix 0 0 s in
  match rest with
  | [] => if 0 <? n then Some v else None
  | _ => None
  end.

(** A character given by its code. *)
Definition is_char (n : Z) (c : ascii) : bool := code c =? n.

(** ExponentPart_opt up to the end of the input. *)
Definition exponent_part (s : list ascii) : option Z :=
  match s with
  | [] => Some 0
  | c :: rest =>
      if is_char 101 c || is_char 69 c then
        match rest with
        | x :: ds =>
            if is_char 43 x then all_digits 10 ds
            else if is_char 45 x then option_map Z.opp (all_digits 10 ds)
            else all_digits 10 rest
        | [] => None
        end
      else None
  end.

(** StrUnsignedDecimalLiteral other than [Infinity]: the decimal digits as
    an integer [m] and the power of ten [e], the literal denoting m * 10^e. *)
Definition unsigned_decimal (s : list ascii) : option (Z * Z) :=
  let '(ip, ni, r1) := span_digits 10 0 0 s in
  match r1 with
  | c :: r2 =>
      if is_char 46 c then
        let '(m, n, r3) := span_digits 10 ip ni r2 in
        if n =? 0 then None
        else
          match exponent_part r3 with
          | Some e => Some (m, e - (n - ni))
          | None => None
          end
      else if ni =? 0 then None
      else
        match exponent_part r1 with
        | Some e => Some (ip, e)
        | None => None
        end
  | [] => if ni =? 0 then None else Some (ip, 0)
  end.

(** The Number value of sign * m * 10^e, rounded to nearest, ties to even. *)
Definition round_decimal (negative : bool) (m e : Z) : number :=
  if m <=? 0 then S754_zero negative
  else if 0 <=? e then
    binary_normalize prec emax ((if negative then - m else m) * 10 ^ e) 0 negative
  else
    let '(q, e2, loc) := SFdiv_core_binary prec emax m 0 (10 ^ (- e)) 0 in
    binary_round_aux prec emax negative q e2 loc.

Definition str_Infinity : list ascii := list_ascii_of_string "Infinity".

Definition list_ascii_eqb (a b : list ascii) : bool :=
  String.eqb (string_of_list_ascii a) (string_of_list_ascii b).

Definition unsigned_literal (negative : bool) (s : list ascii) : number :=
  if list_ascii_eqb s str_Infinity then S754_infinity negative
  else
    match unsigned_decimal s with
    | Some (m, e) => round_decimal negative m e
    | None => NaN
    end.

(** The radix a prefix [0x], [0o] or [0b] (in either case) announces. *)
Definition radix_prefix (s : list ascii) : option (Z * list ascii) :=
  match s with
  | z :: c :: rest =>
      if is_char 48 z then
        if is_char 120 c || is_char 88 c then Some (16, rest)
        else if is_char 111 c || is_char 79 c then Some (8, rest)
        else if is_char 98 c || is_char 66 c then Some (2, rest)
        else None
      else None
  | _ => None
  end.

(** StringToNumber: the empty or all-blank string is +0, a literal that
    does not follow the StringNumericLiteral grammar is NaN. *)
Definition StringToNumber (str : string) : number :=
  match trim (list_ascii_of_string str) with
  | [] => S754_zero false
  | c :: rest =>
      if is_char 43 c then unsigned_literal false rest
      else if is_char 45 c then unsigned_literal true rest
      else
        match radix_prefix (c :: rest) with
        | Some (radix, digits) =>
            match all_digits radix digits with
            | Some v => num v
            | None => NaN
            end
        | None => unsigned_literal false (c :: rest)
        end
  end.

(* ===================================================================== *)
(** ** Regular expressions of the source *)
(* ===================================================================== *)

(** The syntax the four regular expressions of the source are written in. *)
Inductive regex : Type :=
| Eps
| Chr (c : ascii)
| Digit
| Bol
| Eol
| WordB
| Seq (r1 r2 : regex)
| Alt (r1 r2 : regex)
| Opt (r : regex)
| Plus (r : regex)
| Times (n : nat) (r : regex).

(** Canonicalize of a non-unicode ignore-case match.  A code unit of 128
    or more never canonicalizes to an ASCII one, and every character the
    source patterns name is ASCII, so those are left as they are. *)
Definition canonicalize (c : ascii) : ascii :=
  let n := code c in
  if (97 <=? n) && (n <=? 122) then ascii_of_N (Z.to_N (n - 32)) else c.

Definition chr_matches (ignore_case : bool) (p c : ascii) : bool :=
  if ignore_case then Ascii.eqb (canonicalize p) (canonicalize c)
  else Ascii.eqb p c.

Definition is_digit (c : ascii) : bool :=
  let n := code c in (48 <=? n) && (n <=? 57).

(** The word characters of [\b]: letters, digits and the underscore. *)
Definition is_word_char (c : ascii) : bool :=
  let n := code c in
  ((97 <=? n) && (n <=? 122)) || ((65 <=? n) && (n <=? 90))
  || is_digit c || (n =? 95).

Definition is_word (c : option ascii) : bool :=
  match c with Some x => is_word_char x | None => false end.

Section Matcher.
Variable ignore_case : bool.

(** A backtracking matcher in continuation-passing style.  A position is
    the character before it, if any, and the input from it on; the
    continuation receives the position the match ends at. *)
Fixpoint rmatch (r : regex) (prev : option ascii) (s : list ascii)
  (k : option ascii -> list ascii -> option (list ascii)) {struct r}
  : option (list ascii) :=
  match r with
  | Eps => k prev s
  | Chr p =>
      match s with
      | c :: rest => if chr_matches ignore_case p c then k (Some c) rest else None
      | [] => None
      end
  | Digit =>
      match s with
      | c :: rest => if is_digit c then k (Some c) rest else None
      | [] => None
      end
  | Bol => match prev with None => k prev s | Some _ => None end
  | Eol => match s with [] => k prev s | _ :: _ => None end
  | WordB =>
      if xorb (is_word prev) (is_word (hd_error s)) then k prev s else None
  | Seq r1 r2 => rmatch r1 prev s (fun p' s' => rmatch r2 p' s' k)
  | Alt r1 r2 =>
      match rmatch r1 prev s k with
      | Some e => Some e
      | None => rmatch r2 prev s k
      end
  | Opt r1 =>
      match rmatch r1 prev s k with
      | Some e => Some e
      | None => k prev s
      end
  | Plus r1 =>
      (fix more (fuel : nat) (prev : option ascii) (s : list ascii) :=
         match fuel with
         | O => None
         | S fuel' =>
             rmatch r1 prev s (fun p' s' =>
               match
                 (if (List.length s' <? List.length s)%nat then more fuel' p' s' else None)
               with
               | Some e => Some e
               | None => k p' s'
               end)
         end) (S (List.length s)) prev s
  | Times n r1 =>
      (fix rep (n : nat) (prev : option ascii) (s : list ascii) :=
         match n with
         | O => k prev s
         | S n' => rmatch r1 prev s (fun p' s' => rep n' p' s')
         end) n prev s
  end.

(** The leftmost match: the input before it and the input after it. *)
Fixpoint search (r : regex) (prev : option ascii) (s : list ascii)
  : option (list ascii * list ascii) :=
  match rmatch r prev s (fun _ rest => Some rest) with
  | Some rest => Some ([], rest)
  | None =>
      match s with
      | [] => None
      | c :: s' =>
          match search r (Some c) s' with
          | Some (before, rest) => Some (c :: before, rest)
          | None => None
          end
      end
  end.
End Matcher.

(** [re.test(s)] *)
Definition regex_test (ignore_case : bool) (r : regex) (s : string) : bool :=
  match search ignore_case r None (list_ascii_of_string s) with
  | Some _ => true
  | None => false
  end.

(** [s.replace(re, '')] for a regular expression without the global flag. *)
Definition regex_remove (ignore_case : bool) (r : regex) (s : string) : string :=
  match search ignore_case r None (list_ascii_of_string s) with
  | Some (before, rest) => string_of_list_ascii (before ++ rest)
  | None => s
  end.

(** The characters of a string as a pattern. *)
Fixpoint lit_chars (cs : list ascii) : regex :=
  match cs with
  | [] => Eps
  | [c] => Chr c
  | c :: rest => Seq (Chr c) (lit_chars rest)
  end.

Definition lit (s : string) : regex := lit_chars (list_ascii_of_string s).

(** [(a|b|c)] *)
Fixpoint alts (words : list string) : regex :=
  match words with
  | [] => Eps
  | [w] => lit w
  | w :: rest => Alt (lit w) (alts rest)
  end.

(** [\b(a|b|c)\b] *)
Definition whole_word (words : list string) : regex :=
  Seq WordB (Seq (alts words) WordB).

(* ===================================================================== *)
(** ** type-inference.ts *)
(* ===================================================================== *)

Inductive ModelType : Type :=
| text | image | video | inpaint | embedding | tts | asr | upscale.

Definition ModelType_eqb (a b : ModelType) : bool :=
  match a, b with
  | text, text | image, image | video, video | inpaint, inpaint
  | embedding, embedding | tts, tts | asr, asr | upscale, upscale => true
  | _, _ => false
  end.

(** The patterns all carry the [i] flag. *)
Definition MODEL_ID_TYPE_PATTERNS : list (regex * ModelType) :=
  [ (whole_word ["embed"; "embedding"], embedding);
    (whole_word ["dall-e"; "stable-diffusion"; "sdxl"; "midjourney"; "flux"], image);
    (whole_word ["tts"], tts);
    (whole_word ["whisper"; "asr"], asr);
    (whole_word ["sora"; "video"; "wan"], video);
    (whole_word ["inpaint"], inpaint);
    (whole_word ["upscale"; "esrgan"], upscale) ].

Fixpoint first_match (patterns : list (regex * ModelType)) (id : string)
  : option ModelType :=
  match patterns with
  | [] => None
  | (pattern, type) :: rest =>
      if regex_test true pattern id then Some type else first_match rest id
  end.

Definition inferTypeFromId (id : string) : option ModelType :=
  first_match MODEL_ID_TYPE_PATTERNS id.

(* ===================================================================== *)
(** ** Number::toString, ToString, ToNumber *)
(* ===================================================================== *)

Definition digits_of_Z (z : Z) : string :=
  NilZero.string_of_uint (N.to_uint (Z.to_N z)).

Definition zeros (n : Z) : string :=
  string_of_list_ascii (repeat "0"%char (Z.to_nat n)).

Definition substring_from (n : Z) (s : string) : string :=
  substring (Z.to_nat n) (String.length s - Z.to_nat n) s.

(** The digits [s] and the exponent [n] of step 5 of Number::toString for
    the positive value D * 10^E whose Number value is [x]: with [k] digits,
    the candidates are the two neighbours of the value among the [k]-digit
    decimals; one that reads back as [x] is taken, the closer one first
    and the even one on a tie. *)
Definition with_digits (x : number) (D L n k : Z) : option (Z * Z) :=
  if L <=? k then Some (D, n)
  else
    let p := 10 ^ (L - k) in
    let lo := D / p in
    let r := D mod p in
    let hi := if lo + 1 =? 10 ^ k then (10 ^ (k - 1), n + 1) else (lo + 1, n) in
    let ok c := number_eqb (round_decimal false (fst c) (snd c - k)) x in
    let lo_first := (2 * r <? p) || ((2 * r =? p) && Z.even lo) in
    let a := if lo_first then (lo, n) else hi in
    let b := if lo_first then hi else (lo, n) in
    if ok a then Some a else if ok b then Some b else None.

Fixpoint shortest (x : number) (D L n : Z) (k : Z) (fuel : nat) : Z * Z * Z :=
  match fuel with
  | O => (D, L, n)
  | S fuel' =>
      match with_digits x D L n k with
      | Some (s, n') => (s, Z.min k L, n')
      | None => shortest x D L n (k + 1) fuel'
      end
  end.

Definition format_digits (s k n : Z) : string :=
  let ds := digits_of_Z s in
  if (k <=? n) && (n <=? 21) then ds ++ zeros (n - k)
  else if (0 <? n) && (n <=? 21) then
    substring 0 (Z.to_nat n) ds ++ "." ++ substring_from n ds
  else if (-6 <? n) && (n <=? 0) then "0." ++ zeros (- n) ++ ds
  else
    let e := n - 1 in
    let sign := if e <? 0 then "-" else "+" in
    if k =? 1 then ds ++ "e" ++ sign ++ digits_of_Z (Z.abs e)
    else substring 0 1 ds ++ "." ++ substring_from 1 ds
         ++ "e" ++ sign ++ digits_of_Z (Z.abs e).

(** Number::toString in radix 10, with the choice of digits the note of
    the standard recommends (the closest of the shortest). *)
Definition Number_toString (x : number) : string :=
  match x with
  | S754_nan => "NaN"
  | S754_zero _ => "0"
  | S754_infinity negative => if negative then "-Infinity" else "Infinity"
  | S754_finite negative m e =>
      let D := if 0 <=? e then Z.pos m * 2 ^ e else Z.pos m * 5 ^ (- e) in
      let E := if 0 <=? e then 0 else e in
      let L := Z.of_nat (String.length (digits_of_Z D)) in
      let '(s, k, n) := shortest (S754_finite false m e) D L (L + E) 1 17 in
      (if negative then "-" else EmptyString) ++ format_digits s k n
  end.

Definition join (sep : string) (parts : list string) : string :=
  String.concat sep parts.

Definition not_primitive : string := "Cannot convert object to primitive value".

(** ToString.  An array is its elements joined by commas, [null] and
    [undefined] elements being empty.  A plain object is "[object Object]",
    unless it has a property [toString] of its own: a parsed value is never
    callable, [Object.prototype.valueOf] returns the object, and the
    conversion throws a TypeError. *)
Fixpoint ToString (v : value) : Result string :=
  match v with
  | VUndefined => Ok "undefined"
  | VNull => Ok "null"
  | VBool b => Ok (if b then "true" else "false")
  | VNum n => Ok (Number_toString n)
  | VStr s => Ok s
  | VArr items =>
      do parts <-
        (fix each (l : list value) : Result (list string) :=
           match l with
           | [] => Ok []
           | x :: rest =>
               do s <- (if nullish x then Ok EmptyString else ToString x);
               do ss <- each rest;
               Ok (s :: ss)
           end) items;
      Ok (join "," parts)
  | VObj props =>
      match lookup "toString" props with
      | Some _ => Throw not_primitive
      | None => Ok "[object Object]"
      end
  end.

(** ToNumber, the function [Number(v)] applies.  Arrays and objects go
    through their string. *)
Definition ToNumber (v : value) : Result number :=
  match v with
  | VUndefined => Ok NaN
  | VNull => Ok (S754_zero false)
  | VBool b => Ok (if b then num 1 else S754_zero false)
  | VNum n => Ok n
  | VStr s => Ok (StringToNumber s)
  | VArr _ | VObj _ => do s <- ToString v; Ok (StringToNumber s)
  end.

(** The values that are not objects. *)
Definition is_primitive (v : value) : bool :=
  match v with VArr _ | VObj _ => false | _ => true end.

(** [a === b] between a value and a string literal. *)
Definition is_string (lit : string) (v : value) : bool :=
  match v with VStr s => String.eqb s lit | _ => false end.

(* ===================================================================== *)
(** ** normalizers/base.ts *)
(* ===================================================================== *)

(** Safely coerce an unknown value to a number; [None] is [undefined]. *)
Definition toNum (v : value) : Result (option number) :=
  if nullish v || is_string EmptyString v then Ok None
  else
    do n <- ToNumber v;
    Ok (if Number_isNaN n then None else Some n).

(** A [number | undefined] as a value. *)
Definition of_opt (n : option number) : value :=
  match n with Some x => VNum x | None => VUndefined end.

Fixpoint includes_char (c : ascii) (s : string) : bool :=
  match s with
  | EmptyString => false
  | String x rest => Ascii.eqb x c || includes_char c rest
  end.

(** [s.split(c)[0]] *)
Fixpoint before_char (c : ascii) (s : string) : string :=
  match s with
  | EmptyString => EmptyString
  | String x rest => if Ascii.eqb x c then EmptyString else String x (before_char c rest)
  end.

(** [spec?.k ?? raw.k ?? undefined] *)
Definition spec_then_raw (k : string) (spec raw : value) : value :=
  js_nullish (js_nullish (get_opt k spec) (get k raw)) VUndefined.

(** The shared BaseModel fields of a raw record.  [now_seconds] is the
    value of [Math.floor(Date.now() / 1000)] at the call. *)
Definition extractBaseFields (now_seconds : number) (raw : value) : Result value :=
  let spec := get "model_spec" raw in
  let id := js_or (js_or (get "id" raw) (get "model_id" raw)) (VStr EmptyString) in
  if negb (truthy id) then Throw "Model missing required id field"
  else
    do provider <-
      match id with
      | VStr s =>
          Ok (if includes_char "/" s then VStr (before_char "/" s)
              else js_or (get "owned_by" raw) (VStr "Unknown"))
      | VArr items =>
          if existsb (is_string "/") items
          then Throw "id.split is not a function"
          else Ok (js_or (get "owned_by" raw) (VStr "Unknown"))
      | _ => Throw "id.includes is not a function"
      end;
    do created <- toNum (get "created" raw);
    Ok (VObj
      [ ("id", id);
        ("name", js_or (js_or (get_opt "name" spec) (get "name" raw)) id);
        ("provider", provider);
        ("created", VNum (opt_nullish created now_seconds));
        ("description",
          js_or (js_or (get_opt "description" spec) (get "description" raw)) VUndefined);
        ("betaModel", spec_then_raw "betaModel" spec raw);
        ("privacy", spec_then_raw "privacy" spec raw);
        ("offline", spec_then_raw "offline" spec raw);
        ("modelSource", spec_then_raw "modelSource" spec raw);
        ("traits", spec_then_raw "traits" spec raw);
        ("deprecation", js_nullish (get_opt "deprecation" spec) VUndefined);
        ("is_favorite", VBool false) ]).

(** The own properties an object spread copies. *)
Definition spread (v : value) : list (string * value) :=
  match v with VObj props => props | _ => [] end.

(** The object [{ k1: o.k1, ..., kn: o.kn }]. *)
Definition pick (keys : list string) (o : value) : value :=
  VObj (map (fun k => (k, get k o)) keys).

(** [o ? { k1: o.k1, ... } : undefined] *)
Definition pick_if_present (keys : list string) (o : value) : value :=
  if truthy o then pick keys o else VUndefined.

(** [x?.usd !== undefined ? x.usd / 1_000_000 : undefined] *)
Definition per_million (x : value) : Result value :=
  let usd := get_opt "usd" x in
  if is_defined usd then
    do n <- ToNumber usd; Ok (VNum (num_div n (num 1000000)))
  else Ok VUndefined.

(** [toNum(v1) ?? toNum(v2) ?? ... ?? fallback], a later candidate being
    coerced only when the earlier ones are undefined. *)
Fixpoint first_number (candidates : list value) (fallback : number)
  : Result number :=
  match candidates with
  | [] => Ok fallback
  | v :: rest =>
      do n <- toNum v;
      match n with
      | Some x => Ok x
      | None => first_number rest fallback
      end
  end.

(** [toNum(source.k)] as a value. *)
Definition number_at (k : string) (source : value) : Result value :=
  do n <- toNum (get k source); Ok (of_opt n).

(* ===================================================================== *)
(** ** normalizers/text.ts *)
(* ===================================================================== *)

Definition normalizeTextModel (now_seconds : number) (raw : value) : Result value :=
  do base <- extractBaseFields now_seconds raw;
  let spec := get "model_spec" raw in
  let specPricing := get_opt "pricing" spec in
  do context_length <-
    first_number
      [ get "context_length" raw; get "context_window" raw;
        get_opt "availableContextTokens" spec ] (num 0);
  let rawPricing := get "pricing" raw in
  let metaPricing := get_opt "pricing" (get "metadata" raw) in
  let costPricing := get "cost" raw in
  do pricing <-
    (if truthy rawPricing then
       do prompt <- number_at "prompt" rawPricing;
       do completion <- number_at "completion" rawPricing;
       do cache_input <- number_at "cache_input" rawPricing;
       do cache_write <- number_at "cache_write" rawPricing;
       Ok (prompt, completion, cache_input, cache_write)
     else if truthy metaPricing then
       do prompt <- number_at "prompt" metaPricing;
       do completion <- number_at "completion" metaPricing;
       Ok (prompt, completion, VUndefined, VUndefined)
     else if truthy costPricing then
       do prompt <- number_at "prompt" costPricing;
       do completion <- number_at "completion" costPricing;
       Ok (prompt, completion, VUndefined, VUndefined)
     else if truthy specPricing then
       do prompt <- per_million (get "input" specPricing);
       do completion <- per_million (get "output" specPricing);
       do cache_input <- per_million (get "cache_input" specPricing);
       do cache_write <- per_million (get "cache_write" specPricing);
       Ok (prompt, completion, cache_input, cache_write)
     else Ok (VUndefined, VUndefined, VUndefined, VUndefined));
  let '(prompt, completion, cache_input, cache_write) := pricing in
  let caps := get_opt "capabilities" spec in
  let constraints := get_opt "constraints" spec in
  Ok (VObj (spread base ++
    [ ("type", VStr "text");
      ("context_length", VNum context_length);
      ("pricing", VObj
        [ ("prompt", prompt);
          ("completion", completion);
          ("cache_input", cache_input);
          ("cache_write", cache_write) ]);
      ("capabilities", pick_if_present
        [ "optimizedForCode"; "supportsVision"; "supportsReasoning";
          "supportsFunctionCalling"; "supportsResponseSchema";
          "supportsLogProbs"; "supportsAudioInput"; "supportsVideoInput";
          "supportsWebSearch"; "quantization" ] caps);
      ("constraints", pick_if_present ["temperature"; "top_p"] constraints) ])).

(* ===================================================================== *)
(** ** normalizers/image.ts *)
(* ===================================================================== *)

Definition index_key (i : nat) : string := digits_of_Z (Z.of_nat i).

Fixpoint indexed (i : nat) (items : list value) : list (string * value) :=
  match items with
  | [] => []
  | x :: rest => (index_key i, x) :: indexed (S i) rest
  end.

(** [Object.entries(v)] of an object or an array. *)
Definition Object_entries (v : value) : list (string * value) :=
  match v with
  | VObj props => props
  | VArr items => indexed 0 items
  | _ => []
  end.

(** [o[k] = v] on the properties of a plain object.  The name [__proto__]
    reaches the setter of [Object.prototype] and adds no property. *)
Fixpoint set_prop (k : string) (v : value) (props : list (string * value))
  : list (string * value) :=
  match props with
  | [] => if String.eqb k "__proto__" then [] else [(k, v)]
  | (k', v') :: rest =>
      if String.eqb k k' then (k', v) :: rest else (k', v') :: set_prop k v rest
  end.

(** The loop over the per-resolution prices: an entry that is an object
    with a [usd] property is kept as [usd ?? 0]. *)
Fixpoint normalize_resolutions (entries : list (string * value))
  (acc : list (string * value)) : list (string * value) :=
  match entries with
  | [] => acc
  | (key, v) :: rest =>
      if truthy v && typeof_object v && has_own "usd" v
      then normalize_resolutions rest
             (set_prop key (js_nullish (get "usd" v) (VNum (num 0))) acc)
      else normalize_resolutions rest acc
  end.

Definition normalizeImageModel (now_seconds : number) (raw : value) : Result value :=
  do base <- extractBaseFields now_seconds raw;
  let spec := get "model_spec" raw in
  let pricing := get_opt "pricing" spec in
  let constraints := get_opt "constraints" spec in
  let generation := get_opt "generation" pricing in
  let upscale := get_opt "upscale" pricing in
  let rawResolutions := get_opt "resolutions" pricing in
  let normalizedResolutions :=
    if truthy rawResolutions && typeof_object rawResolutions
    then VObj (normalize_resolutions (Object_entries rawResolutions) [])
    else VUndefined in
  Ok (VObj (spread base ++
    [ ("type", VStr "image");
      ("pricing", VObj
        [ ("generation", get_opt "usd" generation);
          ("upscale_2x", get_opt "usd" (get_opt "2x" upscale));
          ("upscale_4x", get_opt "usd" (get_opt "4x" upscale));
          ("resolutions", normalizedResolutions) ]);
      ("constraints", pick_if_present
        [ "promptCharacterLimit"; "steps"; "widthHeightDivisor";
          "aspectRatios"; "defaultAspectRatio"; "resolutions";
          "defaultResolution" ] constraints);
      ("supportsWebSearch",
        js_nullish (get_opt "supportsWebSearch" spec) VUndefined) ])).

(* ===================================================================== *)
(** ** normalizers/{video,inpaint,embedding,tts,asr,upscale}.ts *)
(* ===================================================================== *)

(** Video models carry no pricing at all. *)
Definition normalizeVideoModel (now_seconds : number) (raw : value) : Result value :=
  do base <- extractBaseFields now_seconds raw;
  let spec := get "model_spec" raw in
  let constraints := get_opt "constraints" spec in
  Ok (VObj (spread base ++
    [ ("type", VStr "video");
      ("constraints", pick_if_present
        [ "model_type"; "aspect_ratios"; "resolutions"; "durations";
          "audio"; "audio_configurable"; "audio_input"; "video_input" ]
        constraints);
      ("model_sets", spec_then_raw "model_sets" spec raw) ])).

Definition normalizeInpaintModel (now_seconds : number) (raw : value) : Result value :=
  do base <- extractBaseFields now_seconds raw;
  let spec := get "model_spec" raw in
  let pricing := get_opt "pricing" spec in
  let constraints := get_opt "constraints" spec in
  let generation := get_opt "generation" pricing in
  Ok (VObj (spread base ++
    [ ("type", VStr "inpaint");
      ("pricing", VObj [ ("generation", get_opt "usd" generation) ]);
      ("constraints",
        pick_if_present ["aspectRatios"; "combineImages"] constraints) ])).

Definition normalizeEmbeddingModel (now_seconds : number) (raw : value) : Result value :=
  do base <- extractBaseFields now_seconds raw;
  let spec := get "model_spec" raw in
  let specPricing := get_opt "pricing" spec in
  let input := get_opt "input" specPricing in
  let output := get_opt "output" specPricing in
  do input_price <- per_million input;
  do output_price <- per_million output;
  Ok (VObj (spread base ++
    [ ("type", VStr "embedding");
      ("pricing", VObj
        [ ("input", input_price);
          ("output", output_price) ]) ])).

Definition normalizeTtsModel (now_seconds : number) (raw : value) : Result value :=
  do base <- extractBaseFields now_seconds raw;
  let spec := get "model_spec" raw in
  let specPricing := get_opt "pricing" spec in
  let input := get_opt "input" specPricing in
  do input_price <- per_million input;
  Ok (VObj (spread base ++
    [ ("type", VStr "tts");
      ("pricing", VObj [ ("input", input_price) ]);
      ("voices", js_nullish (get_opt "voices" spec) VUndefined) ])).

Definition normalizeAsrModel (now_seconds : number) (raw : value) : Result value :=
  do base <- extractBaseFields now_seconds raw;
  let spec := get "model_spec" raw in
  let specPricing := get_opt "pricing" spec in
  let perAudioSecond := get_opt "per_audio_second" specPricing in
  Ok (VObj (spread base ++
    [ ("type", VStr "asr");
      ("pricing", VObj
        [ ("per_audio_second", get_opt "usd" perAudioSecond) ]) ])).

Definition normalizeUpscaleModel (now_seconds : number) (raw : value) : Result value :=
  do base <- extractBaseFields now_seconds raw;
  let spec := get "model_spec" raw in
  let pricing := get_opt "pricing" spec in
  let generation := get_opt "generation" pricing in
  Ok (VObj (spread base ++
    [ ("type", VStr "upscale");
      ("pricing", VObj [ ("generation", get_opt "usd" generation) ]) ])).

(* ===================================================================== *)
(** ** normalizers/index.ts *)
(* ===================================================================== *)

(** A top-level array, [{ data: [...] }], [{ models: [...] }], else [[]]. *)
Definition defaultResponseExtractor (body : value) : list value :=
  match body with
  | VArr items => items
  | _ =>
      if truthy body && typeof_object body then
        match get "data" body with
        | VArr data => data
        | _ =>
            match get "models" body with
            | VArr models => models
            | _ => []
            end
        end
      else []
  end.

Definition ModelType_of_string (s : string) : option ModelType :=
  if String.eqb s "text" then Some text
  else if String.eqb s "image" then Some image
  else if String.eqb s "video" then Some video
  else if String.eqb s "inpaint" then Some inpaint
  else if String.eqb s "embedding" then Some embedding
  else if String.eqb s "tts" then Some tts
  else if String.eqb s "asr" then Some asr
  else if String.eqb s "upscale" then Some upscale
  else None.

Definition ModelType_to_string (t : ModelType) : string :=
  match t with
  | text => "text" | image => "image" | video => "video"
  | inpaint => "inpaint" | embedding => "embedding" | tts => "tts"
  | asr => "asr" | upscale => "upscale"
  end.

Definition VALID_TYPES : list string :=
  ["text"; "image"; "video"; "inpaint"; "embedding"; "tts"; "asr"; "upscale"].

(** [VALID_TYPES.has(v)] *)
Definition VALID_TYPES_has (v : value) : bool :=
  match v with
  | VStr s => existsb (String.eqb s) VALID_TYPES
  | _ => false
  end.

(** [rawType && VALID_TYPES.has(rawType) ? rawType as ModelType : undefined] *)
Definition explicit_type (rawType : value) : option ModelType :=
  if truthy rawType && VALID_TYPES_has rawType then
    match rawType with
    | VStr s => ModelType_of_string s
    | _ => None
    end
  else None.

Definition inferred_or_text (id : string) : ModelType :=
  match inferTypeFromId id with
  | Some t => t
  | None => text
  end.

(** The three tiers of the type resolution.  The id is matched against
    the patterns, and turned into a string for that, only when the record
    names no known type. *)
Definition resolve_type (raw : value) : Result ModelType :=
  let id := js_nullish (js_nullish (get "id" raw) (get "model_id" raw))
              (VStr EmptyString) in
  let rawType := get "type" raw in
  match explicit_type rawType with
  | Some t => Ok t
  | None => do s <- ToString id; Ok (inferred_or_text s)
  end.

Definition dispatch (t : ModelType) : number -> value -> Result value :=
  match t with
  | text => normalizeTextModel
  | image => normalizeImageModel
  | video => normalizeVideoModel
  | inpaint => normalizeInpaintModel
  | embedding => normalizeEmbeddingModel
  | tts => normalizeTtsModel
  | asr => normalizeAsrModel
  | upscale => normalizeUpscaleModel
  end.

Definition defaultModelNormalizer (now_seconds : number) (raw : value) : Result value :=
  do t <- resolve_type raw;
  dispatch t now_seconds raw.

(** The eight per-variant normalizers with their tags. *)
Definition variant_normalizers
  : list (ModelType * (number -> value -> Result value)) :=
  [ (text, normalizeTextModel); (image, normalizeImageModel);
    (video, normalizeVideoModel); (inpaint, normalizeInpaintModel);
    (embedding, normalizeEmbeddingModel); (tts, normalizeTtsModel);
    (asr, normalizeAsrModel); (upscale, normalizeUpscaleModel) ].

(* ===================================================================== *)
(** ** hooks/use-models.ts *)
(* ===================================================================== *)

(** [/^https?:\/\//i] *)
Definition scheme_pattern : regex :=
  Seq Bol (Seq (lit "http") (Seq (Opt (Chr "s")) (lit "://"))).

(** [/\/+$/] *)
Definition trailing_slashes : regex := Seq (Plus (Chr "/")) Eol.

Definition hex_digit (n : Z) : ascii :=
  ascii_of_N (Z.to_N (if n <? 10 then 48 + n else 55 + n)).

Definition percent (byte : Z) : list ascii :=
  ["%"%char; hex_digit (byte / 16); hex_digit (byte mod 16)].

(** The application/x-www-form-urlencoded serialization of one code unit:
    letters, digits and [*-._] stay, a space becomes [+], the rest is the
    percent-encoding of its UTF-8 bytes. *)
Definition form_encode_char (c : ascii) : list ascii :=
  let n := code c in
  if is_word_char c || (n =? 42) || (n =? 45) || (n =? 46) then [c]
  else if n =? 32 then ["+"%char]
  else if n <? 128 then percent n
  else percent (192 + n / 64) ++ percent (128 + n mod 64).

Definition form_encode (s : string) : string :=
  string_of_list_ascii (flat_map form_encode_char (list_ascii_of_string s)).

(** [new URLSearchParams(params).toString()] *)
Definition URLSearchParams_toString (params : list (string * string)) : string :=
  join "&" (map (fun '(k, v) => form_encode k ++ "=" ++ form_encode v) params).

(** What the fetch function does with a request: the promise rejects, or
    it resolves to a response whose [json()] returns or throws. *)
Inductive FetchOutcome : Type :=
| Rejected (error : string)
| Response (ok : bool) (status : Z) (json : Result value).

Definition FetchFn : Type := string -> list (string * string) -> FetchOutcome.

(** What one run of the effect does to the outside. *)
Inductive Event : Type :=
| Fetched (url : string) (headers : list (string * string))
| Warned (message : string) (error : string).

Definition is_fetch (e : Event) : bool :=
  match e with Fetched _ _ => true | Warned _ _ => false end.

Definition is_warning (e : Event) : bool :=
  match e with Warned _ _ => true | Fetched _ _ => false end.

Definition double_quote : string := String (ascii_of_N 34) EmptyString.

(** The text of the warning for a record that failed to normalize. *)
Definition warning_message (raw : value) : Result string :=
  let modelId :=
    js_nullish (js_nullish (get "id" raw) (get "model_id" raw)) (VStr "unknown") in
  do shown <- ToString modelId;
  Ok ("[open-model-selector] Failed to normalize model " ++ double_quote
        ++ shown ++ double_quote ++ ":").

(** [item !== null && typeof item === 'object' && !Array.isArray(item)] *)
Definition is_record (item : value) : bool :=
  match item with VObj _ => true | _ => false end.

(** [!json || (typeof json !== 'object' && !Array.isArray(json))] *)
Definition invalid_body (json : value) : bool :=
  negb (truthy json)
  || (negb (typeof_object json)
      && negb (match json with VArr _ => true | _ => false end)).

Section UseModels.

(** The hook handles models only through [model.id] being truthy and
    [m.type === type]; the models are whatever the normalizer builds. *)
Variable Model : Type.
Variable has_id : Model -> bool.
Variable has_type : ModelType -> Model -> bool.

(** [fetcher] stands for [fetcherRef.current ?? fetch] and [normalizer]
    for [normalizerRef.current ?? defaultModelNormalizer]; a normalizer
    returns a model, or something falsy ([None]), or throws. *)
Record UseModelsProps : Type := {
  baseUrl : option string;
  apiKey : option string;
  type : option ModelType;
  queryParams : option (list (string * string));
  fetcher : FetchFn;
  responseExtractor : option (value -> Result (list value));
  normalizer : value -> Result (option Model)
}.

Record HookState : Type := {
  allModels : list Model;
  loading : bool;
  error : option string
}.

Record UseModelsResult : Type := {
  models : list Model;
  result_loading : bool;
  result_error : option string
}.

(** [!!s] for an optional string. *)
Definition present (s : option string) : bool :=
  match s with
  | Some x => negb (String.eqb x EmptyString)
  | None => false
  end.

(** The state of the first render. *)
Definition initial_state (props : UseModelsProps) : HookState :=
  {| allModels := []; loading := present (baseUrl props); error := None |}.

(** The loop over the raw records.  [production] is
    [process.env.NODE_ENV === 'production'].  The text of a warning is put
    together inside the [catch] of the record: should that throw, the loop
    is left and the error reaches the [catch] of the request. *)
Fixpoint normalize_each (production : bool)
  (normalize : value -> Result (option Model)) (rawModels : list value)
  : Result (list Model) * list Event :=
  match rawModels with
  | [] => (Ok [], [])
  | raw :: rest =>
      match normalize raw with
      | Ok (Some model) =>
          let '(normalized, events) := normalize_each production normalize rest in
          if has_id model
          then (do models <- normalized; Ok (model :: models), events)
          else (normalized, events)
      | Ok None => normalize_each production normalize rest
      | Throw e =>
          if production then normalize_each production normalize rest
          else
            match warning_message raw with
            | Ok message =>
                let '(normalized, events) :=
                  normalize_each production normalize rest in
                (normalized, Warned message e :: events)
            | Throw e' => (Throw e', [])
            end
      end
  end.

(** The body of the [try] block after the response arrived. *)
Definition read_response (production : bool) (props : UseModelsProps)
  (outcome : FetchOutcome) : Result (list Model) * list Event :=
  match outcome with
  | Rejected e => (Throw e, [])
  | Response ok status json =>
      if negb ok then
        (Throw ("Failed to load models (HTTP " ++ Number_toString (num status) ++ ")"), [])
      else
        match json with
        | Throw e => (Throw e, [])
        | Ok body =>
            if invalid_body body then
              (Throw "Invalid response: expected JSON object or array", [])
            else
              let extractor :=
                match responseExtractor props with
                | Some f => f
                | None => fun b => Ok (defaultResponseExtractor b)
                end in
              match extractor body with
              | Throw e => (Throw e, [])
              | Ok items =>
                  normalize_each production (normalizer props)
                    (filter is_record items)
              end
        end
  end.

Definition request_url (base : string) (props : UseModelsProps) : string :=
  let cleanBase := regex_remove false trailing_slashes base in
  let params := match queryParams props with Some p => p | None => [] end in
  let qs := URLSearchParams_toString params in
  cleanBase ++ "/models"
    ++ (if String.eqb qs EmptyString then EmptyString else "?" ++ qs).

Definition request_headers (props : UseModelsProps) : list (string * string) :=
  if present (apiKey props)
  then [("Authorization", "Bearer " ++ match apiKey props with Some k => k | None => EmptyString end)]
  else [].

(** [fetchModels()], run until its promise settles.  [stale] says that
    the cleanup of the effect ran before that (unmount, or a change of
    [baseUrl], [apiKey] or the query parameters): then nothing after the
    two synchronous updates reaches the state. *)
Definition fetchModels (production stale : bool) (base : string)
  (props : UseModelsProps) (st : HookState) : HookState * list Event :=
  let url := request_url base props in
  let headers := request_headers props in
  let '(outcome, events) :=
    read_response production props (fetcher props url headers) in
  let trace := Fetched url headers :: events in
  if stale then
    ({| allModels := allModels st; loading := true; error := None |}, trace)
  else
    match outcome with
    | Ok normalized =>
        ({| allModels := normalized; loading := false; error := None |}, trace)
    | Throw err =>
        ({| allModels := []; loading := false; error := Some err |}, trace)
    end.

Definition invalid_scheme_message : string :=
  "Invalid baseUrl scheme: URL must start with http:// or https://".

(** One run of the effect: the state it leaves and the calls it made. *)
Definition effect (production stale : bool) (props : UseModelsProps)
  (st : HookState) : HookState * list Event :=
  match baseUrl props with
  | None => ({| allModels := []; loading := false; error := None |}, [])
  | Some base =>
      if String.eqb base EmptyString then
        ({| allModels := []; loading := false; error := None |}, [])
      else if negb (regex_test true scheme_pattern base) then
        ({| allModels := []; loading := false;
            error := Some invalid_scheme_message |}, [])
      else fetchModels production stale base props st
  end.

(** What the hook returns for a state: the client-side type filter. *)
Definition result_of (props : UseModelsProps) (st : HookState) : UseModelsResult :=
  {| models :=
       match type props with
       | None => allModels st
       | Some t => filter (has_type t) (allModels st)
       end;
     result_loading := loading st;
     result_error := error st |}.

(** The hook from its first render to the state its effect settles in. *)
Definition useModels (production : bool) (props : UseModelsProps)
  : UseModelsResult * list Event :=
  let '(st, events) := effect production false props (initial_state props) in
  (result_of props st, events).

End UseModels.

(* ===================================================================== *)
(** ** types/base.ts *)
(* ===================================================================== *)

Module Types.

Inductive Privacy : Type := privacy_private | privacy_anonymized.

Record Deprecation : Type := { date : string }.

(** [BaseModel] as declared; [details] holds the fields the variant adds
    (pricing, constraints, ...), which the selector never reads. *)
Record AnyModel : Type := {
  id : string;
  name : string;
  provider : string;
  created : number;
  type : ModelType;
  description : option string;
  privacy : option Privacy;
  offline : option bool;
  betaModel : option bool;
  is_favorite : option bool;
  modelSource : option string;
  traits : option (list string);
  deprecation : option Deprecation;
  details : value
}.

(** [{ ...m, is_favorite: true }] *)
Definition with_favorite (m : AnyModel) : AnyModel :=
  {| id := id m; name := name m; provider := provider m;
     created := created m; type := type m; description := description m;
     privacy := privacy m; offline := offline m; betaModel := betaModel m;
     is_favorite := Some true;
     modelSource := modelSource m; traits := traits m;
     deprecation := deprecation m; details := details m |}.

End Types.

(* ===================================================================== *)
(** ** Dates and collation of the host, and one instance of each *)
(* ===================================================================== *)

(** Days from 1970-01-01 to a date of the proleptic Gregorian calendar. *)
Definition days_from_civil (y m d : Z) : Z :=
  let y' := if m <=? 2 then y - 1 else y in
  let era := y' / 400 in
  let yoe := y' - era * 400 in
  let doy := (153 * (if 2 <? m then m - 3 else m + 9) + 2) / 5 + d - 1 in
  let doe := yoe * 365 + yoe / 4 - yoe / 100 + doy in
  era * 146097 + doe - 719468.

Definition days_in_month (y m : Z) : Z :=
  if m =? 2 then
    if ((y mod 4 =? 0) && negb (y mod 100 =? 0)) || (y mod 400 =? 0) then 29 else 28
  else if (m =? 4) || (m =? 6) || (m =? 9) || (m =? 11) then 30
  else 31.

(** Exactly [n] decimal digits, as their value. *)
Fixpoint take_digits (n : nat) (acc : Z) (s : list ascii) : option (Z * list ascii) :=
  match n with
  | O => Some (acc, s)
  | S n' =>
      match s with
      | c :: rest =>
          if is_digit c then take_digits n' (acc * 10 + (code c - 48)) rest
          else None
      | [] => None
      end
  end.

Definition expect (c : ascii) (s : list ascii) : option (list ascii) :=
  match s with
  | x :: rest => if Ascii.eqb x c then Some rest else None
  | [] => None
  end.

Definition opt_bind {A B : Type} (o : option A) (k : A -> option B) : option B :=
  match o with Some a => k a | None => None end.

(** The time of day [HH:mm:ss] or [HH:mm:ss.sss] followed by [Z], in
    milliseconds. *)
Definition iso_time (s : list ascii) : option Z :=
  opt_bind (take_digits 2 0 s) (fun '(hh, s) =>
  opt_bind (expect ":" s) (fun s =>
  opt_bind (take_digits 2 0 s) (fun '(mm, s) =>
  opt_bind (expect ":" s) (fun s =>
  opt_bind (take_digits 2 0 s) (fun '(ss, s) =>
  opt_bind
    (match s with
     | "."%char :: s' => take_digits 3 0 s'
     | _ => Some (0, s)
     end) (fun '(ms, s) =>
  match s with
  | ["Z"%char] =>
      if (hh <=? 23) && (mm <=? 59) && (ss <=? 59)
      then Some (((hh * 60 + mm) * 60 + ss) * 1000 + ms)
      else None
  | _ => None
  end)))))).

(** A date parser that reads the UTC forms [YYYY-MM-DD] and
    [YYYY-MM-DDTHH:mm:ss(.sss)Z] of the Date Time String Format and takes
    nothing else; [None] is the time value NaN of an invalid date. *)
Definition iso_Date_parse (str : string) : option Z :=
  opt_bind (take_digits 4 0 (list_ascii_of_string str)) (fun '(y, s) =>
  opt_bind (expect "-" s) (fun s =>
  opt_bind (take_digits 2 0 s) (fun '(m, s) =>
  opt_bind (expect "-" s) (fun s =>
  opt_bind (take_digits 2 0 s) (fun '(d, s) =>
  if (1 <=? m) && (m <=? 12) && (1 <=? d) && (d <=? days_in_month y m) then
    let day := days_from_civil y m d * 86400000 in
    match s with
    | [] => Some day
    | "T"%char :: t => option_map (Z.add day) (iso_time t)
    | _ => None
    end
  else None))))).

(** Comparison of strings by code units, as a [localeCompare]. *)
Fixpoint ordinal_compare (a b : string) : number :=
  match a, b with
  | EmptyString, EmptyString => S754_zero false
  | EmptyString, String _ _ => num (-1)
  | String _ _, EmptyString => num 1
  | String x a', String y b' =>
      if code x <? code y then num (-1)
      else if code y <? code x then num 1
      else ordinal_compare a' b'
  end.

(* ===================================================================== *)
(** ** utils/helpers.ts and components/model-selector.tsx *)
(* ===================================================================== *)

(** [/^\d{4}-\d{2}-\d{2}$/] *)
Definition date_only : regex :=
  Seq Bol (Seq (Times 4 Digit) (Seq (Chr "-") (Seq (Times 2 Digit)
    (Seq (Chr "-") (Seq (Times 2 Digit) Eol))))).

Inductive SortOrder : Type := sort_name | sort_created.

Section ArraySort.
Variable A : Type.
Variable compare : A -> A -> number.

(** [x] goes behind the elements the comparator puts before it. *)
Fixpoint insert_sorted (x : A) (l : list A) : list A :=
  match l with
  | [] => [x]
  | y :: rest =>
      if num_pos (compare x y) then y :: insert_sorted x rest
      else x :: y :: rest
  end.

(** [Array.prototype.sort]: a stable sort for a consistent comparator
    (which permutation an inconsistent one gives is left to the engine);
    here a stable insertion sort. *)
Definition Array_sort (l : list A) : list A :=
  fold_right insert_sorted [] l.
End ArraySort.

Section Selector.
(** [new Date(s).getTime()], [None] being NaN; and [a.localeCompare(b)]. *)
Variable Date_parse : string -> option Z.
Variable localeCompare : string -> string -> number.

(** [isDeprecated(dateStr)] of the helpers, [now] being [Date.now()]. *)
Definition isDeprecated (now : Z) (dateStr : string) : bool :=
  let normalized :=
    if regex_test false date_only dateStr then dateStr ++ "T00:00:00Z"
    else dateStr in
  match Date_parse normalized with
  | Some ts => ts <? now
  | None => false
  end.

(** [new Date(d) >= now] and [new Date(d) < now]; both false on an
    invalid date. *)
Definition date_at_or_after (now : Z) (d : string) : bool :=
  match Date_parse d with Some t => now <=? t | None => false end.

Definition date_before (now : Z) (d : string) : bool :=
  match Date_parse d with Some t => t <? now | None => false end.

(** A [Map<string, Types.AnyModel>]: its entries in insertion order. *)
Definition ModelMap : Type := list (string * Types.AnyModel).

Fixpoint map_set (k : string) (m : Types.AnyModel) (map : ModelMap) : ModelMap :=
  match map with
  | [] => [(k, m)]
  | (k', m') :: rest =>
      if String.eqb k k' then (k', m) :: rest
      else (k', m') :: map_set k m rest
  end.

Definition map_values (map : ModelMap) : list Types.AnyModel := List.map snd map.

(** [list.forEach(m => map.set(m.id, m))] *)
Definition set_each (items : list Types.AnyModel) (map : ModelMap) : ModelMap :=
  fold_left (fun acc m => map_set (Types.id m) m acc) items map.

(** Merge provided models and fetched models, dedupe by ID. *)
Definition merge (fetchedModels models : list Types.AnyModel) : ModelMap :=
  set_each models (set_each fetchedModels []).

(** [favoritesSet.has(k)] *)
Definition favorites_has (localFavorites : list string) (k : string) : bool :=
  existsb (String.eqb k) localFavorites.

(** The favorites overlay over the entries of the map. *)
Definition overlay_favorites (localFavorites : list string) (map : ModelMap)
  : ModelMap :=
  fold_left
    (fun acc '(_, m) =>
       if favorites_has localFavorites (Types.id m)
       then map_set (Types.id m) (Types.with_favorite m) acc
       else acc)
    map map.

(** The filter applied when [showDeprecated] is false. *)
Definition visible (now : Z) (m : Types.AnyModel) : bool :=
  match Types.deprecation m with
  | None => true
  | Some d => date_at_or_after now (Types.date d)
  end.

(** [m.deprecation && new Date(m.deprecation.date) < now] *)
Definition past_deprecated (now : Z) (m : Types.AnyModel) : bool :=
  match Types.deprecation m with
  | None => false
  | Some d => date_before now (Types.date d)
  end.

(** [a.name || a.id] *)
Definition display_name (m : Types.AnyModel) : string :=
  if String.eqb (Types.name m) EmptyString then Types.id m else Types.name m.

Definition by_created (a b : Types.AnyModel) : number :=
  num_sub (Types.created b) (Types.created a).

Definition by_name (a b : Types.AnyModel) : number :=
  localeCompare (display_name a) (display_name b).

Definition sort_stage (sortOrder : SortOrder) (items : list Types.AnyModel)
  : list Types.AnyModel :=
  match sortOrder with
  | sort_created => Array_sort by_created items
  | sort_name => Array_sort by_name items
  end.

(** Move deprecated models (past date) to the end. *)
Fixpoint partition_stage (now : Z) (items : list Types.AnyModel)
  : list Types.AnyModel * list Types.AnyModel :=
  match items with
  | [] => ([], [])
  | m :: rest =>
      let '(nonDeprecated, deprecated) := partition_stage now rest in
      if past_deprecated now m then (nonDeprecated, m :: deprecated)
      else (m :: nonDeprecated, deprecated)
  end.

Definition filter_stage (showDeprecated : bool) (now : Z)
  (items : list Types.AnyModel) : list Types.AnyModel :=
  if negb showDeprecated then filter (visible now) items else items.

(** The memo [allModels].  [controlled] says that [onToggleFavorite] was
    given; [now] is the instant the component holds in its state. *)
Definition allModels_memo (models fetchedModels : list Types.AnyModel)
  (sortOrder : SortOrder) (localFavorites : list string)
  (controlled showDeprecated : bool) (now : Z) : list Types.AnyModel :=
  let map := merge fetchedModels models in
  let map :=
    if negb controlled then overlay_favorites localFavorites map else map in
  let items := map_values map in
  let items := filter_stage showDeprecated now items in
  let items := sort_stage sortOrder items in
  let '(nonDeprecated, deprecated) := partition_stage now items in
  (nonDeprecated ++ deprecated)%list.

(** The list the sort stage hands to the partition. *)
Definition sorted_models (models fetchedModels : list Types.AnyModel)
  (sortOrder : SortOrder) (localFavorites : list string)
  (controlled showDeprecated : bool) (now : Z) : list Types.AnyModel :=
  sort_stage sortOrder
    (filter_stage showDeprecated now
      (map_values
        (if negb controlled
         then overlay_favorites localFavorites (merge fetchedModels models)
         else merge fetchedModels models))).

(** [models.length > 0 ? undefined : baseUrl] *)
Definition effectiveBaseUrl (models : list Types.AnyModel) (baseUrl : option string)
  : option string :=
  match models with
  | _ :: _ => None
  | [] => baseUrl
  end.

Definition has_id (m : Types.AnyModel) : bool := negb (String.eqb (Types.id m) EmptyString).

Definition has_type (t : ModelType) (m : Types.AnyModel) : bool :=
  ModelType_eqb (Types.type m) t.

(** The props the component hands to the hook. *)
Definition hook_props (models : list Types.AnyModel) (props : UseModelsProps Types.AnyModel)
  : UseModelsProps Types.AnyModel :=
  {| baseUrl := effectiveBaseUrl models (baseUrl props);
     apiKey := apiKey props;
     type := type props;
     queryParams := queryParams props;
     fetcher := fetcher props;
     responseExtractor := responseExtractor props;
     normalizer := normalizer props |}.

(** One render of the component: the list it shows.  [useModels] returns
    what the state of the hook holds when the component renders; the
    effect of the hook runs after the render is committed, so what the
    effect of a render does to the state is read by the next render, not by
    this one.  [st] is that state: the initial one at the first render,
    then the one the effects so far have left. *)
Definition ModelSelector (models : list Types.AnyModel)
  (props : UseModelsProps Types.AnyModel) (sortOrder : SortOrder)
  (localFavorites : list string) (controlled showDeprecated : bool) (now : Z)
  (st : HookState Types.AnyModel) : list Types.AnyModel :=
  let '(Build_UseModelsResult fetchedModels _ _) :=
    result_of has_type (hook_props models props) st in
  allModels_memo models fetchedModels sortOrder localFavorites
    controlled showDeprecated now.

End Selector.

(* ===================================================================== *)
(** ** components/model-selector.tsx: groups, selection, favorites *)
(* ===================================================================== *)

(** [m.is_favorite] as a condition. *)
Definition is_marked (m : Types.AnyModel) : bool :=
  match Types.is_favorite m with Some b => b | None => false end.

(** The two groups of the list: [allModels.filter(m => m.is_favorite)] and
    [allModels.filter(m => !m.is_favorite)]. *)
Definition favorites (allModels : list Types.AnyModel) : list Types.AnyModel :=
  filter is_marked allModels.

Definition otherModels (allModels : list Types.AnyModel) : list Types.AnyModel :=
  filter (fun m => negb (is_marked m)) allModels.

(** [allModels.find(model => model.id === value)], [value] being a string
    or undefined. *)
Definition selectedModel (allModels : list Types.AnyModel) (value : option string)
  : option Types.AnyModel :=
  match value with
  | Some v => find (fun model => String.eqb (Types.id model) v) allModels
  | None => None
  end.

(** [handleModelSelect(id)]: the arguments [onChange] is called with (the
    model, or [None] for [null]) and the value [open] is set to. *)
Definition handleModelSelect (allModels : list Types.AnyModel) (id : string)
  : string * option Types.AnyModel * bool :=
  (id, find (fun m => String.eqb (Types.id m) id) allModels, false).

(** The updater of [handleToggleFavorite] without [onToggleFavorite]:
    [prev.includes(modelId) ? prev.filter(id => id !== modelId)
                            : [...prev, modelId]]. *)
Definition toggle_local_favorite (modelId : string) (prev : list string)
  : list string :=
  if existsb (String.eqb modelId) prev
  then filter (fun id => negb (String.eqb id modelId)) prev
  else (prev ++ [modelId])%list.

(* ===================================================================== *)
(** ** utils/helpers.ts ([cn]) and components/model-item.tsx (the class of a row) *)
(* ===================================================================== *)

(** An argument of [cn]: a string, or one of [undefined], [null] and
    [false], which [None] stands for. *)
Definition ClassValue : Type := option string.

(** [classes.filter(Boolean)] *)
Definition truthy_classes (classes : list ClassValue) : list string :=
  flat_map (fun c =>
    match c with
    | Some s => if String.eqb s EmptyString then [] else [s]
    | None => []
    end) classes.

(** Merge class names, filtering out falsy values. *)
Definition cn (classes : list ClassValue) : string :=
  join " " (truthy_classes classes).

(** [condition && 'name'] *)
Definition class_if (condition : bool) (name : string) : ClassValue :=
  if condition then Some name else None.

Section ModelItem.
Variable Date_parse : string -> option Z.

(** [model.deprecation ? isDeprecated(model.deprecation.date) : false] *)
Definition deprecatedPast (now : Z) (model : Types.AnyModel) : bool :=
  match Types.deprecation model with
  | Some d => isDeprecated Date_parse now (Types.date d)
  | None => false
  end.

(** [model.deprecation && !deprecatedPast] as a condition. *)
Definition deprecatingFuture (now : Z) (model : Types.AnyModel) : bool :=
  match Types.deprecation model with
  | Some _ => negb (deprecatedPast now model)
  | None => false
  end.

(** [cn(deprecatedPast && 'oms-deprecated',
       deprecatingFuture && 'oms-deprecating')] *)
Definition itemClass (now : Z) (model : Types.AnyModel) : string :=
  cn [ class_if (deprecatedPast now model) "oms-deprecated";
       class_if (deprecatingFuture now model) "oms-deprecating" ].

(** [className={itemClass || undefined}] *)
Definition ModelItem_className (now : Z) (model : Types.AnyModel)
  : option string :=
  let c := itemClass now model in
  if String.eqb c EmptyString then None else Some c.
End ModelItem.

(* ===================================================================== *)
(** ** Notions the statements below are phrased with *)
(* ===================================================================== *)

(** [p] is a prefix of [s], letters compared without regard to case. *)
Fixpoint starts_with_ci (p s : string) : bool :=
  match p, s with
  | EmptyString, _ => true
  | String _ _, EmptyString => false
  | String a p', String b s' => chr_matches true a b && starts_with_ci p' s'
  end.

(** The position after the characters of [p] read at the head of [s],
    letters compared without regard to case. *)
Fixpoint strip_prefix_ci (p : list ascii) (prev : option ascii) (s : list ascii)
  : option (option ascii * list ascii) :=
  match p with
  | [] => Some (prev, s)
  | a :: p' =>
      match s with
      | b :: s' =>
          if chr_matches true a b then strip_prefix_ci p' (Some b) s' else None
      | [] => None
      end
  end.

(** A position is a word boundary when exactly one of the character
    before it and the character at it is a word character. *)
Definition boundary (prev : option ascii) (s : list ascii) : bool :=
  xorb (is_word prev) (is_word (hd_error s)).

(** [w] stands at the position as a whole word, in any case. *)
Definition word_here (prev : option ascii) (s : list ascii) (w : string) : bool :=
  boundary prev s
  && match strip_prefix_ci (list_ascii_of_string w) prev s with
     | Some (last, rest) => boundary last rest
     | None => false
     end.

(** One of the words stands as a whole word at the position or later. *)
Fixpoint word_somewhere (words : list string) (prev : option ascii)
  (s : list ascii) : bool :=
  existsb (word_here prev s) words
  || match s with
     | [] => false
     | c :: s' => word_somewhere words (Some c) s'
     end.

(** The id contains one of the words as a whole word, in any case. *)
Definition contains_word (words : list string) (id : string) : bool :=
  word_somewhere words None (list_ascii_of_string id).

(** The character a position comes after, once [l] has been read. *)
Definition last_read (l : list ascii) (prev : option ascii) : option ascii :=
  fold_left (fun _ c => Some c) l prev.

(** [mid] is [w] up to the case of its letters. *)
Definition same_ci (w : string) (mid : list ascii) : Prop :=
  Forall2 (fun a b => chr_matches true a b = true) (list_ascii_of_string w) mid.

Definition matched {A : Type} (o : option A) : bool :=
  match o with Some _ => true | None => false end.

(** The scheme of an endpoint is http or https. *)
Definition has_http_scheme (url : string) : bool :=
  starts_with_ci "http://" url || starts_with_ci "https://" url.

(** A non-empty string of decimal digits, and the integer it writes. *)
Definition decimal_digits (s : string) : bool :=
  negb (String.eqb s EmptyString) && forallb is_digit (list_ascii_of_string s).

Definition decimal_value (s : string) : Z :=
  fold_left (fun acc c => acc * 10 + (code c - 48)) (list_ascii_of_string s) 0.

(** The places a text model's pricing may come from, in the order they
    are tried. *)
Inductive PricingSource : Type :=
| flat_pricing | metadata_pricing | cost_pricing | spec_pricing.

Definition pricing_source (raw : value) (src : PricingSource) : value :=
  match src with
  | flat_pricing => get "pricing" raw
  | metadata_pricing => get_opt "pricing" (get "metadata" raw)
  | cost_pricing => get "cost" raw
  | spec_pricing => get_opt "pricing" (get "model_spec" raw)
  end.

Definition pricing_order : list PricingSource :=
  [flat_pricing; metadata_pricing; cost_pricing; spec_pricing].

(** The first source of the order that satisfies [wins]. *)
Definition winning_source (wins : value -> bool) (raw : value)
  : option PricingSource :=
  find (fun src => wins (pricing_source raw src)) pricing_order.

(** A source read as the spec says it wins: a source is non-empty when it
    is an object with at least one property. *)
Definition non_empty (v : value) : bool :=
  match v with VObj (_ :: _) => true | _ => false end.

(** The property of a source a pricing field is read from: the flat
    sources hold per-token numbers under the field's own name (the
    metadata and cost objects for [prompt] and [completion] only), the
    model-spec source holds [{usd}] objects per million tokens under
    [input], [output], [cache_input] and [cache_write]. *)
Definition source_key (src : PricingSource) (field : string) : option string :=
  match src with
  | flat_pricing => Some field
  | metadata_pricing | cost_pricing =>
      if String.eqb field "prompt" || String.eqb field "completion"
      then Some field else None
  | spec_pricing =>
      Some (if String.eqb field "prompt" then "input"
            else if String.eqb field "completion" then "output"
            else field)
  end.

(** What one source alone gives for a pricing field. *)
Definition field_from (src : PricingSource) (source : value) (field : string)
  : Result value :=
  match source_key src field with
  | None => Ok VUndefined
  | Some key =>
      match src with
      | spec_pricing => per_million (get key source)
      | _ => number_at key source
      end
  end.

Definition pricing_fields : list string :=
  ["prompt"; "completion"; "cache_input"; "cache_write"].

(** The properties of an object read one after the other. *)
Fixpoint read_fields (read : string -> Result value) (fields : list string)
  : Result (list (string * value)) :=
  match fields with
  | [] => Ok []
  | field :: rest =>
      do v <- read field;
      do vs <- read_fields read rest;
      Ok ((field, v) :: vs)
  end.

(** A pricing field read from the one winning source. *)
Definition winning_field (wins : value -> bool) (raw : value) (field : string)
  : Result value :=
  match winning_source wins raw with
  | Some src => field_from src (pricing_source raw src) field
  | None => Ok VUndefined
  end.

(** The pricing object read from the one winning source. *)
Definition pricing_from (wins : value -> bool) (raw : value) : Result value :=
  do props <- read_fields (winning_field wins raw) pricing_fields;
  Ok (VObj props).

(** The last model of a list that carries an id. *)
Definition last_with_id (k : string) (items : list Types.AnyModel)
  : option Types.AnyModel :=
  find (fun m => String.eqb (Types.id m) k) (rev items).

(** [map.get(k)] *)
Fixpoint map_get (k : string) (map : list (string * Types.AnyModel))
  : option Types.AnyModel :=
  match map with
  | [] => None
  | (k', m) :: rest => if String.eqb k k' then Some m else map_get k rest
  end.

(** The record without one of its properties. *)
Definition without_prop (k : string) (raw : value) : value :=
  match raw with
  | VObj props => VObj (filter (fun kv => negb (String.eqb (fst kv) k)) props)
  | _ => raw
  end.

(** What one raw record contributes to the batch. *)
Definition kept {Model : Type} (has_id : Model -> bool)
  (normalize : value -> Result (option Model)) (raw : value) : list Model :=
  match normalize raw with
  | Ok (Some model) => if has_id model then [model] else []
  | _ => []
  end.

Definition warned {Model : Type}
  (normalize : value -> Result (option Model)) (raw : value) : list Event :=
  match normalize raw, warning_message raw with
  | Throw e, Ok message => [Warned message e]
  | _, _ => []
  end.

(** The warning of every record the normalizer refuses can be put
    together: the id it names converts to a string. *)
Definition reportable {Model : Type}
  (normalize : value -> Result (option Model)) (raws : list value) : Prop :=
  forall raw, In raw raws ->
    throws (normalize raw) = true -> throws (warning_message raw) = false.

(** Sample data for the closed statements. *)
Definition sample_model (i n : string) (c : Z) (d : option string)
  : Types.AnyModel :=
  {| Types.id := i; Types.name := n; Types.provider := "sample";
     Types.created := num c; Types.type := text;
     Types.description := None; Types.privacy := None;
     Types.offline := None; Types.betaModel := None;
     Types.is_favorite := None; Types.modelSource := None;
     Types.traits := None;
     Types.deprecation := option_map Types.Build_Deprecation d;
     Types.details := VUndefined |}.

(** An entry is filed under the id of its model. *)
Definition keyed (mp : list (string * Types.AnyModel)) : Prop :=
  forall k m, In (k, m) mp -> Types.id m = k.

(** The overlay entry by entry. *)
Definition overlay_entry (localFavorites : list string)
  (entry : string * Types.AnyModel) : string * Types.AnyModel :=
  if favorites_has localFavorites (Types.id (snd entry))
  then (fst entry, Types.with_favorite (snd entry))
  else entry.

(** A normalizer in the manner of the hook's tests: it refuses one id and
    copies the others with [String(raw.id)]. *)
Definition sample_normalizer (raw : value) : Result (option Types.AnyModel) :=
  do i <- ToString (get "id" raw);
  if String.eqb i "dall-e-3" then Throw "Cannot normalize this model"
  else Ok (Some (sample_model i i 0 None)).

(** A fetch function that answers every request with [{ data: batch }]. *)
Definition sample_fetcher (batch : list value) : FetchFn :=
  fun _ _ => Response true 200 (Ok (VObj [("data", VArr batch)])).

Definition sample_props (base : option string) (batch : list value)
  : UseModelsProps Types.AnyModel :=
  {| baseUrl := base; apiKey := None; type := None; queryParams := None;
     fetcher := sample_fetcher batch; responseExtractor := None;
     normalizer := sample_normalizer |}.

Definition record_with_id (i : string) : value := VObj [("id", VStr i)].

(** A Venice-style text record priced at 6 USD per million input tokens,
    and the model it normalizes to. *)
Definition venice_text_raw : value :=
  VObj [ ("id", VStr "llama-3.3-70b");
         ("is_favorite", VBool true);
         ("model_spec", VObj
           [ ("pricing", VObj [ ("input", VObj [ ("usd", VNum (num 6)) ]) ]) ]) ].

Definition venice_text_model : value :=
  Eval vm_compute in
    match normalizeTextModel (num 0) venice_text_raw with
    | Ok m => m
    | Throw _ => VUndefined
    end.

(** The same record with an empty flat [pricing] object next to it. *)
Definition empty_pricing_raw : value :=
  VObj [ ("id", VStr "llama-3.3-70b");
         ("pricing", VObj []);
         ("model_spec", VObj
           [ ("pricing", VObj [ ("input", VObj [ ("usd", VNum (num 6)) ]) ]) ]) ].

Definition empty_pricing_model : value :=
  Eval vm_compute in
    match normalizeTextModel (num 0) empty_pricing_raw with
    | Ok m => m
    | Throw _ => VUndefined
    end.

(** A record with a [type] the dispatcher does not know. *)
Definition banana_raw : value :=
  VObj [ ("id", VStr "gpt-4o"); ("type", VStr "banana") ].

(** 2025-01-15T00:00:00Z as an evaluation instant. *)
Definition sample_now : Z := 1736899200000.

Definition sample_endpoint : string := "https://api.example.com/v1".

(** Three records of which the normalizer refuses one, and three of which
    it refuses one and gives another an empty id. *)
Definition sample_batch : list value :=
  [record_with_id "gpt-4"; record_with_id "dall-e-3"; record_with_id "wan-video"].

Definition empty_id_batch : list value :=
  [record_with_id "gpt-4"; record_with_id "dall-e-3"; record_with_id EmptyString].

Definition idle_state : HookState Types.AnyModel :=
  {| allModels := []; loading := true; error := None |}.

(** Static models: [model_A] is current, [model_B] is newer and was
    deprecated in 2020, [model_C] is deprecated at the very instant
    [sample_now], [model_D] carries a date nothing can parse. *)
Definition model_A : Types.AnyModel := sample_model "a" "Alpha" 100 None.
Definition model_B : Types.AnyModel :=
  sample_model "b" "Beta" 200 (Some "2020-01-01").
Definition model_C : Types.AnyModel :=
  sample_model "c" "Gamma" 300 (Some "2025-01-15").
Definition model_D : Types.AnyModel :=
  sample_model "d" "Delta" 400 (Some "not-a-date").

(** A fetched model with the id of [model_A] and another name. *)
Definition fetched_A : Types.AnyModel := sample_model "a" "Fetched" 1 None.

(** A component mounted with an endpoint and no static models, the
    endpoint answering [{ data: [{ id: "z" }] }]: the props, the model the
    record normalizes to, and the state the hook is in once the request of
    the first render has settled. *)
Definition fetching_props : UseModelsProps Types.AnyModel :=
  sample_props (Some sample_endpoint) [record_with_id "z"].

Definition model_Z : Types.AnyModel := sample_model "z" "z" 0 None.

Definition fetched_state : HookState Types.AnyModel :=
  fst (effect has_id false false (hook_props [] fetching_props)
         (initial_state (hook_props [] fetching_props))).

Definition settled_empty : HookState Types.AnyModel :=
  {| allModels := []; loading := false; error := None |}.

(** A record whose id has no primitive value, among two that normalize. *)
Definition unreportable_batch : list value :=
  [ record_with_id "gpt-4"; record_with_id "wan-video";
    VObj [("id", VObj [("toString", VNum (num 1))])] ].

(** The fixtures of the test suites.  [js_literal "0.04"] is the number a
    decimal literal of a test denotes; [field k r] reads property [k] of
    what a normalizer returned. *)
Definition js_literal (s : string) : value := VNum (StringToNumber s).

Definition field (k : string) (r : Result value) : Result value :=
  do m <- r; Ok (get k m).

Definition mock_api_data : list value :=
  [ VObj [ ("id", VStr "gpt-4"); ("type", VStr "text");
           ("model_spec", VObj
             [ ("name", VStr "GPT-4");
               ("pricing", VObj [ ("input", VObj [("usd", VNum (num 30))]);
                                  ("output", VObj [("usd", VNum (num 60))]) ]);
               ("availableContextTokens", VNum (num 128000)) ]) ];
    VObj [ ("id", VStr "dall-e-3"); ("type", VStr "image");
           ("model_spec", VObj
             [ ("name", VStr "DALL-E 3");
               ("pricing", VObj
                 [ ("generation", VObj [("usd", js_literal "0.04")]) ]) ]) ];
    VObj [ ("id", VStr "wan-video"); ("type", VStr "video");
           ("model_spec", VObj
             [ ("name", VStr "Wan Video");
               ("constraints", VObj
                 [ ("durations", VArr [VStr "5"; VStr "10"]) ]) ]) ] ].

(** [model.id] truthy and [m.type === type] on the models the default
    normalizer builds. *)
Definition value_has_id (m : value) : bool := truthy (get "id" m).

Definition value_has_type (t : ModelType) (m : value) : bool :=
  match get "type" m with
  | VStr s => String.eqb s (ModelType_to_string t)
  | _ => false
  end.

(** The hook with the default extractor and normalizer, and a fetch
    function that answers every request the same way. *)
Definition default_props (base key : option string) (t : option ModelType)
  (params : option (list (string * string))) (answer : FetchOutcome)
  : UseModelsProps value :=
  {| baseUrl := base; apiKey := key; type := t; queryParams := params;
     fetcher := fun _ _ => answer; responseExtractor := None;
     normalizer := fun raw =>
       do m <- defaultModelNormalizer (num 0) raw; Ok (Some m) |}.

Definition ok_response (data : list value) : FetchOutcome :=
  Response true 200 (Ok (VObj [("data", VArr data)])).

Definition default_hook (props : UseModelsProps value)
  : UseModelsResult value * list Event :=
  useModels value_has_id value_has_type false props.

(** 2025-06-15T12:00:00Z, the clock of the [isDeprecated] tests. *)
Definition test_clock : Z := 1749988800000.

(** Two sequences of code units that differ at most in the case of their
    ASCII letters. *)
Fixpoint same_letters (a b : list ascii) : bool :=
  match a, b with
  | [], [] => true
  | x :: a', y :: b' => chr_matches true x y && same_letters a' b'
  | _, _ => false
  end.

Definition same_letter_before (p q : option ascii) : bool :=
  match p, q with
  | None, None => true
  | Some x, Some y => chr_matches true x y
  | _, _ => false
  end.

(** The names of the properties [extractBaseFields] returns. *)
Definition base_keys : list string :=
  [ "id"; "name"; "provider"; "created"; "description"; "betaModel";
    "privacy"; "offline"; "modelSource"; "traits"; "deprecation";
    "is_favorite" ].

Definition missing_id : string := "Model missing required id field".


(** The props with another [type]. *)
Definition with_type {Model : Type} (t : option ModelType)
  (props : UseModelsProps Model) : UseModelsProps Model :=
  {| baseUrl := baseUrl props; apiKey := apiKey props; type := t;
     queryParams := queryParams props; fetcher := fetcher props;
     responseExtractor := responseExtractor props;
     normalizer := normalizer props |}.

(** A non-empty run of slashes. *)
Definition slashes (s : list ascii) : bool :=
  match s with
  | [] => false
  | _ :: _ => forallb (Ascii.eqb "/") s
  end.

(** The input without the slashes it ends with. *)
Fixpoint without_trailing_slashes (s : list ascii) : list ascii :=
  match s with
  | [] => []
  | c :: rest => if slashes s then [] else c :: without_trailing_slashes rest
  end.

Definition cleanBase (base : string) : string :=
  string_of_list_ascii (without_trailing_slashes (list_ascii_of_string base)).

(** [qs ? `?${qs}` : ''] *)
Definition query_suffix {Model : Type} (props : UseModelsProps Model) : string :=
  let qs := URLSearchParams_toString
              (match queryParams props with Some p => p | None => [] end) in
  if String.eqb qs EmptyString then EmptyString else "?" ++ qs.


(** The state a failed request leaves, and its trace. *)
Definition failed {Model : Type} (base : string) (props : UseModelsProps Model)
  (message : string) : HookState Model * list Event :=
  ({| allModels := []; loading := false; error := Some message |},
   [Fetched (request_url base props) (request_headers props)]).


(** The entries of the map after the merge and the overlay of the local
    favorites, before the list is filtered and sorted. *)
Definition merged_entries (models fetchedModels : list Types.AnyModel)
  (localFavorites : list string) (controlled : bool)
  : list (string * Types.AnyModel) :=
  if negb controlled
  then overlay_favorites localFavorites (merge fetchedModels models)
  else merge fetchedModels models.

Section Ordering.
Variable A : Type.
Variable compare : A -> A -> number.

(** [a] may stand before [b]: the comparator does not put it behind,
    [compare(a, b)] is not positive. *)
Definition not_after (a b : A) : bool := negb (num_pos (compare a b)).

(** The comparator is consistent on the items: of two items one may stand
    before the other, and "may stand before" is transitive. *)
Definition consistent_on (items : list A) : bool :=
  forallb (fun a =>
    forallb (fun b =>
      (not_after a b || not_after b a)
      && forallb (fun c =>
           implb (not_after a b && not_after b c) (not_after a c)) items)
      items)
    items.

(** Every item may stand before each of those behind it. *)
Definition in_order (items : list A) : Prop :=
  StronglySorted (fun a b => not_after a b = true) items.
End Ordering.

(** The comparator of a sort order. *)
Definition comparator (localeCompare : string -> string -> number)
  (sortOrder : SortOrder) : Types.AnyModel -> Types.AnyModel -> number :=
  match sortOrder with
  | sort_created => by_created
  | sort_name => by_name localeCompare
  end.

(** A date without a time: four digits, two digits and two digits, with
    hyphens between them. *)
Definition date_only_shape (s : string) : bool :=
  match list_ascii_of_string s with
  | [y1; y2; y3; y4; h1; m1; m2; h2; d1; d2] =>
      is_digit y1 && is_digit y2 && is_digit y3 && is_digit y4
      && Ascii.eqb "-" h1 && is_digit m1 && is_digit m2
      && Ascii.eqb "-" h2 && is_digit d1 && is_digit d2
  | _ => false
  end.

(** The string [isDeprecated] hands to the date parser. *)
Definition utc_form (dateStr : string) : string :=
  if date_only_shape dateStr then dateStr ++ "T00:00:00Z" else dateStr.

(** A date parser that reads a date without a time as midnight UTC of that
    day, as ECMAScript has [Date.parse] do. *)
Definition date_only_is_utc (Date_parse : string -> option Z) : Prop :=
  forall s, date_only_shape s = true ->
            Date_parse (s ++ "T00:00:00Z") = Date_parse s.

(* ===================================================================== *)
(** * Properties *)
(* ===================================================================== *)

(** ** Numbers *)

Lemma shr_1_nonneg mrs : 0 <= shr_m mrs -> 0 <= shr_m (shr_1 mrs).
Proof.
  destruct mrs as [m r s]; simpl.
  destruct m as [|p|p]; simpl; intros H; try lia;
    destruct p; simpl; lia.
Qed.

Lemma iter_pos_shr_1_nonneg p mrs :
  0 <= shr_m mrs -> 0 <= shr_m (iter_pos shr_1 p mrs).
Proof.
  revert mrs; induction p as [p IH|p IH|]; intros mrs H; simpl.
  - apply IH, IH, shr_1_nonneg, H.
  - apply IH, IH, H.
  - apply shr_1_nonneg, H.
Qed.

Lemma shr_nonneg mrs e n : 0 <= shr_m mrs -> 0 <= shr_m (fst (shr mrs e n)).
Proof.
  intros H; destruct n; simpl; trivial.
  apply iter_pos_shr_1_nonneg, H.
Qed.

Lemma shr_record_of_loc_m m l : shr_m (shr_record_of_loc m l) = m.
Proof. destruct l as [|[]]; reflexivity. Qed.

Lemma shr_fexp_nonneg m e l :
  0 <= m -> 0 <= shr_m (fst (shr_fexp prec emax m e l)).
Proof.
  intros H; unfold shr_fexp.
  apply shr_nonneg. rewrite shr_record_of_loc_m. exact H.
Qed.

Lemma round_nearest_even_nonneg m l : 0 <= m -> 0 <= round_nearest_even m l.
Proof.
  intros H; destruct l as [|[]]; simpl; try lia.
  destruct (Z.even m); lia.
Qed.

(** Rounding a non-negative mantissa never gives NaN. *)
Lemma binary_round_aux_not_nan sx mx ex lx :
  0 <= mx -> Number_isNaN (binary_round_aux prec emax sx mx ex lx) = false.
Proof.
  intros H; unfold binary_round_aux.
  pose proof (shr_fexp_nonneg ex lx H) as H1.
  destruct (shr_fexp prec emax mx ex lx) as [mrs' e'].
  simpl in H1.
  pose proof (round_nearest_even_nonneg (loc_of_shr_record mrs') H1) as H2.
  pose proof (shr_fexp_nonneg e' loc_Exact H2) as H3.
  destruct (shr_fexp prec emax _ e' loc_Exact) as [mrs'' e''].
  simpl in H3.
  destruct (shr_m mrs'') as [|p|p]; try reflexivity; try lia.
  destruct (e'' <=? emax - prec); reflexivity.
Qed.

Lemma num_not_nan z : Number_isNaN (num z) = false.
Proof.
  unfold num, binary_normalize.
  destruct z as [|p|p]; try reflexivity; unfold binary_round;
    destruct (shl_align _ _ _) as [mz ez];
    apply binary_round_aux_not_nan; lia.
Qed.

(** ** StringToNumber on the decimal integers *)

Lemma is_digit_range c : is_digit c = true -> 48 <= code c <= 57.
Proof. unfold is_digit; intros H; apply andb_true_iff in H; lia. Qed.

Lemma digit_not_white_space c : is_digit c = true -> is_white_space c = false.
Proof.
  intros H; apply is_digit_range in H; unfold is_white_space.
  repeat (apply orb_false_iff; split); try lia.
  all: apply andb_false_iff; right; lia.
Qed.

Lemma digit_is_not_char n c :
  is_digit c = true -> n < 48 \/ 57 < n -> is_char n c = false.
Proof. intros H Hn; apply is_digit_range in H; unfold is_char; lia. Qed.

Lemma digit_of_decimal c :
  is_digit c = true -> digit_of 10 c = Some (code c - 48).
Proof.
  intros H; pose proof (is_digit_range _ H) as R; unfold digit_of.
  replace ((48 <=? code c) && (code c <=? 57)) with true
    by (symmetry; apply andb_true_iff; lia).
  replace (code c - 48 <? 10) with true by (symmetry; lia).
  reflexivity.
Qed.

Lemma drop_white_space_digit c l :
  is_digit c = true -> drop_white_space (c :: l) = c :: l.
Proof. intros H; simpl; now rewrite digit_not_white_space. Qed.

Lemma trim_digits l : forallb is_digit l = true -> trim l = l.
Proof.
  intros H; unfold trim.
  assert (D : forall k, forallb is_digit k = true -> drop_white_space k = k).
  { intros [|c k] Hk; [reflexivity|].
    simpl in Hk; apply andb_true_iff in Hk.
    now apply drop_white_space_digit. }
  rewrite (D l H), D, rev_involutive; [reflexivity|].
  rewrite forallb_forall in *; intros x Hx; apply H, in_rev, Hx.
Qed.

Lemma span_digits_all l : forall acc count,
  forallb is_digit l = true ->
  span_digits 10 acc count l =
    (fold_left (fun a c => a * 10 + (code c - 48)) l acc,
     count + Z.of_nat (List.length l), []).
Proof.
  induction l as [|c l IH]; intros acc count H; simpl.
  - now rewrite Z.add_0_r.
  - simpl in H; apply andb_true_iff in H; destruct H as [Hc Hl].
    rewrite (digit_of_decimal _ Hc), IH by exact Hl.
    f_equal; f_equal; lia.
Qed.

Lemma fold_digits_nonneg l : forall acc,
  forallb is_digit l = true -> 0 <= acc ->
  0 <= fold_left (fun a c => a * 10 + (code c - 48)) l acc.
Proof.
  induction l as [|c l IH]; intros acc H Hacc; simpl; [exact Hacc|].
  simpl in H; apply andb_true_iff in H; destruct H as [Hc Hl].
  apply IH; [exact Hl|]. apply is_digit_range in Hc; lia.
Qed.

Lemma round_decimal_integer v : 0 <= v -> round_decimal false v 0 = num v.
Proof.
  intros H; unfold round_decimal.
  destruct (Z.leb_spec v 0) as [L|L].
  - assert (v = 0) by lia; subst; reflexivity.
  - simpl (0 <=? 0). cbv iota. now rewrite Z.pow_0_r, Z.mul_1_r.
Qed.

Lemma string_of_list_ascii_cons c l :
  string_of_list_ascii (c :: l) = String c (string_of_list_ascii l).
Proof. reflexivity. Qed.

Lemma unsigned_literal_digits c l :
  forallb is_digit (c :: l) = true ->
  unsigned_literal false (c :: l)
  = num (fold_left (fun a x => a * 10 + (code x - 48)) (c :: l) 0).
Proof.
  intros H; unfold unsigned_literal.
  assert (Hc : is_digit c = true) by (simpl in H; now apply andb_true_iff in H).
  assert (NI : list_ascii_eqb (c :: l) str_Infinity = false).
  { unfold list_ascii_eqb, str_Infinity.
    rewrite string_of_list_ascii_cons. simpl.
    destruct (Ascii.eqb_spec c "I") as [->|]; [discriminate Hc | reflexivity]. }
  rewrite NI; unfold unsigned_decimal.
  rewrite span_digits_all by exact H.
  replace (0 + Z.of_nat (List.length (c :: l)) =? 0) with false
    by (symmetry; apply Z.eqb_neq; cbn [List.length];
        rewrite Nat2Z.inj_succ; lia).
  apply round_decimal_integer, fold_digits_nonneg; [exact H | lia].
Qed.

Lemma StringToNumber_decimal s :
  decimal_digits s = true -> StringToNumber s = num (decimal_value s).
Proof.
  unfold decimal_digits, decimal_value, StringToNumber; intros H.
  apply andb_true_iff in H; destruct H as [Hne Hd].
  rewrite trim_digits by exact Hd.
  destruct (list_ascii_of_string s) as [|c l] eqn:E.
  - destruct s; [discriminate Hne | discriminate E].
  - assert (Hc : is_digit c = true) by (simpl in Hd; now apply andb_true_iff in Hd).
    rewrite !(digit_is_not_char _ Hc) by lia.
    assert (R : radix_prefix (c :: l) = None).
    { unfold radix_prefix. destruct l as [|x l]; [reflexivity|].
      assert (Hx : is_digit x = true).
      { simpl in Hd. apply andb_true_iff in Hd; destruct Hd as [_ Hd].
        now apply andb_true_iff in Hd. }
      rewrite !(digit_is_not_char _ Hx) by lia.
      simpl. now destruct (is_char 48 c). }
    rewrite R. now apply unsigned_literal_digits.
Qed.

(** ** C8: [toNum] *)

Lemma Number_isNaN_true n : Number_isNaN n = true <-> n = NaN.
Proof. destruct n; simpl; split; intros H; try discriminate; reflexivity. Qed.

Lemma is_string_true lit v : is_string lit v = true <-> v = VStr lit.
Proof.
  destruct v; simpl; split; intros H; try discriminate.
  - apply String.eqb_eq in H; now subst.
  - injection H as ->; apply String.eqb_refl.
Qed.

Lemma bind_Ok {A B : Type} (r : Result A) (k : A -> Result B) (b : B) :
  bind r k = Ok b -> exists a, r = Ok a /\ k a = Ok b.
Proof. destruct r as [a|e]; simpl; intros H; [eauto | discriminate]. Qed.

Lemma ToString_primitive v : is_primitive v = true -> throws (ToString v) = false.
Proof. destruct v; try discriminate; reflexivity. Qed.

Lemma ToNumber_Throw v e : ToNumber v = Throw e <-> ToString v = Throw e.
Proof.
  destruct v; try (simpl; split; intros H; discriminate H);
    unfold ToNumber;
    match goal with |- context [ToString ?x] => destruct (ToString x) end;
    simpl; split; intros H; try discriminate H; now injection H as ->.
Qed.

Lemma toNum_Throw v e : toNum v = Throw e <-> ToString v = Throw e.
Proof.
  rewrite <- ToNumber_Throw. unfold toNum.
  destruct (nullish v || is_string EmptyString v) eqn:N.
  - split; intros H; [discriminate H|].
    apply orb_true_iff in N. destruct N as [N|N].
    + destruct v; discriminate.
    + apply is_string_true in N; subst; discriminate.
  - destruct (ToNumber v) as [n|e']; simpl;
      split; intros H; try discriminate H; now injection H as ->.
Qed.

Lemma toNum_Some_inv v n :
  toNum v = Ok (Some n) -> ToNumber v = Ok n /\ Number_isNaN n = false.
Proof.
  unfold toNum; destruct (nullish v || is_string EmptyString v); [discriminate|].
  intros H. apply bind_Ok in H. destruct H as (x & E & H).
  destruct (Number_isNaN x) eqn:I; [discriminate|].
  injection H as <-. now split.
Qed.

Lemma toNum_None_iff v :
  toNum v = Ok None
  <-> v = VNull \/ v = VUndefined \/ v = VStr EmptyString \/ ToNumber v = Ok NaN.
Proof.
  unfold toNum; split.
  - destruct (nullish v) eqn:N; simpl.
    + destruct v; try discriminate N; auto.
    + destruct (is_string EmptyString v) eqn:S.
      * apply is_string_true in S; auto.
      * intros H. apply bind_Ok in H. destruct H as (x & E & H).
        destruct (Number_isNaN x) eqn:I; [|discriminate].
        apply Number_isNaN_true in I. subst x. auto.
  - intros [->|[->|[->|H]]]; try reflexivity.
    destruct (nullish v || is_string EmptyString v); [reflexivity|].
    now rewrite H.
Qed.

(** C8 (as amended).  [toNum] throws only where the conversion of its
    argument to a primitive does, which no primitive value makes it do.
    It is absent exactly for [null], [undefined], the empty string and the
    values whose numeric coercion is NaN; what it returns is the numeric
    coercion of its argument, never NaN; a number other than NaN is
    returned as it is, infinite ones included, and a string of decimal
    digits as the integer it writes. *)
Theorem toNum_absent_only_for_NaN :
  (forall v e, toNum v = Throw e <-> ToString v = Throw e)
  /\ (forall v, is_primitive v = true -> throws (toNum v) = false)
  /\ (forall v, toNum v = Ok None
        <-> v = VNull \/ v = VUndefined \/ v = VStr EmptyString
            \/ ToNumber v = Ok NaN)
  /\ (forall v n, toNum v = Ok (Some n) ->
        ToNumber v = Ok n /\ Number_isNaN n = false)
  /\ (forall n, Number_isNaN n = false -> toNum (VNum n) = Ok (Some n))
  /\ (forall s, decimal_digits s = true ->
        toNum (VStr s) = Ok (Some (num (decimal_value s)))).
Proof.
  split; [exact toNum_Throw|]. split; [|split; [exact toNum_None_iff|]].
  - intros v P. pose proof (ToString_primitive v P) as T.
    destruct (toNum v) as [r|e] eqn:E; [reflexivity|].
    apply toNum_Throw in E. now rewrite E in T.
  - split; [exact toNum_Some_inv|]. split.
    + intros n H; unfold toNum; simpl. now rewrite H.
    + intros s H. unfold toNum.
      assert (E : is_string EmptyString (VStr s) = false).
      { pose proof H as N. unfold decimal_digits in N.
        apply andb_true_iff in N; destruct N as [N _].
        simpl. now apply negb_true_iff in N. }
      simpl nullish. rewrite E. simpl.
      rewrite (StringToNumber_decimal _ H), num_not_nan. reflexivity.
Qed.

(** ** Base fields *)

(** The object [extractBaseFields] returns: twelve properties, the last
    of them [is_favorite: false]. *)
Lemma extractBaseFields_Ok now raw base :
  extractBaseFields now raw = Ok base ->
  exists v_id v_name v_provider v_created v_description v_beta v_privacy
         v_offline v_source v_traits v_deprecation,
    base = VObj
      [ ("id", v_id); ("name", v_name); ("provider", v_provider);
        ("created", v_created); ("description", v_description);
        ("betaModel", v_beta); ("privacy", v_privacy);
        ("offline", v_offline); ("modelSource", v_source);
        ("traits", v_traits); ("deprecation", v_deprecation);
        ("is_favorite", VBool false) ]
    /\ truthy v_id = true.
Proof.
  unfold extractBaseFields; intros H.
  destruct (truthy (js_or (js_or (get "id" raw) (get "model_id" raw))
                      (VStr EmptyString))) eqn:T; simpl in H; [|discriminate].
  apply bind_Ok in H; destruct H as (provider & _ & H).
  apply bind_Ok in H; destruct H as (created & _ & H).
  injection H as <-. do 11 eexists. split; [reflexivity | exact T].
Qed.

Lemma lookup_app_found k props extra v :
  lookup k props = Some v -> lookup k (props ++ extra) = Some v.
Proof.
  induction props as [|[k' v'] props IH]; simpl; [discriminate|].
  destruct (String.eqb k k'); auto.
Qed.

Ltac distinct_keys :=
  repeat (constructor; [simpl; intuition discriminate|]); constructor.

Ltac next_bind H :=
  let x := fresh "x" in
  let E := fresh "E" in
  apply bind_Ok in H; destruct H as (x & E & H).

Ltac normalizer_output H :=
  apply bind_Ok in H; destruct H as (base & Hbase & H);
  apply extractBaseFields_Ok in Hbase;
  destruct Hbase as (v1 & v2 & v3 & v4 & v5 & v6 & v7 & v8 & v9 & v10 & v11
                     & -> & Hid);
  repeat next_bind H;
  try match goal with
      | p : (value * value * value * value)%type |- _ =>
          destruct p as [[[? ?] ?] ?]
      end;
  injection H as <-.

(** ** C9: [is_favorite] *)

(** C9.  Whatever the raw record holds, a model any of the eight
    per-variant normalizers returns has [is_favorite] false; the property
    occurs once in the object, next to the variant's own tag. *)
Theorem normalizers_set_is_favorite_false :
  forall t normalize, In (t, normalize) variant_normalizers ->
  forall now raw m, normalize now raw = Ok m ->
    get "is_favorite" m = VBool false
    /\ get "type" m = VStr (ModelType_to_string t)
    /\ exists props, m = VObj props /\ NoDup (map fst props).
Proof.
  intros t normalize Hin now raw m H.
  simpl in Hin.
  destruct Hin as [Hin|[Hin|[Hin|[Hin|[Hin|[Hin|[Hin|[Hin|[]]]]]]]]];
    injection Hin as <- <-;
    [ unfold normalizeTextModel in H | unfold normalizeImageModel in H
    | unfold normalizeVideoModel in H | unfold normalizeInpaintModel in H
    | unfold normalizeEmbeddingModel in H | unfold normalizeTtsModel in H
    | unfold normalizeAsrModel in H | unfold normalizeUpscaleModel in H ].
  - normalizer_output H. split; [reflexivity|]. split; [reflexivity|].
    eexists; split; [reflexivity|]. simpl. distinct_keys.
  - normalizer_output H. split; [reflexivity|]. split; [reflexivity|].
    eexists; split; [reflexivity|]. simpl. distinct_keys.
  - normalizer_output H. split; [reflexivity|]. split; [reflexivity|].
    eexists; split; [reflexivity|]. simpl. distinct_keys.
  - normalizer_output H. split; [reflexivity|]. split; [reflexivity|].
    eexists; split; [reflexivity|]. simpl. distinct_keys.
  - normalizer_output H. split; [reflexivity|]. split; [reflexivity|].
    eexists; split; [reflexivity|]. simpl. distinct_keys.
  - normalizer_output H. split; [reflexivity|]. split; [reflexivity|].
    eexists; split; [reflexivity|]. simpl. distinct_keys.
  - normalizer_output H. split; [reflexivity|]. split; [reflexivity|].
    eexists; split; [reflexivity|]. simpl. distinct_keys.
  - normalizer_output H. split; [reflexivity|]. split; [reflexivity|].
    eexists; split; [reflexivity|]. simpl. distinct_keys.
Qed.

(** ** C2: pricing of a text model *)

Lemma per_million_usd x usd :
  get "usd" x = VNum usd ->
  per_million x = Ok (VNum (num_div usd (num 1000000))).
Proof.
  unfold per_million, get_opt.
  destruct x; try discriminate. simpl nullish; cbv iota.
  intros ->; reflexivity.
Qed.

Lemma field_from_absent src source field key :
  source_key src field = Some key ->
  get key source = VUndefined ->
  field_from src source field = Ok VUndefined.
Proof.
  unfold field_from, number_at; intros -> ->. destruct src; reflexivity.
Qed.

Ltac use_reads :=
  repeat match goal with
         | Hx : ?l = Ok _ |- context [?l] => rewrite Hx; simpl bind
         end.

Lemma normalizeTextModel_pricing now raw m :
  normalizeTextModel now raw = Ok m ->
  pricing_from truthy raw = Ok (get "pricing" m).
Proof.
  unfold normalizeTextModel; intros H.
  apply bind_Ok in H; destruct H as (base & Hbase & H).
  apply extractBaseFields_Ok in Hbase.
  destruct Hbase as (v1 & v2 & v3 & v4 & v5 & v6 & v7 & v8 & v9 & v10 & v11
                     & -> & Hid).
  apply bind_Ok in H; destruct H as (context_length & _ & H).
  apply bind_Ok in H; destruct H as ([[[p1 p2] p3] p4] & P & H).
  injection H as <-.
  unfold pricing_from, winning_field, winning_source, pricing_order,
    pricing_fields. simpl find. unfold pricing_source.
  destruct (truthy (get "pricing" raw)) eqn:T1;
    [|destruct (truthy (get_opt "pricing" (get "metadata" raw))) eqn:T2;
      [|destruct (truthy (get "cost" raw)) eqn:T3;
        [|destruct (truthy (get_opt "pricing" (get "model_spec" raw))) eqn:T4]]];
    repeat next_bind P; injection P as <- <- <- <-;
    unfold read_fields, field_from; simpl source_key; cbv iota;
    use_reads; reflexivity.
Qed.

Lemma pricing_from_field wins raw p field :
  pricing_from wins raw = Ok p ->
  In field pricing_fields ->
  winning_field wins raw field = Ok (get field p).
Proof.
  unfold pricing_from, pricing_fields, read_fields; intros H.
  repeat match goal with
         | Hx : bind _ _ = Ok _ |- _ =>
             let y := fresh "y" in
             let Q := fresh "Q" in
             apply bind_Ok in Hx; destruct Hx as (y & Q & Hx)
         | Hx : Ok _ = Ok _ |- _ => injection Hx as <-
         end.
  simpl In. intros [<-|[<-|[<-|[<-|[]]]]];
    match goal with Hx : ?l = Ok _ |- ?l = _ => rewrite Hx; reflexivity end.
Qed.

(** C2 (as amended).  The pricing of a text model is read from one source
    only: the first of [raw.pricing], [raw.metadata.pricing], [raw.cost],
    [raw.model_spec.pricing] that is present (truthy), be it an empty
    object.  A field whose property the winning source lacks is undefined,
    every field is undefined when no source is present, and under the
    model-spec source a numeric [usd] gives [usd / 1_000_000]. *)
Theorem text_pricing_first_present_source :
  forall now raw m, normalizeTextModel now raw = Ok m ->
    pricing_from truthy raw = Ok (get "pricing" m)
    /\ (forall field, In field pricing_fields ->
          winning_field truthy raw field = Ok (get field (get "pricing" m)))
    /\ (forall src field key,
          winning_source truthy raw = Some src ->
          In field pricing_fields ->
          source_key src field = Some key ->
          get key (pricing_source raw src) = VUndefined ->
          get field (get "pricing" m) = VUndefined)
    /\ (winning_source truthy raw = None ->
        forall field, In field pricing_fields ->
          get field (get "pricing" m) = VUndefined)
    /\ (forall usd,
          winning_source truthy raw = Some spec_pricing ->
          get "usd" (get "input" (pricing_source raw spec_pricing)) = VNum usd ->
          get "prompt" (get "pricing" m) = VNum (num_div usd (num 1000000))).
Proof.
  intros now raw m H.
  pose proof (normalizeTextModel_pricing _ _ H) as P.
  pose proof (fun field => @pricing_from_field _ _ _ field P) as F.
  split; [exact P|]. split; [exact F|]. split; [|split].
  - intros src field key W I K A.
    specialize (F field I). unfold winning_field in F. rewrite W in F.
    rewrite (@field_from_absent _ _ _ _ K A) in F. now injection F as <-.
  - intros W field I.
    specialize (F field I). unfold winning_field in F. rewrite W in F.
    now injection F as <-.
  - intros usd W U.
    assert (I : In "prompt" pricing_fields) by (simpl; auto).
    specialize (F "prompt" I). unfold winning_field in F. rewrite W in F.
    change (field_from spec_pricing (pricing_source raw spec_pricing) "prompt")
      with (per_million (get "input" (pricing_source raw spec_pricing))) in F.
    rewrite (@per_million_usd _ _ U) in F. now injection F as <-.
Qed.

(** ** The patterns of the type inference *)

Lemma rmatch_lit_chars cs : forall prev s k,
  rmatch true (lit_chars cs) prev s k
  = match strip_prefix_ci cs prev s with
    | Some (p', s') => k p' s'
    | None => None
    end.
Proof.
  induction cs as [|c cs IH]; intros prev s k; [reflexivity|].
  destruct cs as [|c2 cs].
  - cbn [rmatch lit_chars strip_prefix_ci]. destruct s as [|b s]; [reflexivity|].
    now destruct (chr_matches true c b).
  - change (lit_chars (c :: c2 :: cs))
      with (Seq (Chr c) (lit_chars (c2 :: cs))).
    cbn [rmatch strip_prefix_ci]. destruct s as [|b s]; [reflexivity|].
    destruct (chr_matches true c b); [apply IH | reflexivity].
Qed.

Lemma rmatch_alts words : forall prev s k,
  words <> [] ->
  matched (rmatch true (alts words) prev s k)
  = existsb (fun w =>
       matched match strip_prefix_ci (list_ascii_of_string w) prev s with
               | Some (p', s') => k p' s'
               | None => None
               end) words.
Proof.
  induction words as [|w words IH]; intros prev s k N; [congruence|].
  destruct words as [|w2 words].
  - simpl. unfold lit. rewrite rmatch_lit_chars. now rewrite orb_false_r.
  - change (alts (w :: w2 :: words)) with (Alt (lit w) (alts (w2 :: words))).
    cbn [rmatch existsb]. unfold lit at 1. rewrite rmatch_lit_chars.
    destruct (match strip_prefix_ci (list_ascii_of_string w) prev s with
              | Some (p', s') => k p' s'
              | None => None
              end); [reflexivity|].
    simpl matched at 2. rewrite orb_false_l. apply IH. discriminate.
Qed.

Lemma existsb_same (A : Type) (f g : A -> bool) l :
  (forall x, f x = g x) -> existsb f l = existsb g l.
Proof.
  intros E; induction l as [|x l IH]; simpl; [reflexivity|].
  now rewrite E, IH.
Qed.

Lemma existsb_and (A : Type) (b : bool) (f : A -> bool) l :
  existsb (fun x => b && f x) l = b && existsb f l.
Proof.
  induction l as [|x l IH]; simpl; [now rewrite andb_false_r|].
  rewrite IH. now destruct b, (f x).
Qed.

Lemma whole_word_here words prev s :
  words <> [] ->
  matched (rmatch true (whole_word words) prev s (fun _ rest => Some rest))
  = existsb (word_here prev s) words.
Proof.
  intros N. unfold whole_word. cbn [rmatch].
  fold (boundary prev s). unfold word_here. rewrite existsb_and.
  destruct (boundary prev s); [|reflexivity]. rewrite andb_true_l.
  rewrite rmatch_alts by exact N.
  apply existsb_same. intros w.
  destruct (strip_prefix_ci (list_ascii_of_string w) prev s) as [[last rest]|];
    [|reflexivity].
  cbn [rmatch]. fold (boundary last rest). now destruct (boundary last rest).
Qed.

Lemma matched_search r : forall s prev,
  matched (search true r prev s)
  = matched (rmatch true r prev s (fun _ rest => Some rest))
    || match s with
       | [] => false
       | c :: s' => matched (search true r (Some c) s')
       end.
Proof.
  intros s prev. destruct s as [|c s]; simpl.
  - destruct (rmatch true r prev [] _); reflexivity.
  - destruct (rmatch true r prev (c :: s) _); [reflexivity|].
    now destruct (search true r (Some c) s) as [[? ?]|].
Qed.

(** A pattern [\b(w1|...|wn)\b] with the [i] flag accepts the ids that
    contain one of its words as a whole word, in any case. *)
Lemma whole_word_spec words id :
  words <> [] ->
  regex_test true (whole_word words) id = contains_word words id.
Proof.
  intros N. unfold regex_test, contains_word.
  change (match search true (whole_word words) None (list_ascii_of_string id) with
          | Some _ => true
          | None => false
          end)
    with (matched (search true (whole_word words) None (list_ascii_of_string id))).
  generalize (@None ascii) as prev.
  induction (list_ascii_of_string id) as [|c s IH]; intros prev;
    rewrite matched_search, whole_word_here by exact N; simpl.
  - reflexivity.
  - now rewrite IH.
Qed.

Lemma last_read_cons c l prev : last_read (c :: l) prev = last_read l (Some c).
Proof. reflexivity. Qed.

Lemma last_read_app l1 l2 prev :
  last_read (l1 ++ l2) prev = last_read l2 (last_read l1 prev).
Proof. unfold last_read. apply fold_left_app. Qed.

Lemma strip_prefix_ci_iff p : forall prev s last rest,
  strip_prefix_ci p prev s = Some (last, rest)
  <-> exists mid,
        s = (mid ++ rest)%list
        /\ Forall2 (fun a b => chr_matches true a b = true) p mid
        /\ last = last_read mid prev.
Proof.
  induction p as [|a p IH]; intros prev s last rest; cbn [strip_prefix_ci].
  - split.
    + intros E; injection E as <- <-. exists []. repeat split. constructor.
    + intros (mid & -> & F & ->). inversion F; subst. reflexivity.
  - destruct s as [|b s].
    + split; [discriminate|].
      intros (mid & E & F & _). inversion F; subst. discriminate E.
    + destruct (chr_matches true a b) eqn:M.
      * rewrite IH. split.
        -- intros (mid & -> & F & ->). exists (b :: mid).
           repeat split. now constructor.
        -- intros (mid & E & F & ->). inversion F as [|? b' ? mid' M' F']; subst.
           simpl in E. injection E as <- ->. exists mid'. repeat split. exact F'.
      * split; [discriminate|].
        intros (mid & E & F & _). inversion F as [|? b' ? mid' M' F']; subst.
        simpl in E. injection E as <- _. congruence.
Qed.

(** What it is for an id to contain a word as a whole word: the id is
    [before ++ mid ++ after], [mid] being one of the words up to case,
    with a word boundary in front of [mid] and another behind it. *)
Lemma word_somewhere_iff words : forall s prev,
  word_somewhere words prev s = true
  <-> exists before mid after w,
        s = (before ++ mid ++ after)%list
        /\ In w words
        /\ same_ci w mid
        /\ boundary (last_read before prev) (mid ++ after) = true
        /\ boundary (last_read mid (last_read before prev)) after = true.
Proof.
  induction s as [|c s IH]; intros prev.
  - simpl. rewrite orb_false_r, existsb_exists. split.
    + intros (w & I & H). unfold word_here in H.
      apply andb_true_iff in H. destruct H as [B H].
      destruct (strip_prefix_ci _ prev []) as [[last rest]|] eqn:S;
        [|discriminate].
      apply strip_prefix_ci_iff in S. destruct S as (mid & E & F & ->).
      exists [], mid, rest, w. simpl. rewrite <- E. tauto.
    + intros (before & mid & after & w & E & I & F & B1 & B2).
      destruct before; [|discriminate E]. simpl in *.
      exists w. split; [exact I|]. unfold word_here.
      rewrite E, B1. simpl.
      assert (S : strip_prefix_ci (list_ascii_of_string w) prev (mid ++ after)
                  = Some (last_read mid prev, after)).
      { apply strip_prefix_ci_iff. exists mid. tauto. }
      now rewrite S.
  - cbn [word_somewhere]. rewrite orb_true_iff, IH, existsb_exists. split.
    + intros [(w & I & H)|(before & mid & after & w & E & I & F & B1 & B2)].
      * unfold word_here in H. apply andb_true_iff in H. destruct H as [B H].
        destruct (strip_prefix_ci _ prev (c :: s)) as [[last rest]|] eqn:S;
          [|discriminate].
        apply strip_prefix_ci_iff in S. destruct S as (mid & E & F & ->).
        exists [], mid, rest, w. simpl. rewrite <- E. tauto.
      * exists (c :: before), mid, after, w. simpl. rewrite E. tauto.
    + intros (before & mid & after & w & E & I & F & B1 & B2).
      destruct before as [|b before].
      * left. simpl in *. exists w. split; [exact I|]. unfold word_here.
        rewrite E, B1. simpl.
        assert (S : strip_prefix_ci (list_ascii_of_string w) prev (mid ++ after)
                    = Some (last_read mid prev, after)).
        { apply strip_prefix_ci_iff. exists mid. tauto. }
        now rewrite S.
      * right. simpl in E. injection E as <- ->.
        exists before, mid, after, w. tauto.
Qed.

(** ** C7: type inference and dispatch *)

Lemma first_match_None patterns id :
  first_match patterns id = None
  <-> forall r t, In (r, t) patterns -> regex_test true r id = false.
Proof.
  induction patterns as [|[r t] ps IH]; simpl.
  - split; [intros _ r t [] | reflexivity].
  - destruct (regex_test true r id) eqn:T.
    + split; [discriminate|]. intros H.
      specialize (H r t (or_introl eq_refl)). congruence.
    + rewrite IH. split.
      * intros H r' t' [E|I]; [injection E as <- <-; exact T | eauto].
      * intros H r' t' I; eauto.
Qed.

Lemma first_match_Some patterns id t :
  first_match patterns id = Some t
  <-> exists before r after,
        patterns = (before ++ (r, t) :: after)%list
        /\ regex_test true r id = true
        /\ forall r' t', In (r', t') before -> regex_test true r' id = false.
Proof.
  induction patterns as [|[r0 t0] ps IH]; simpl.
  - split; [discriminate|]. intros (b & r & a & E & _).
    destruct b; discriminate E.
  - destruct (regex_test true r0 id) eqn:T.
    + split.
      * intros E; injection E as ->.
        exists [], r0, ps. repeat split; [exact T | intros ? ? []].
      * intros ([|[r1 t1] b] & r & a & E & M & N).
        -- simpl in E; injection E as <- <- <-; reflexivity.
        -- simpl in E; injection E as <- <- ->.
           specialize (N r0 t0 (or_introl eq_refl)). congruence.
    + rewrite IH. split.
      * intros (b & r & a & -> & M & N).
        exists ((r0, t0) :: b), r, a. repeat split; [exact M|].
        intros r' t' [E|I]; [injection E as <- <-; exact T | eauto].
      * intros ([|[r1 t1] b] & r & a & E & M & N).
        -- simpl in E; injection E as <- <- <-. congruence.
        -- simpl in E; injection E as <- <- ->.
           exists b, r, a. repeat split; [exact M|].
           intros r' t' I; apply (N r' t'); now right.
Qed.

Lemma lookup_without k k0 props :
  String.eqb k k0 = false ->
  lookup k (filter (fun kv => negb (String.eqb (fst kv) k0)) props)
  = lookup k props.
Proof.
  intros N; induction props as [|[k' v] props IH]; simpl; [reflexivity|].
  destruct (String.eqb k' k0) eqn:E; simpl.
  - apply String.eqb_eq in E; subst k'. now rewrite N.
  - now rewrite IH.
Qed.

Lemma get_without_prop k k0 raw :
  String.eqb k k0 = false -> get k (without_prop k0 raw) = get k raw.
Proof.
  intros N; destruct raw; try reflexivity.
  simpl. now rewrite lookup_without.
Qed.

Lemma get_without_prop_same k raw : get k (without_prop k raw) = VUndefined.
Proof.
  destruct raw; try reflexivity. simpl.
  induction props as [|[k' v] props IH]; simpl; [reflexivity|].
  destruct (String.eqb k' k) eqn:E; simpl; [exact IH|].
  rewrite String.eqb_sym, E. exact IH.
Qed.

Ltac forget_type := rewrite ?get_without_prop by reflexivity.

Lemma extractBaseFields_without_type now raw :
  extractBaseFields now (without_prop "type" raw) = extractBaseFields now raw.
Proof. unfold extractBaseFields, spec_then_raw. forget_type. reflexivity. Qed.

Lemma normalizers_without_type t normalize :
  In (t, normalize) variant_normalizers ->
  forall now raw, normalize now (without_prop "type" raw) = normalize now raw.
Proof.
  simpl.
  intros [H|[H|[H|[H|[H|[H|[H|[H|[]]]]]]]]]; injection H as <- <-;
    intros now raw;
    [ unfold normalizeTextModel | unfold normalizeImageModel
    | unfold normalizeVideoModel | unfold normalizeInpaintModel
    | unfold normalizeEmbeddingModel | unfold normalizeTtsModel
    | unfold normalizeAsrModel | unfold normalizeUpscaleModel ];
    rewrite extractBaseFields_without_type; unfold spec_then_raw;
    forget_type; reflexivity.
Qed.

Lemma explicit_type_None v :
  explicit_type v = None <-> forall t, v <> VStr (ModelType_to_string t).
Proof.
  split.
  - intros H t ->. destruct t; discriminate H.
  - intros H. unfold explicit_type.
    destruct (truthy v && VALID_TYPES_has v) eqn:E; [|reflexivity].
    apply andb_true_iff in E; destruct E as [_ E].
    destruct v; try discriminate E. simpl in E.
    unfold ModelType_of_string.
    destruct (String.eqb_spec s "text") as [->|]; [now destruct (H text)|].
    destruct (String.eqb_spec s "image") as [->|]; [now destruct (H image)|].
    destruct (String.eqb_spec s "video") as [->|]; [now destruct (H video)|].
    destruct (String.eqb_spec s "inpaint") as [->|]; [now destruct (H inpaint)|].
    destruct (String.eqb_spec s "embedding") as [->|]; [now destruct (H embedding)|].
    destruct (String.eqb_spec s "tts") as [->|]; [now destruct (H tts)|].
    destruct (String.eqb_spec s "asr") as [->|]; [now destruct (H asr)|].
    destruct (String.eqb_spec s "upscale") as [->|]; [now destruct (H upscale)|].
    reflexivity.
Qed.

Lemma resolve_type_without_type raw :
  explicit_type (get "type" raw) = None ->
  resolve_type (without_prop "type" raw) = resolve_type raw.
Proof.
  intros H; unfold resolve_type.
  rewrite get_without_prop_same, H. forget_type. reflexivity.
Qed.

Lemma dispatch_variant t : In (t, dispatch t) variant_normalizers.
Proof. destruct t; simpl; tauto. Qed.

(** C7.  [inferTypeFromId] returns the type of the first pattern of
    [MODEL_ID_TYPE_PATTERNS] that matches, and nothing when none does.
    Every pattern is a list of words and matches the ids that contain one
    of them as a whole word, in any case: with a word boundary in front of
    it and another behind it.  So "gpt-4-vision-preview" matches none (it
    is not a video model) and "dall-e-3" is an image model.  A [type] the
    dispatcher does not know is dropped: the record is normalized as if it
    had no [type] at all, by the type inferred from its id, and as a text
    model when nothing is inferred. *)
Theorem type_inference_and_dispatch :
  inferTypeFromId "gpt-4-vision-preview" = None
  /\ inferTypeFromId "dall-e-3" = Some image
  /\ (forall id, inferTypeFromId id = None
        <-> forall r t, In (r, t) MODEL_ID_TYPE_PATTERNS ->
              regex_test true r id = false)
  /\ (forall id t, inferTypeFromId id = Some t
        <-> exists before r after,
              MODEL_ID_TYPE_PATTERNS = (before ++ (r, t) :: after)%list
              /\ regex_test true r id = true
              /\ forall r' t', In (r', t') before ->
                   regex_test true r' id = false)
  /\ (forall r t, In (r, t) MODEL_ID_TYPE_PATTERNS ->
        exists words,
          r = whole_word words
          /\ forall id, regex_test true r id = contains_word words id)
  /\ (forall words id,
        contains_word words id = true
        <-> exists before mid after w,
              list_ascii_of_string id = (before ++ mid ++ after)%list
              /\ In w words
              /\ same_ci w mid
              /\ boundary (last_read before None) (mid ++ after) = true
              /\ boundary (last_read mid (last_read before None)) after = true)
  /\ (forall now raw,
        (forall t, get "type" raw <> VStr (ModelType_to_string t)) ->
        defaultModelNormalizer now raw
        = defaultModelNormalizer now (without_prop "type" raw))
  /\ (forall now raw id,
        (forall t, get "type" raw <> VStr (ModelType_to_string t)) ->
        ToString (js_nullish (js_nullish (get "id" raw) (get "model_id" raw))
                    (VStr EmptyString)) = Ok id ->
        defaultModelNormalizer now raw
        = match inferTypeFromId id with
          | Some t => dispatch t now raw
          | None => normalizeTextModel now raw
          end).
Proof.
  split; [vm_compute; reflexivity|].
  split; [vm_compute; reflexivity|].
  split; [intros id; apply first_match_None|].
  split; [intros id t; apply first_match_Some|].
  split.
  { intros r t I. simpl in I.
    destruct I as [I|[I|[I|[I|[I|[I|[I|[]]]]]]]]; injection I as <- <-;
      eexists; (split; [reflexivity|]); intros id;
      apply whole_word_spec; discriminate. }
  split; [intros words id; apply word_somewhere_iff|].
  split.
  - intros now raw H. apply explicit_type_None in H.
    unfold defaultModelNormalizer.
    rewrite (resolve_type_without_type _ H).
    destruct (resolve_type raw) as [t|e]; [|reflexivity]. simpl.
    symmetry. apply normalizers_without_type with t, dispatch_variant.
  - intros now raw id H S. apply explicit_type_None in H.
    unfold defaultModelNormalizer, resolve_type. rewrite H, S. simpl.
    unfold inferred_or_text. now destruct (inferTypeFromId id).
Qed.

(** ** C1: the scheme of the endpoint *)

Lemma search_anchored ic r : forall s c,
  search ic (Seq Bol r) (Some c) s = None.
Proof.
  induction s as [|x s IH]; intros c; simpl; [reflexivity|].
  now rewrite IH.
Qed.

Lemma regex_test_anchored ic r s :
  regex_test ic (Seq Bol r) s
  = match rmatch ic r None (list_ascii_of_string s) (fun _ rest => Some rest) with
    | Some _ => true
    | None => false
    end.
Proof.
  unfold regex_test.
  destruct (list_ascii_of_string s) as [|c l]; simpl.
  - now destruct (rmatch ic r None [] _).
  - destruct (rmatch ic r None (c :: l) _); [reflexivity|].
    now rewrite search_anchored.
Qed.

Ltac next_char :=
  match goal with
  | |- context [chr_matches true ?p ?c] =>
      destruct (chr_matches true p c); cbn -[chr_matches]; try reflexivity
  | |- context [list_ascii_of_string ?s] =>
      destruct s; cbn -[chr_matches]; try reflexivity
  end.

(** The pattern of the hook accepts the endpoints that start with
    [http://] or [https://], in any case, and no others. *)
Lemma scheme_pattern_spec url :
  regex_test true scheme_pattern url = has_http_scheme url.
Proof.
  unfold scheme_pattern. rewrite regex_test_anchored.
  unfold has_http_scheme, lit. cbn -[chr_matches].
  repeat next_char.
Qed.

Section HookProperties.
Variable Model : Type.
Variable has_id : Model -> bool.
Variable has_type : ModelType -> Model -> bool.

Lemma has_http_scheme_not_empty url :
  has_http_scheme url = true -> url <> EmptyString.
Proof. intros H ->. discriminate H. Qed.

(** C1.  An endpoint that is a non-empty string not starting with
  [http://] or [https://] (in any case) settles the hook at once: no
  models, not loading, the invalid-scheme error, and no call of the fetch
  function (the trace of the effect is empty) -- from the first render
  and from any later state. *)
Theorem invalid_scheme_settles_without_fetch :
forall production (props : UseModelsProps Model) base,
  baseUrl props = Some base ->
  base <> EmptyString ->
  has_http_scheme base = false ->
  useModels has_id has_type production props
  = ({| models := []; result_loading := false;
        result_error := Some invalid_scheme_message |}, [])
  /\ forall stale st,
       effect has_id production stale props st
       = ({| allModels := []; loading := false;
             error := Some invalid_scheme_message |}, []).
Proof.
intros production props base B N S.
assert (E : forall stale st,
           effect has_id production stale props st
           = ({| allModels := []; loading := false;
                 error := Some invalid_scheme_message |}, [])).
{ intros stale st. unfold effect. rewrite B.
  apply String.eqb_neq in N. rewrite N.
  now rewrite scheme_pattern_spec, S. }
split; [|exact E].
unfold useModels. rewrite E. unfold result_of; simpl.
now destruct (type props).
Qed.

Lemma reportable_tail (normalize : value -> Result (option Model)) raw raws :
  reportable normalize (raw :: raws) -> reportable normalize raws.
Proof. intros R r I. apply R. now right. Qed.

Lemma normalize_each_spec production normalize raws :
  production = true \/ reportable normalize raws ->
  normalize_each has_id production normalize raws
  = (Ok (flat_map (kept has_id normalize) raws),
     if production then [] else flat_map (warned normalize) raws).
Proof.
  induction raws as [|raw raws IH]; intros R; simpl.
  - now destruct production.
  - assert (R' : production = true \/ reportable normalize raws).
    { destruct R as [R|R]; [now left | right; eapply reportable_tail, R]. }
    rewrite (IH R'). unfold kept, warned.
    destruct (normalize raw) as [[model|]|e] eqn:E; simpl.
    + destruct (has_id model); now destruct production.
    + now destruct production.
    + destruct production; [reflexivity|].
      destruct R as [R|R]; [discriminate R|].
      specialize (R raw (or_introl eq_refl)). rewrite E in R.
      specialize (R eq_refl).
      destruct (warning_message raw); [reflexivity | discriminate R].
Qed.

Lemma kept_length normalize raws :
  (forall raw, In raw raws ->
     throws (normalize raw) = true
     \/ exists model, normalize raw = Ok (Some model) /\ has_id model = true) ->
  (List.length (flat_map (kept has_id normalize) raws)
   + List.length (filter (fun raw => throws (normalize raw)) raws)
   = List.length raws)%nat.
Proof.
  induction raws as [|raw raws IH]; intros H; simpl; [reflexivity|].
  rewrite length_app.
  assert (IH' := IH (fun r I => H r (or_intror I))).
  destruct (H raw (or_introl eq_refl)) as [T|(model & E & I)].
  - unfold kept at 1. destruct (normalize raw) as [?|?]; [discriminate T|].
    simpl. lia.
  - unfold kept at 1. rewrite E, I. simpl. lia.
Qed.

(** C4 (as amended).  All of the following is under one condition: the
    build is a production build, or the id to be named,
    [raw.id ?? raw.model_id ?? 'unknown'], of every record the normalizer
    throws on converts to a string ([reportable]).  Then, when the response
    of a valid endpoint is read, the records are normalized one by one: a
    record whose normalizer throws is left out and, outside production
    builds, reported by a warning that names that id; a record is kept
    exactly when its normalizer returns a model with a truthy id; the
    others do not affect it.  When every record either throws or yields
    such a model, the result holds as many models as records did not throw
    -- two for a batch of three of which one throws. *)
Theorem per_record_isolation :
  forall production (props : UseModelsProps Model) base status body items st,
    baseUrl props = Some base ->
    has_http_scheme base = true ->
    fetcher props (request_url base props) (request_headers props)
      = Response true status (Ok body) ->
    invalid_body body = false ->
    match responseExtractor props with
    | Some extract => extract body
    | None => Ok (defaultResponseExtractor body)
    end = Ok items ->
    let raws := filter is_record items in
    let normalize := normalizer props in
    production = true \/ reportable normalize raws ->
    effect has_id production false props st
    = ({| allModels := flat_map (kept has_id normalize) raws;
          loading := false; error := None |},
       Fetched (request_url base props) (request_headers props)
         :: (if production then [] else flat_map (warned normalize) raws))
    /\ (forall raw model, In raw raws ->
          normalize raw = Ok (Some model) -> has_id model = true ->
          In model (flat_map (kept has_id normalize) raws))
    /\ (forall raw e, In raw raws -> normalize raw = Throw e ->
          kept has_id normalize raw = []
          /\ forall message, warning_message raw = Ok message ->
               In (Warned message e) (flat_map (warned normalize) raws))
    /\ ((forall raw, In raw raws ->
           throws (normalize raw) = true
           \/ exists model, normalize raw = Ok (Some model)
                            /\ has_id model = true) ->
        (List.length (flat_map (kept has_id normalize) raws)
         + List.length (filter (fun raw => throws (normalize raw)) raws)
         = List.length raws)%nat).
Proof.
  intros production props base status body items st B S F V X raws normalize R.
  split; [|split; [|split]].
  - unfold effect. rewrite B.
    pose proof (has_http_scheme_not_empty S) as N.
    apply String.eqb_neq in N. rewrite N, scheme_pattern_spec, S. simpl negb.
    cbv iota. unfold fetchModels, read_response. rewrite F. simpl negb.
    cbv iota. rewrite V.
    destruct (responseExtractor props) as [extract|]; cbv beta zeta;
      [rewrite X | injection X as X; rewrite X];
      fold raws; fold normalize; rewrite (normalize_each_spec R); reflexivity.
  - intros raw model I E T. apply in_flat_map. exists raw. split; [exact I|].
    unfold kept. rewrite E, T. now left.
  - intros raw e I E. split.
    + unfold kept. now rewrite E.
    + intros message W. apply in_flat_map. exists raw. split; [exact I|].
      unfold warned. rewrite E, W. now left.
  - apply kept_length.
Qed.

(** Without an endpoint the effect settles empty and calls nothing. *)
Lemma effect_without_endpoint production stale (props : UseModelsProps Model) st :
  baseUrl props = None ->
  effect has_id production stale props st
  = ({| allModels := []; loading := false; error := None |}, []).
Proof. intros B. unfold effect. now rewrite B. Qed.

End HookProperties.

(** ** Sorting *)

Section ArraySortProperties.
Variable A : Type.
Variable compare : A -> A -> number.

Lemma insert_sorted_perm x l :
  Permutation (insert_sorted compare x l) (x :: l).
Proof.
  induction l as [|y l IH]; simpl; [apply Permutation_refl|].
  destruct (num_pos (compare x y)); [|apply Permutation_refl].
  eapply perm_trans; [apply perm_skip, IH | apply perm_swap].
Qed.

Lemma Array_sort_perm l : Permutation (Array_sort compare l) l.
Proof.
  unfold Array_sort; induction l as [|x l IH]; simpl; [constructor|].
  eapply perm_trans; [apply insert_sorted_perm | now apply perm_skip].
Qed.

End ArraySortProperties.

(** ** The mp of the merge *)

Lemma map_get_set_same k m mp : map_get k (map_set k m mp) = Some m.
Proof.
  induction mp as [|[k' m'] mp IH]; simpl.
  - now rewrite String.eqb_refl.
  - destruct (String.eqb k k') eqn:E; simpl; rewrite E; [reflexivity | exact IH].
Qed.

Lemma map_get_set_other k k0 m mp :
  String.eqb k k0 = false -> map_get k (map_set k0 m mp) = map_get k mp.
Proof.
  intros N; induction mp as [|[k' m'] mp IH]; simpl.
  - now rewrite N.
  - destruct (String.eqb k0 k') eqn:E; simpl.
    + apply String.eqb_eq in E; subst k'. now rewrite N.
    + now rewrite IH.
Qed.

Lemma map_set_keys k m mp :
  map fst (map_set k m mp)
  = if existsb (String.eqb k) (map fst mp) then map fst mp
    else (map fst mp ++ [k])%list.
Proof.
  induction mp as [|[k' m'] mp IH]; simpl; [reflexivity|].
  destruct (String.eqb k k') eqn:E; simpl; [reflexivity|].
  rewrite IH. now destruct (existsb (String.eqb k) (map fst mp)).
Qed.

Lemma existsb_eqb_In k keys : existsb (String.eqb k) keys = true <-> In k keys.
Proof.
  rewrite existsb_exists. split.
  - intros (x & I & E). apply String.eqb_eq in E. now subst.
  - intros I. exists k. split; [exact I | apply String.eqb_refl].
Qed.

Lemma map_set_NoDup k m mp :
  NoDup (map fst mp) -> NoDup (map fst (map_set k m mp)).
Proof.
  intros N. rewrite map_set_keys.
  destruct (existsb (String.eqb k) (map fst mp)) eqn:E; [exact N|].
  apply NoDup_app; [exact N | repeat constructor; intros [] | ].
  intros x I [<-|[]].
  apply existsb_eqb_In in I. congruence.
Qed.

Lemma map_set_In k m mp k' m' :
  In (k', m') (map_set k m mp) -> (k' = k /\ m' = m) \/ In (k', m') mp.
Proof.
  induction mp as [|[k0 m0] mp IH]; simpl.
  - intros [E|[]]. injection E as <- <-. auto.
  - destruct (String.eqb k k0) eqn:Q; simpl.
    + apply String.eqb_eq in Q; subst k0.
      intros [E|I]; [injection E as <- <-|]; auto.
    + intros [E|I]; [auto|]. destruct (IH I); auto.
Qed.

Lemma map_set_keyed m mp : keyed mp -> keyed (map_set (Types.id m) m mp).
Proof.
  intros K k' m' I. destruct (map_set_In _ _ _ _ _ I) as [[-> ->]|I'];
    [reflexivity | now apply K].
Qed.

Lemma last_with_id_cons k m items :
  last_with_id k (m :: items)
  = match last_with_id k items with
    | Some s => Some s
    | None => if String.eqb (Types.id m) k then Some m else None
    end.
Proof.
  unfold last_with_id; simpl rev.
  induction (rev items) as [|x l IH]; simpl; [reflexivity|].
  destruct (String.eqb (Types.id x) k); [reflexivity | exact IH].
Qed.

Section SelectorProperties.
Variable Date_parse : string -> option Z.
Variable localeCompare : string -> string -> number.

Lemma set_each_get k items : forall mp,
  map_get k (set_each items mp)
  = match last_with_id k items with
    | Some s => Some s
    | None => map_get k mp
    end.
Proof.
  unfold set_each.
  induction items as [|m items IH]; intros mp; simpl; [reflexivity|].
  rewrite IH, last_with_id_cons.
  destruct (last_with_id k items); [reflexivity|].
  destruct (String.eqb (Types.id m) k) eqn:E.
  - apply String.eqb_eq in E; subst k. apply map_get_set_same.
  - apply map_get_set_other. now rewrite String.eqb_sym.
Qed.

Lemma set_each_invariant items : forall mp,
  NoDup (map fst mp) -> keyed mp ->
  NoDup (map fst (set_each items mp)) /\ keyed (set_each items mp).
Proof.
  unfold set_each.
  induction items as [|m items IH]; intros mp N K; simpl; [auto|].
  apply IH; [now apply map_set_NoDup | now apply map_set_keyed].
Qed.

Lemma merge_invariant fetchedModels models :
  NoDup (map fst (merge fetchedModels models))
  /\ keyed (merge fetchedModels models).
Proof.
  unfold merge. apply set_each_invariant; apply set_each_invariant;
    try constructor; intros k m [].
Qed.

Lemma keyed_ids mp : keyed mp -> map Types.id (map_values mp) = map fst mp.
Proof.
  unfold map_values. induction mp as [|[k m] mp IH]; intros K; simpl;
    [reflexivity|].
  rewrite (K k m (or_introl eq_refl)), IH; [reflexivity|].
  intros k' m' I. apply K. now right.
Qed.

Lemma map_set_at k m (before : list (string * Types.AnyModel)) m0 rest :
  ~ In k (map fst before) ->
  map_set k m (before ++ (k, m0) :: rest)%list = (before ++ (k, m) :: rest)%list.
Proof.
  induction before as [|[k' m'] before IH]; simpl; intros N.
  - now rewrite String.eqb_refl.
  - destruct (String.eqb_spec k k') as [->|_]; [tauto|].
    rewrite IH; [reflexivity | tauto].
Qed.

Lemma overlay_favorites_entries localFavorites mp :
  NoDup (map fst mp) -> keyed mp ->
  overlay_favorites localFavorites mp = List.map (overlay_entry localFavorites) mp.
Proof.
  intros N K. unfold overlay_favorites.
  set (over := overlay_entry localFavorites).
  assert (G : forall todo done,
    NoDup (map fst (done ++ todo)%list) -> keyed todo ->
    fold_left
      (fun acc '(_, m) =>
         if favorites_has localFavorites (Types.id m)
         then map_set (Types.id m) (Types.with_favorite m) acc
         else acc)
      todo (List.map over done ++ todo)%list
    = List.map over (done ++ todo)%list).
  { induction todo as [|[k m] todo IH]; intros done N' K'; simpl.
    - now rewrite !app_nil_r.
    - assert (Hk : Types.id m = k) by (apply K'; now left).
      assert (Hn : ~ In k (map fst (List.map over done))).
      { rewrite map_map.
        replace (map (fun x => fst (over x)) done) with (map fst done).
        - rewrite map_app in N'. simpl in N'.
          apply NoDup_remove_2 in N'. intros I; apply N'.
          apply in_or_app; now left.
        - apply map_ext. intros [k0 m0]. unfold over, overlay_entry; simpl.
          now destruct (favorites_has localFavorites (Types.id m0)). }
      assert (Hstep :
        (if favorites_has localFavorites (Types.id m)
         then map_set (Types.id m) (Types.with_favorite m)
                (List.map over done ++ (k, m) :: todo)%list
         else (List.map over done ++ (k, m) :: todo)%list)
        = (List.map over (done ++ [(k, m)]) ++ todo)%list).
      { rewrite map_app, <- app_assoc. simpl.
        assert (Ho : over (k, m)
                     = if favorites_has localFavorites (Types.id m)
                       then (k, Types.with_favorite m) else (k, m))
          by reflexivity.
        rewrite Ho.
        destruct (favorites_has localFavorites (Types.id m)); [|reflexivity].
        rewrite Hk. now apply map_set_at. }
      rewrite Hstep, IH.
      + now rewrite <- app_assoc.
      + now rewrite <- app_assoc.
      + intros k' m' I. apply K'. now right. }
  apply (G mp []); assumption.
Qed.

Lemma overlay_ids localFavorites mp :
  NoDup (map fst mp) -> keyed mp ->
  map Types.id (map_values (overlay_favorites localFavorites mp))
  = map fst mp.
Proof.
  intros N K. rewrite overlay_favorites_entries by assumption.
  unfold map_values. rewrite !map_map.
  rewrite <- (keyed_ids K). unfold map_values. rewrite map_map.
  apply map_ext. intros [k m]. unfold overlay_entry; simpl.
  now destruct (favorites_has localFavorites (Types.id m)).
Qed.

Lemma partition_stage_filters now items :
  partition_stage Date_parse now items
  = (filter (fun m => negb (past_deprecated Date_parse now m)) items,
     filter (past_deprecated Date_parse now) items).
Proof.
  induction items as [|m items IH]; simpl; [reflexivity|].
  rewrite IH. now destruct (past_deprecated Date_parse now m).
Qed.

Lemma filter_partition_perm (f : Types.AnyModel -> bool) items :
  Permutation (filter (fun m => negb (f m)) items ++ filter f items) items.
Proof.
  induction items as [|m items IH]; simpl; [constructor|].
  destruct (f m); simpl.
  - apply Permutation_sym, Permutation_cons_app, Permutation_sym, IH.
  - now apply perm_skip.
Qed.

Lemma NoDup_map_filter (f : Types.AnyModel -> bool) items :
  NoDup (map Types.id items) -> NoDup (map Types.id (filter f items)).
Proof.
  induction items as [|m items IH]; simpl; intros N; [constructor|].
  inversion N as [|? ? X Y]; subst.
  destruct (f m); simpl; [|auto].
  constructor; [|auto]. intros I; apply X.
  apply in_map_iff in I; destruct I as (x & E & I).
  apply filter_In in I. apply in_map_iff. exists x. tauto.
Qed.

Lemma sort_stage_perm sortOrder items :
  Permutation (sort_stage localeCompare sortOrder items) items.
Proof. destruct sortOrder; apply Array_sort_perm. Qed.

Lemma past_deprecated_iff now m :
  past_deprecated Date_parse now m = true
  <-> exists d t, Types.deprecation m = Some d
                  /\ Date_parse (Types.date d) = Some t /\ t < now.
Proof.
  unfold past_deprecated, date_before. split.
  - destruct (Types.deprecation m) as [d|]; [|discriminate].
    destruct (Date_parse (Types.date d)) as [t|] eqn:P; [|discriminate].
    intros H; exists d, t. repeat split; [exact P | lia].
  - intros (d & t & -> & -> & L). lia.
Qed.

End SelectorProperties.

Lemma last_with_id_found k items s :
  In s items -> Types.id s = k ->
  exists s', last_with_id k items = Some s' /\ In s' items /\ Types.id s' = k.
Proof.
  intros I E. unfold last_with_id.
  destruct (find (fun m => String.eqb (Types.id m) k) (rev items)) as [s'|] eqn:F.
  - apply find_some in F. destruct F as [I' E'].
    exists s'. repeat split;
      [apply in_rev in I'; exact I' | now apply String.eqb_eq].
  - apply find_none with (x := s) in F; [|apply in_rev in I; exact I].
    subst k. now rewrite String.eqb_refl in F.
Qed.

Section SelectorClaims.
Variable Date_parse : string -> option Z.
Variable localeCompare : string -> string -> number.

(** C5.  After the sort, the entries whose deprecation date is strictly
    before the evaluation instant go to the end: the list is the entries
    that are not past-deprecated, in their sorted order, followed by the
    past-deprecated ones, in their sorted order.  An entry is
    past-deprecated exactly when it has a deprecation whose date parses to
    an instant strictly below [now]; one without deprecation, or with a
    date at or after [now], stays in the leading part. *)
Theorem deprecation_partition_stable :
  forall now,
    (forall items,
       partition_stage Date_parse now items
       = (filter (fun m => negb (past_deprecated Date_parse now m)) items,
          filter (past_deprecated Date_parse now) items))
    /\ (forall models fetchedModels sortOrder localFavorites controlled
               showDeprecated,
          let sorted := sorted_models Date_parse localeCompare models
                          fetchedModels sortOrder localFavorites controlled
                          showDeprecated now in
          allModels_memo Date_parse localeCompare models fetchedModels
            sortOrder localFavorites controlled showDeprecated now
          = (filter (fun m => negb (past_deprecated Date_parse now m)) sorted
             ++ filter (past_deprecated Date_parse now) sorted)%list)
    /\ (forall m,
          past_deprecated Date_parse now m = true
          <-> exists d t, Types.deprecation m = Some d
                          /\ Date_parse (Types.date d) = Some t /\ t < now).
Proof.
  intros now. split; [|split].
  - apply partition_stage_filters.
  - intros. unfold allModels_memo. rewrite partition_stage_filters.
    reflexivity.
  - apply past_deprecated_iff.
Qed.

(** C6.  The merge files the fetched models and then the static ones in
    a map keyed by id: the map has every id once, an id a static model
    carries is bound to the (last) static model with that id, whatever was
    fetched under it, every other id to the (last) fetched model with it;
    and the list the component derives has every id at most once. *)
Theorem merge_static_wins :
  forall fetchedModels models,
    NoDup (map fst (merge fetchedModels models))
    /\ (forall k m, In (k, m) (merge fetchedModels models) -> Types.id m = k)
    /\ (forall k,
          map_get k (merge fetchedModels models)
          = match last_with_id k models with
            | Some s => Some s
            | None => last_with_id k fetchedModels
            end)
    /\ (forall s, In s models ->
          exists s', In s' models /\ Types.id s' = Types.id s
                     /\ map_get (Types.id s) (merge fetchedModels models) = Some s')
    /\ (forall sortOrder localFavorites controlled showDeprecated now,
          NoDup (map Types.id
                   (allModels_memo Date_parse localeCompare models
                      fetchedModels sortOrder localFavorites controlled
                      showDeprecated now))).
Proof.
  intros fetchedModels models.
  destruct (merge_invariant fetchedModels models) as [N K].
  assert (G : forall k,
            map_get k (merge fetchedModels models)
            = match last_with_id k models with
              | Some s => Some s
              | None => last_with_id k fetchedModels
              end).
  { intros k. unfold merge. rewrite !set_each_get. simpl.
    now destruct (last_with_id k fetchedModels). }
  split; [exact N|]. split; [exact K|]. split; [exact G|]. split.
  - intros s I.
    destruct (@last_with_id_found _ models s I eq_refl) as (s' & L & I' & E).
    exists s'. repeat split; [exact I' | exact E |]. now rewrite G, L.
  - intros sortOrder localFavorites controlled showDeprecated now.
    unfold allModels_memo. rewrite partition_stage_filters.
    set (entries := if negb controlled
                    then overlay_favorites localFavorites (merge fetchedModels models)
                    else merge fetchedModels models).
    assert (V : NoDup (map Types.id (map_values entries))).
    { unfold entries. destruct (negb controlled).
      - rewrite overlay_ids by assumption. exact N.
      - rewrite (keyed_ids K). exact N. }
    assert (F : NoDup (map Types.id
                  (filter_stage Date_parse showDeprecated now (map_values entries)))).
    { unfold filter_stage. destruct (negb showDeprecated);
        [now apply NoDup_map_filter | exact V]. }
    eapply Permutation_NoDup; [|exact F].
    apply Permutation_map, Permutation_sym.
    eapply perm_trans; [apply filter_partition_perm | apply sort_stage_perm].
Qed.

(** What holds of a render of the component with static models,
    whatever state the hook is in: the hook is handed no endpoint; the list
    of the render is derived from the static models and the models the
    state holds, of the requested type; the effect that follows the render
    calls nothing and leaves the state empty; and a render that reads that
    state, or the initial state of a component mounted with static models,
    derives its list from the static models alone. *)
Lemma render_with_static_models production stale m rest
  (props : UseModelsProps Types.AnyModel) st sortOrder localFavorites
  controlled showDeprecated now :
  let models := m :: rest in
  let shown fetchedModels :=
    allModels_memo Date_parse localeCompare models fetchedModels sortOrder
      localFavorites controlled showDeprecated now in
  baseUrl (hook_props models props) = None
  /\ ModelSelector Date_parse localeCompare models props sortOrder
       localFavorites controlled showDeprecated now st
     = shown match type props with
             | None => allModels st
             | Some t => filter (has_type t) (allModels st)
             end
  /\ effect has_id production stale (hook_props models props) st
     = (settled_empty, [])
  /\ ModelSelector Date_parse localeCompare models props sortOrder
       localFavorites controlled showDeprecated now settled_empty
     = shown []
  /\ ModelSelector Date_parse localeCompare models props sortOrder
       localFavorites controlled showDeprecated now
       (initial_state (hook_props models props))
     = shown [].
Proof.
  intros models shown. unfold ModelSelector, result_of. simpl.
  split; [reflexivity|]. split; [reflexivity|].
  split; [now apply effect_without_endpoint|].
  split; now destruct (type props).
Qed.

End SelectorClaims.

(* ===================================================================== *)
(** * The statements at concrete inputs *)
(* ===================================================================== *)

(** C8 at "42". *)
Lemma toNum_absent_only_for_NaN_witness :
  decimal_digits "42" = true /\ toNum (VStr "42") = Ok (Some (num 42)).
Proof.
  split; [reflexivity|].
  destruct toNum_absent_only_for_NaN as (_ & _ & _ & _ & _ & D).
  apply (D "42"). reflexivity.
Defined.

(** C8 as first stated fails: the string "Infinity", the literal "1e999"
    and the number Infinity do not parse to a finite number, and [toNum]
    returns them. *)
Lemma toNum_keeps_infinite_values :
  Number_isFinite Infinity = false
  /\ ToNumber (VStr "Infinity") = Ok Infinity
  /\ toNum (VStr "Infinity") = Ok (Some Infinity)
  /\ toNum (VStr "1e999") = Ok (Some Infinity)
  /\ toNum (VNum Infinity) = Ok (Some Infinity).
Proof. repeat split; vm_compute; reflexivity. Qed.

(** The one way [toNum] throws: an object with a [toString] property of
    its own has no primitive value. *)
Lemma toNum_throws_without_primitive :
  toNum (VObj [("toString", VNum (num 1))]) = Throw not_primitive
  /\ toNum (VArr [VObj [("toString", VNull)]]) = Throw not_primitive
  /\ toNum (VObj [("valueOf", VNum (num 1))]) = Ok None.
Proof. repeat split; vm_compute; reflexivity. Qed.

(** C9 at a record that claims to be a favorite. *)
Lemma normalizers_set_is_favorite_false_witness :
  In (text, normalizeTextModel) variant_normalizers
  /\ get "is_favorite" venice_text_raw = VBool true
  /\ normalizeTextModel (num 0) venice_text_raw = Ok venice_text_model
  /\ get "is_favorite" venice_text_model = VBool false.
Proof.
  assert (I : In (text, normalizeTextModel) variant_normalizers)
    by (left; reflexivity).
  assert (E : normalizeTextModel (num 0) venice_text_raw = Ok venice_text_model)
    by reflexivity.
  split; [exact I|]. split; [reflexivity|]. split; [exact E|].
  exact (proj1 (@normalizers_set_is_favorite_false text normalizeTextModel I
                  (num 0) venice_text_raw venice_text_model E)).
Defined.

(** C2 at the Venice record: 6 USD per million is 0.000006 per token. *)
Lemma text_pricing_first_present_source_witness :
  normalizeTextModel (num 0) venice_text_raw = Ok venice_text_model
  /\ winning_source truthy venice_text_raw = Some spec_pricing
  /\ get "prompt" (get "pricing" venice_text_model)
     = VNum (StringToNumber "0.000006")
  /\ get "completion" (get "pricing" venice_text_model) = VUndefined.
Proof.
  assert (E : normalizeTextModel (num 0) venice_text_raw = Ok venice_text_model)
    by reflexivity.
  pose proof (@text_pricing_first_present_source (num 0) venice_text_raw
                venice_text_model E) as (_ & _ & A & _ & U).
  split; [exact E|]. split; [reflexivity|]. split.
  - rewrite (U (num 6) eq_refl eq_refl). reflexivity.
  - apply (A spec_pricing "completion" "output"); try reflexivity.
    simpl; tauto.
Defined.

(** C2 as first stated fails: the flat [pricing] object is empty, the
    model-spec source is the first non-empty one, and still the empty
    object wins and [prompt] is undefined. *)
Lemma empty_pricing_object_wins :
  normalizeTextModel (num 0) empty_pricing_raw = Ok empty_pricing_model
  /\ winning_source non_empty empty_pricing_raw = Some spec_pricing
  /\ winning_field non_empty empty_pricing_raw "prompt"
     = Ok (VNum (StringToNumber "0.000006"))
  /\ get "prompt" (get "pricing" empty_pricing_model) = VUndefined.
Proof. repeat split; vm_compute; reflexivity. Qed.

(** C7 at the record of type "banana". *)
Lemma type_inference_and_dispatch_witness :
  get "type" banana_raw = VStr "banana"
  /\ defaultModelNormalizer (num 0) banana_raw
     = defaultModelNormalizer (num 0) (without_prop "type" banana_raw)
  /\ defaultModelNormalizer (num 0) banana_raw
     = normalizeTextModel (num 0) banana_raw.
Proof.
  assert (U : forall t, get "type" banana_raw <> VStr (ModelType_to_string t))
    by (intros t; destruct t; discriminate).
  destruct type_inference_and_dispatch as (_ & _ & _ & _ & _ & _ & D & T).
  split; [reflexivity|]. split.
  - exact (D (num 0) banana_raw U).
  - exact (T (num 0) banana_raw "gpt-4o" U eq_refl).
Defined.

(** C1 at a [javascript:] endpoint. *)
Lemma invalid_scheme_settles_without_fetch_witness :
  has_http_scheme "javascript:alert(1)" = false
  /\ useModels has_id has_type false
       (sample_props (Some "javascript:alert(1)") sample_batch)
     = ({| models := []; result_loading := false;
           result_error := Some invalid_scheme_message |}, []).
Proof.
  split; [reflexivity|].
  refine (proj1 (@invalid_scheme_settles_without_fetch Types.AnyModel has_id
                   has_type false
                   (sample_props (Some "javascript:alert(1)") sample_batch)
                   "javascript:alert(1)" eq_refl _ eq_refl)).
  discriminate.
Defined.

(** C4 at the batch of the hook's test: three records, one refused, two
    models. *)
Lemma per_record_isolation_witness :
  List.length (filter (fun raw => throws (sample_normalizer raw)) sample_batch)
  = 1%nat
  /\ List.length
       (allModels
          (fst (effect has_id false false
                  (sample_props (Some sample_endpoint) sample_batch)
                  idle_state))) = 2%nat
  /\ filter is_warning
       (snd (effect has_id false false
               (sample_props (Some sample_endpoint) sample_batch) idle_state))
     = [Warned ("[open-model-selector] Failed to normalize model "
                ++ double_quote ++ "dall-e-3" ++ double_quote ++ ":")
          "Cannot normalize this model"].
Proof.
  assert (R : reportable sample_normalizer (filter is_record sample_batch)).
  { intros raw [<-|[<-|[<-|[]]]] _; reflexivity. }
  pose proof (@per_record_isolation Types.AnyModel has_id false
                (sample_props (Some sample_endpoint) sample_batch)
                sample_endpoint 200 (VObj [("data", VArr sample_batch)])
                sample_batch idle_state
                eq_refl eq_refl eq_refl eq_refl eq_refl (or_intror R))
    as (E & _ & _ & L).
  split; [reflexivity|]. rewrite E. split; reflexivity.
Defined.

(** C4 as first stated fails: of three records exactly one throws, a
    second one normalizes to a model with an empty id, and one model is
    left; and a production build reports nothing. *)
Lemma empty_id_is_dropped_too :
  List.length empty_id_batch = 3%nat
  /\ List.length
       (filter (fun raw => throws (sample_normalizer raw)) empty_id_batch)
     = 1%nat
  /\ List.length
       (allModels
          (fst (effect has_id false false
                  (sample_props (Some sample_endpoint) empty_id_batch)
                  idle_state))) = 1%nat
  /\ filter is_warning
       (snd (effect has_id true false
               (sample_props (Some sample_endpoint) sample_batch) idle_state))
     = [].
Proof. repeat split; vm_compute; reflexivity. Qed.

(** The case the condition of C4 leaves out: outside production, a record
    the normalizer throws on and whose id does not convert to a string
    makes the warning itself throw, and the whole batch is lost; a
    production build keeps the two other records. *)
Lemma unreportable_record_loses_the_batch :
  List.length (filter (fun raw => throws (sample_normalizer raw))
                 unreportable_batch) = 1%nat
  /\ effect has_id false false
       (sample_props (Some sample_endpoint) unreportable_batch) idle_state
     = ({| allModels := []; loading := false; error := Some not_primitive |},
        [Fetched "https://api.example.com/v1/models" []])
  /\ map Types.id
       (allModels
          (fst (effect has_id true false
                  (sample_props (Some sample_endpoint) unreportable_batch)
                  idle_state)))
     = ["gpt-4"; "wan-video"].
Proof. repeat split; vm_compute; reflexivity. Qed.

(** C5 at the example of the spec: [model_B] is the newest and still
    comes last; the model deprecated exactly at [sample_now] keeps its
    place in the sort. *)
Lemma deprecation_partition_stable_witness :
  allModels_memo iso_Date_parse ordinal_compare [model_A; model_B] []
    sort_created [] false true sample_now = [model_A; model_B]
  /\ allModels_memo iso_Date_parse ordinal_compare
       [model_A; model_B; model_C] [] sort_created [] false true sample_now
     = [model_C; model_A; model_B]
  /\ past_deprecated iso_Date_parse sample_now model_C = false.
Proof.
  destruct (deprecation_partition_stable iso_Date_parse ordinal_compare
              sample_now) as (_ & P & _).
  rewrite !P. repeat split; vm_compute; reflexivity.
Defined.

(** C6 at a fetched and a static model of one id. *)
Lemma merge_static_wins_witness :
  Types.id fetched_A = Types.id model_A
  /\ map_get "a" (merge [fetched_A] [model_A]) = Some model_A
  /\ map Types.name (map_values (merge [fetched_A] [model_A])) = ["Alpha"].
Proof.
  destruct (merge_static_wins iso_Date_parse ordinal_compare
              [fetched_A] [model_A]) as (_ & _ & G & _).
  split; [reflexivity|]. split; [rewrite G; reflexivity | reflexivity].
Defined.

(** C10, where the code departs from it.  At a render with a non-empty
    [models] array the hook is handed no endpoint, and the effect that
    follows the render invokes no fetch and empties the fetched list: a
    component mounted with static models never shows anything else.  But
    the render reads the state of the hook before that effect has run.  A
    component mounted with an endpoint alone fetches [model_Z]; when
    [models] then turns to [[model_A]], the list of that render merges the
    fetched [model_Z], still in the state, with the static [model_A]; only
    the effect after it empties the state, and the next render shows
    [model_A] alone. *)
Theorem stale_fetched_models_reach_the_merge :
  (forall Date_parse localeCompare production stale m rest
          (props : UseModelsProps Types.AnyModel) st sortOrder localFavorites
          controlled showDeprecated now,
     let models := m :: rest in
     let shown fetchedModels :=
       allModels_memo Date_parse localeCompare models fetchedModels sortOrder
         localFavorites controlled showDeprecated now in
     baseUrl (hook_props models props) = None
     /\ ModelSelector Date_parse localeCompare models props sortOrder
          localFavorites controlled showDeprecated now st
        = shown match type props with
                | None => allModels st
                | Some t => filter (has_type t) (allModels st)
                end
     /\ effect has_id production stale (hook_props models props) st
        = (settled_empty, [])
     /\ ModelSelector Date_parse localeCompare models props sortOrder
          localFavorites controlled showDeprecated now settled_empty
        = shown []
     /\ ModelSelector Date_parse localeCompare models props sortOrder
          localFavorites controlled showDeprecated now
          (initial_state (hook_props models props))
        = shown [])
  /\ effect has_id false false (hook_props [] fetching_props)
       (initial_state (hook_props [] fetching_props))
     = ({| allModels := [model_Z]; loading := false; error := None |},
        [Fetched "https://api.example.com/v1/models" []])
  /\ allModels fetched_state = [model_Z]
  /\ ModelSelector iso_Date_parse ordinal_compare [model_A] fetching_props
       sort_name [] false true sample_now fetched_state
     = [model_A; model_Z]
  /\ effect has_id false false (hook_props [model_A] fetching_props)
       fetched_state
     = (settled_empty, [])
  /\ ModelSelector iso_Date_parse ordinal_compare [model_A] fetching_props
       sort_name [] false true sample_now settled_empty
     = [model_A].
Proof.
  split; [intros; apply render_with_static_models|].
  repeat split; vm_compute; reflexivity.
Qed.

(** Whatever the date parser of the host: a model whose deprecation date
    does not parse fails the visibility filter, although it is not
    past-deprecated. *)
Lemma unparseable_date_not_visible (Date_parse : string -> option Z) now m d :
  Types.deprecation m = Some d ->
  Date_parse (Types.date d) = None ->
  visible Date_parse now m = false
  /\ past_deprecated Date_parse now m = false.
Proof.
  intros D P. unfold visible, past_deprecated, date_at_or_after, date_before.
  now rewrite D, P.
Qed.

(** C3, where the code departs from it.  "not-a-date" does not parse and
    [isDeprecated] says the model is not deprecated; with deprecated
    models shown, [model_D] is listed and not moved behind [model_A];
    with deprecated models hidden, [model_D] is dropped from the list. *)
Lemma unparseable_date_is_hidden :
  iso_Date_parse "not-a-date" = None
  /\ isDeprecated iso_Date_parse sample_now "not-a-date" = false
  /\ allModels_memo iso_Date_parse ordinal_compare [model_D; model_A] []
       sort_created [] false true sample_now = [model_D; model_A]
  /\ allModels_memo iso_Date_parse ordinal_compare [model_D; model_A] []
       sort_created [] false false sample_now = [model_A].
Proof. repeat split; vm_compute; reflexivity. Qed.

(* ===================================================================== *)
(** * Further properties of the code *)
(* ===================================================================== *)

(** ** The case of the letters of an id *)

Lemma code_ascii_of_N n : 0 <= n < 256 -> code (ascii_of_N (Z.to_N n)) = n.
Proof.
  intros H. unfold code. rewrite N_ascii_embedding; [lia|].
  apply N2Z.inj_lt. rewrite Z2N.id by lia. simpl. lia.
Qed.

Lemma code_range c : 0 <= code c < 256.
Proof.
  unfold code. pose proof (N_ascii_bounded c) as B.
  apply N2Z.inj_lt in B. simpl in B. lia.
Qed.

Lemma code_inj a b : code a = code b -> a = b.
Proof.
  unfold code. intros H. apply N2Z.inj in H.
  rewrite <- (ascii_N_embedding a), <- (ascii_N_embedding b). now rewrite H.
Qed.

Lemma code_canonicalize c :
  code (canonicalize c)
  = if (97 <=? code c) && (code c <=? 122) then code c - 32 else code c.
Proof.
  unfold canonicalize.
  destruct ((97 <=? code c) && (code c <=? 122)) eqn:E; [|reflexivity].
  apply code_ascii_of_N. lia.
Qed.

Lemma chr_matches_ci_code x y :
  chr_matches true x y = true -> code (canonicalize x) = code (canonicalize y).
Proof.
  unfold chr_matches. intros H. apply Ascii.eqb_eq in H. now rewrite H.
Qed.

Lemma same_letter_word x y :
  chr_matches true x y = true -> is_word_char x = is_word_char y.
Proof.
  intros H. apply chr_matches_ci_code in H. rewrite !code_canonicalize in H.
  unfold is_word_char, is_digit.
  destruct ((97 <=? code x) && (code x <=? 122)) eqn:X,
           ((97 <=? code y) && (code y <=? 122)) eqn:Y; lia.
Qed.

Lemma same_letter_trans p x y :
  chr_matches true x y = true -> chr_matches true p x = chr_matches true p y.
Proof.
  unfold chr_matches. intros H. apply Ascii.eqb_eq in H. now rewrite H.
Qed.

Lemma same_letter_is_word p q :
  same_letter_before p q = true -> is_word p = is_word q.
Proof.
  destruct p, q; simpl; try discriminate; [apply same_letter_word | reflexivity].
Qed.

Lemma same_letters_boundary p q s t :
  same_letter_before p q = true -> same_letters s t = true ->
  boundary p s = boundary q t.
Proof.
  intros P S. unfold boundary. rewrite (same_letter_is_word _ _ P).
  f_equal. destruct s, t; simpl in *; try discriminate; [reflexivity|].
  apply andb_true_iff in S. now apply same_letter_word.
Qed.

Lemma same_letters_strip w : forall p q s t,
  same_letter_before p q = true -> same_letters s t = true ->
  match strip_prefix_ci w p s, strip_prefix_ci w q t with
  | Some (p', s'), Some (q', t') =>
      same_letter_before p' q' = true /\ same_letters s' t' = true
  | None, None => True
  | _, _ => False
  end.
Proof.
  induction w as [|a w IH]; intros p q s t P S; cbn [strip_prefix_ci]; [auto|].
  destruct s as [|x s], t as [|y t]; simpl in S; try discriminate; [exact I|].
  apply andb_true_iff in S. destruct S as [M S].
  rewrite (same_letter_trans a _ _ M).
  destruct (chr_matches true a y); [|exact I].
  apply IH; [exact M | exact S].
Qed.

Lemma same_letters_word_here w p q s t :
  same_letter_before p q = true -> same_letters s t = true ->
  word_here p s w = word_here q t w.
Proof.
  intros P S. unfold word_here. rewrite (same_letters_boundary _ _ _ _ P S).
  f_equal.
  pose proof (same_letters_strip (list_ascii_of_string w) _ _ _ _ P S) as H.
  destruct (strip_prefix_ci _ p s) as [[p' s']|],
           (strip_prefix_ci _ q t) as [[q' t']|]; try contradiction;
    [|reflexivity].
  destruct H. now apply same_letters_boundary.
Qed.

Lemma same_letters_word_somewhere words : forall s t p q,
  same_letter_before p q = true -> same_letters s t = true ->
  word_somewhere words p s = word_somewhere words q t.
Proof.
  induction s as [|x s IH]; intros t p q P S; destruct t as [|y t];
    simpl in S; try discriminate; cbn [word_somewhere].
  - f_equal. apply existsb_same. intros w.
    now apply same_letters_word_here.
  - apply andb_true_iff in S. destruct S as [M S].
    f_equal.
    + apply existsb_same. intros w. apply same_letters_word_here; [exact P|].
      simpl. now rewrite M, S.
    + apply IH; [exact M | exact S].
Qed.

Lemma pattern_words r t :
  In (r, t) MODEL_ID_TYPE_PATTERNS ->
  exists words, words <> [] /\ r = whole_word words.
Proof.
  simpl. intros [I|[I|[I|[I|[I|[I|[I|[]]]]]]]]; injection I as <- <-;
    eexists; (split; [|reflexivity]); discriminate.
Qed.

(** X1.  The type inferred from an id does not depend on the case of its
    ASCII letters: two ids that are the same up to that case are given the
    same type, or none. *)
Theorem inferTypeFromId_ignores_case :
  forall id id',
    same_letters (list_ascii_of_string id) (list_ascii_of_string id') = true ->
    inferTypeFromId id = inferTypeFromId id'.
Proof.
  intros id id' S. unfold inferTypeFromId.
  assert (H : forall r t, In (r, t) MODEL_ID_TYPE_PATTERNS ->
            regex_test true r id = regex_test true r id').
  { intros r t I. destruct (pattern_words I) as (words & N & ->).
    rewrite !whole_word_spec by exact N. unfold contains_word.
    now apply same_letters_word_somewhere. }
  induction MODEL_ID_TYPE_PATTERNS as [|[r t] ps IH]; simpl; [reflexivity|].
  rewrite (H r t (or_introl eq_refl)).
  destruct (regex_test true r id'); [reflexivity|].
  apply IH. intros r' t' I. apply (H r' t'). now right.
Qed.

Lemma inferTypeFromId_ignores_case_witness :
  inferTypeFromId "Stable-Diffusion-XL" = inferTypeFromId "stable-diffusion-xl"
  /\ inferTypeFromId "stable-diffusion-xl" = Some image.
Proof.
  split; [|reflexivity].
  apply (inferTypeFromId_ignores_case "Stable-Diffusion-XL" "stable-diffusion-xl").
  reflexivity.
Defined.

(** ** The base fields and the normalizers *)

Lemma truthy_js_or a b : truthy (js_or a b) = truthy a || truthy b.
Proof.
  unfold js_or. destruct (truthy a) eqn:E; [now rewrite E | reflexivity].
Qed.

Lemma toNum_not_NaN v n : toNum v = Ok (Some n) -> Number_isNaN n = false.
Proof. intros H. now apply toNum_Some_inv in H. Qed.

(** The one error a conversion to a string throws. *)
Lemma ToString_Throw_message : forall v e,
  ToString v = Throw e -> e = not_primitive.
Proof.
  fix IH 1. intros [| |b|n|s|items|props] e; simpl; try discriminate.
  - intros S.
    match type of S with
    | bind ?r _ = _ => destruct r as [parts|e'] eqn:R; simpl in S
    end; [discriminate S|].
    injection S as ->. revert e R.
    induction items as [|x l IHl]; intros e R; [discriminate R|].
    destruct (nullish x).
    + simpl in R.
      match type of R with
      | bind ?r _ = _ => destruct r as [ss|e2] eqn:R2; simpl in R
      end; [discriminate R|].
      injection R as <-. now apply IHl.
    + destruct (ToString x) as [sx|e2] eqn:X; simpl in R.
      * match type of R with
        | bind ?r _ = _ => destruct r as [ss|e3] eqn:R2; simpl in R
        end; [discriminate R|].
        injection R as <-. now apply IHl.
      * injection R as <-. now apply IH with x.
  - destruct (lookup "toString" props); [|discriminate].
    intros S. now injection S as <-.
Qed.

Lemma toNum_Throw_message v e : toNum v = Throw e -> e = not_primitive.
Proof. intros H. apply toNum_Throw in H. now apply ToString_Throw_message in H. Qed.

Lemma extractBaseFields_spec :
  forall now raw,
    (extractBaseFields now raw = Throw missing_id
     <-> truthy (get "id" raw) = false /\ truthy (get "model_id" raw) = false)
    /\ (forall base, extractBaseFields now raw = Ok base ->
          get "id" base = js_or (get "id" raw) (get "model_id" raw)
          /\ truthy (get "id" base) = true
          /\ truthy (get "name" base) = true
          /\ exists c, get "created" base = VNum c
                       /\ (Number_isNaN now = false -> Number_isNaN c = false)).
Proof.
  intros now raw. unfold extractBaseFields.
  set (id := js_or (js_or (get "id" raw) (get "model_id" raw)) (VStr EmptyString)).
  assert (T : truthy id = truthy (get "id" raw) || truthy (get "model_id" raw)).
  { unfold id. rewrite !truthy_js_or. simpl. now rewrite orb_false_r. }
  assert (E : truthy id = true -> id = js_or (get "id" raw) (get "model_id" raw)).
  { unfold id at 2. unfold js_or at 1. fold id.
    destruct (truthy (js_or (get "id" raw) (get "model_id" raw))) eqn:U;
      [reflexivity|].
    intros H. rewrite T in H. rewrite truthy_js_or in U. congruence. }
  split.
  - destruct (truthy id) eqn:U; simpl.
    + split.
      * intros H. exfalso.
        apply (f_equal (fun r => match r with
                                 | Throw e => String.eqb e missing_id
                                 | Ok _ => false
                                 end)) in H.
        rewrite String.eqb_refl in H. unfold missing_id in H.
        destruct id as [| |b|n|s|items|props]; simpl in H;
          try discriminate H.
        -- destruct (toNum (get "created" raw)) as [c|e] eqn:C;
             simpl in H; [discriminate H|].
           apply toNum_Throw_message in C. subst e.
           unfold not_primitive in H. simpl in H. discriminate H.
        -- destruct (existsb (is_string "/") items); [discriminate H|].
           simpl in H. destruct (toNum (get "created" raw)) as [c|e] eqn:C;
             simpl in H; [discriminate H|].
           apply toNum_Throw_message in C. subst e.
           unfold not_primitive in H. simpl in H. discriminate H.
      * intros [A B]. rewrite A, B in T. discriminate T.
    + split; [intros _ | reflexivity].
      symmetry in T. now apply orb_false_iff in T.
  - intros base H. destruct (truthy id) eqn:U; simpl in H; [|discriminate H].
    apply bind_Ok in H. destruct H as (provider & _ & H).
    apply bind_Ok in H. destruct H as (created & C & H).
    injection H as <-.
    change (get "id" (VObj (("id", id) :: ?l))) with id.
    split; [now apply E|]. split; [exact U|]. split.
    + simpl. rewrite !truthy_js_or, U. apply orb_true_r.
    + eexists. split; [reflexivity|]. intros N.
      destruct created as [c|]; simpl; [|exact N].
      now apply toNum_not_NaN in C.
Qed.

Lemma base_keys_kept now raw m extra :
  (do base <- extractBaseFields now raw; Ok (VObj (spread base ++ extra))) = Ok m ->
  exists base, extractBaseFields now raw = Ok base
    /\ forall k, In k base_keys -> get k m = get k base.
Proof.
  intros H. apply bind_Ok in H. destruct H as (base & B & H).
  exists base. split; [exact B|].
  apply extractBaseFields_Ok in B.
  destruct B as (v1 & v2 & v3 & v4 & v5 & v6 & v7 & v8 & v9 & v10 & v11 & -> & _).
  injection H as <-. intros k I. simpl in I.
  destruct I as [<-|[<-|[<-|[<-|[<-|[<-|[<-|[<-|[<-|[<-|[<-|[<-|[]]]]]]]]]]]]];
    reflexivity.
Qed.

Ltac variant_result H :=
  match type of H with
  | bind (extractBaseFields ?now ?raw) _ = Ok _ =>
      let base := fresh "base" in
      let B := fresh "B" in
      destruct (extractBaseFields now raw) as [base|] eqn:B;
      [cbn [bind] in H | discriminate H];
      repeat match type of H with
             | bind ?r _ = Ok _ => destruct r; [cbn [bind] in H | discriminate H]
             end;
      try match goal with
          | p : (value * value * value * value)%type |- _ =>
              destruct p as [[[? ?] ?] ?]
          end
  end.

Lemma dispatch_base_fields :
  forall t now raw,
    (forall e, extractBaseFields now raw = Throw e -> dispatch t now raw = Throw e)
    /\ (forall m, dispatch t now raw = Ok m ->
          exists base, extractBaseFields now raw = Ok base
            /\ forall k, In k base_keys -> get k m = get k base).
Proof.
  intros t now raw. split.
  - intros e B.
    destruct t; simpl;
      [ unfold normalizeTextModel | unfold normalizeImageModel
      | unfold normalizeVideoModel | unfold normalizeInpaintModel
      | unfold normalizeEmbeddingModel | unfold normalizeTtsModel
      | unfold normalizeAsrModel | unfold normalizeUpscaleModel ];
      now rewrite B.
  - intros m H.
    assert (G : exists extra,
              (do base <- extractBaseFields now raw;
               Ok (VObj (spread base ++ extra))) = Ok m).
    { destruct t; simpl in H;
        [ unfold normalizeTextModel in H | unfold normalizeImageModel in H
        | unfold normalizeVideoModel in H | unfold normalizeInpaintModel in H
        | unfold normalizeEmbeddingModel in H | unfold normalizeTtsModel in H
        | unfold normalizeAsrModel in H | unfold normalizeUpscaleModel in H ];
        variant_result H; injection H as <-; eexists; reflexivity. }
    destruct G as (extra & G). now apply base_keys_kept with extra.
Qed.




Lemma before_char_app p rest :
  includes_char "/" p = false ->
  before_char "/" (p ++ String "/" rest) = p
  /\ includes_char "/" (p ++ String "/" rest) = true.
Proof.
  induction p as [|x p IH]; intros H; [split; reflexivity|].
  cbn [includes_char] in H. apply orb_false_iff in H. destruct H as [X H].
  destruct (IH H) as [A B].
  cbn [append before_char includes_char]. rewrite X, A, B. split; reflexivity.
Qed.

(** X2.  [extractBaseFields] refuses a record with the message "Model
    missing required id field" exactly when [raw.id] and [raw.model_id] are
    both falsy.  What it returns has the id [raw.id || raw.model_id], which
    is truthy, a truthy name, and a [created] that is a number -- not NaN,
    as long as the clock is not. *)
Theorem base_fields_of_a_record :
  forall now raw,
    is_record raw = true ->
    (extractBaseFields now raw = Throw missing_id
     <-> truthy (get "id" raw) = false /\ truthy (get "model_id" raw) = false)
    /\ (forall base, extractBaseFields now raw = Ok base ->
          get "id" base = js_or (get "id" raw) (get "model_id" raw)
          /\ truthy (get "id" base) = true
          /\ truthy (get "name" base) = true
          /\ exists c, get "created" base = VNum c
                       /\ (Number_isNaN now = false -> Number_isNaN c = false)).
Proof. intros now raw _. apply extractBaseFields_spec. Qed.

Lemma base_fields_of_a_record_witness :
  extractBaseFields (num 0) (VObj [("id", VStr EmptyString); ("name", VStr "m")])
  = Throw missing_id.
Proof.
  destruct (@base_fields_of_a_record (num 0)
              (VObj [("id", VStr EmptyString); ("name", VStr "m")]) eq_refl)
    as [[_ G] _].
  apply G. split; reflexivity.
Defined.

(** X3.  On a record, each of the eight normalizers fails as
    [extractBaseFields] does when that fails, and what it returns has the
    twelve base fields as [extractBaseFields] gave them: the fields a
    variant adds shadow none of them. *)
Theorem normalizers_keep_base_fields :
  forall t now raw,
    is_record raw = true ->
    (forall e, extractBaseFields now raw = Throw e -> dispatch t now raw = Throw e)
    /\ (forall m, dispatch t now raw = Ok m ->
          exists base, extractBaseFields now raw = Ok base
            /\ forall k, In k base_keys -> get k m = get k base).
Proof. intros t now raw _. apply dispatch_base_fields. Qed.

Lemma normalizers_keep_base_fields_witness :
  normalizeImageModel (num 0) (VObj [("name", VStr "m")]) = Throw missing_id.
Proof.
  destruct (@normalizers_keep_base_fields image (num 0)
              (VObj [("name", VStr "m")]) eq_refl) as [G _].
  apply (G missing_id). reflexivity.
Defined.




(** X6.  The provider of a record whose id is [p/rest], [p] without a
    slash, is [p]: the part of the id before its first slash, whatever
    [owned_by] says. *)
Theorem provider_is_the_part_before_the_slash :
  forall now raw p rest base,
    get "id" raw = VStr (p ++ "/" ++ rest) ->
    includes_char "/" p = false ->
    extractBaseFields now raw = Ok base ->
    get "provider" base = VStr p.
Proof.
  intros now raw p rest base I P H.
  destruct (before_char_app p rest P) as [A B].
  change (p ++ "/" ++ rest) with (p ++ String "/" rest) in I.
  unfold extractBaseFields in H. rewrite I in H.
  assert (T : truthy (VStr (p ++ String "/" rest)) = true).
  { simpl. destruct p; reflexivity. }
  assert (J : js_or (js_or (VStr (p ++ String "/" rest)) (get "model_id" raw))
                (VStr EmptyString) = VStr (p ++ String "/" rest)).
  { unfold js_or at 2. rewrite T. unfold js_or. now rewrite T. }
  rewrite !J, T in H. cbn [negb] in H. cbv iota in H. rewrite B, A in H.
  apply bind_Ok in H. destruct H as (provider & E & H).
  injection E as <-.
  apply bind_Ok in H. destruct H as (created & _ & H).
  now injection H as <-.
Qed.

Lemma provider_is_the_part_before_the_slash_witness :
  get "provider"
    match extractBaseFields (num 0) (VObj [("id", VStr "anthropic/claude-3/x")]) with
    | Ok base => base
    | Throw _ => VUndefined
    end = VStr "anthropic".
Proof.
  apply (provider_is_the_part_before_the_slash (num 0)
           (VObj [("id", VStr "anthropic/claude-3/x")]) "anthropic" "claude-3/x");
    reflexivity.
Defined.

(** ** The hook: its request, its state and its trace *)

Lemma rmatch_trailing_slashes : forall s prev,
  rmatch false trailing_slashes prev s (fun _ rest => Some rest)
  = if slashes s then Some [] else None.
Proof.
  intros s prev. unfold trailing_slashes. cbn [rmatch].
  set (k := fun (p' : option ascii) (s' : list ascii) =>
              match s' with [] => Some s' | _ :: _ => None end).
  assert (G : forall fuel s prev, (List.length s < fuel)%nat ->
            (fix more (fuel : nat) (prev : option ascii) (s : list ascii) {struct fuel} :=
               match fuel with
               | O => None
               | S fuel' =>
                   match s with
                   | [] => None
                   | c :: rest =>
                       if chr_matches false "/" c
                       then match
                              (if (List.length rest <? List.length s)%nat
                               then more fuel' (Some c) rest else None)
                            with
                            | Some e => Some e
                            | None => k (Some c) rest
                            end
                       else None
                   end
               end) fuel prev s
            = if slashes s then Some [] else None).
  { induction fuel as [|fuel IH]; intros s0 prev0 L; [lia|].
    destruct s0 as [|c rest]; [reflexivity|].
    unfold chr_matches. cbn [slashes forallb].
    destruct (Ascii.eqb "/" c); [|reflexivity].
    assert (T : (List.length rest <? List.length (c :: rest))%nat = true).
    { apply Nat.ltb_lt. simpl. lia. }
    rewrite T, IH by (simpl in L; lia).
    destruct rest as [|c2 rest]; [reflexivity|].
    cbn [slashes andb]. now destruct (forallb (Ascii.eqb "/") (c2 :: rest)). }
  destruct s as [|c rest]; [reflexivity|].
  unfold chr_matches. cbn [slashes forallb].
  destruct (Ascii.eqb "/" c); [|reflexivity].
  assert (T : (List.length rest <? List.length (c :: rest))%nat = true).
  { apply Nat.ltb_lt. simpl. lia. }
  rewrite T. unfold k in G. unfold chr_matches in G. rewrite G by (simpl; lia).
  destruct rest as [|c2 rest]; [reflexivity|].
  cbn [slashes andb]. now destruct (forallb (Ascii.eqb "/") (c2 :: rest)).
Qed.

Lemma search_trailing_slashes : forall s prev,
  match search false trailing_slashes prev s with
  | Some (before, rest) => (before ++ rest)%list = without_trailing_slashes s
  | None => without_trailing_slashes s = s
  end.
Proof.
  induction s as [|c s IH]; intros prev.
  - reflexivity.
  - cbn [search]. rewrite rmatch_trailing_slashes.
    cbn [without_trailing_slashes].
    destruct (slashes (c :: s)); [reflexivity|].
    specialize (IH (Some c)).
    destruct (search false trailing_slashes (Some c) s) as [[before rest]|].
    + simpl. now rewrite IH.
    + now rewrite IH.
Qed.

Lemma regex_remove_trailing_slashes base :
  regex_remove false trailing_slashes base = cleanBase base.
Proof.
  unfold regex_remove, cleanBase.
  pose proof (search_trailing_slashes (list_ascii_of_string base) None) as H.
  destruct (search false trailing_slashes None (list_ascii_of_string base))
    as [[before rest]|].
  - now rewrite H.
  - now rewrite H, string_of_list_ascii_of_string.
Qed.

Lemma slashes_app s : slashes (s ++ ["/"%char]) = (slashes s || match s with [] => true | _ => false end).
Proof.
  destruct s as [|c s]; [reflexivity|].
  cbn [slashes app]. rewrite orb_false_r.
  change (c :: s ++ ["/"%char])%list with ((c :: s) ++ ["/"%char])%list.
  rewrite forallb_app. simpl. now rewrite !andb_true_r.
Qed.

Lemma without_trailing_slashes_app s :
  without_trailing_slashes (s ++ ["/"%char]) = without_trailing_slashes s.
Proof.
  induction s as [|c s IH]; [reflexivity|].
  change ((c :: s) ++ ["/"%char])%list with (c :: (s ++ ["/"%char]))%list.
  cbn [without_trailing_slashes].
  change (c :: (s ++ ["/"%char]))%list with ((c :: s) ++ ["/"%char])%list.
  rewrite slashes_app, orb_false_r. now rewrite IH.
Qed.

Lemma without_trailing_slashes_nil s :
  without_trailing_slashes s = [] -> s = [] \/ slashes s = true.
Proof.
  destruct s as [|c s]; [now left|]. cbn [without_trailing_slashes].
  destruct (slashes (c :: s)); [now right | discriminate].
Qed.

Lemma without_trailing_slashes_spec s :
  (exists tail,
     s = (without_trailing_slashes s ++ tail)%list
     /\ forallb (Ascii.eqb "/") tail = true)
  /\ forall l, without_trailing_slashes s <> (l ++ ["/"%char])%list.
Proof.
  induction s as [|c s [(tail & E & F) N]].
  - split; [exists []; auto|]. intros [|? ?]; discriminate.
  - cbn [without_trailing_slashes]. destruct (slashes (c :: s)) eqn:S.
    + split; [exists (c :: s); auto|]. intros [|? ?]; discriminate.
    + split.
      * exists tail. split; [simpl; now rewrite <- E | exact F].
      * intros [|x l] H; simpl in H; injection H as -> H.
        -- apply without_trailing_slashes_nil in H. destruct H as [->|H].
           ++ discriminate S.
           ++ cbn [slashes forallb] in S. rewrite Ascii.eqb_refl in S.
              destruct s; [discriminate H|]. cbn [slashes] in H.
              rewrite H in S. discriminate S.
        -- now apply N in H.
Qed.

Lemma list_ascii_of_string_app a b :
  list_ascii_of_string (a ++ b)
  = (list_ascii_of_string a ++ list_ascii_of_string b)%list.
Proof. induction a as [|c a IH]; simpl; [reflexivity | now rewrite IH]. Qed.

Lemma string_of_list_ascii_app a b :
  string_of_list_ascii (a ++ b)
  = string_of_list_ascii a ++ string_of_list_ascii b.
Proof. induction a as [|c a IH]; simpl; [reflexivity | now rewrite IH]. Qed.

Lemma cleanBase_slash base : cleanBase (base ++ "/") = cleanBase base.
Proof.
  unfold cleanBase. rewrite list_ascii_of_string_app.
  change (list_ascii_of_string "/") with ["/"%char].
  now rewrite without_trailing_slashes_app.
Qed.

Section RequestUrl.
Variable Model : Type.

Lemma request_url_cleanBase base (props : UseModelsProps Model) :
  request_url base props = cleanBase base ++ "/models" ++ query_suffix props.
Proof. unfold request_url. now rewrite regex_remove_trailing_slashes. Qed.

(** X7.  The request goes to the base URL without the slashes it ends
    with, followed by [/models] and the query: one more slash at the end of
    the base URL changes nothing, the base URL is what is kept followed by
    slashes only, and what is kept does not end with a slash. *)
Theorem request_url_drops_trailing_slashes :
  forall base (props : UseModelsProps Model),
    request_url base props = cleanBase base ++ "/models" ++ query_suffix props
    /\ request_url (base ++ "/") props = request_url base props
    /\ (exists tail,
          base = cleanBase base ++ tail
          /\ forallb (Ascii.eqb "/") (list_ascii_of_string tail) = true)
    /\ (forall l, cleanBase base <> l ++ "/").
Proof.
  intros base props. split; [apply request_url_cleanBase|]. split.
  { now rewrite !request_url_cleanBase, cleanBase_slash. }
  destruct (without_trailing_slashes_spec (list_ascii_of_string base))
    as [(tail & E & F) N].
  split.
  - exists (string_of_list_ascii tail). split.
    + unfold cleanBase. rewrite <- string_of_list_ascii_app, <- E.
      now rewrite string_of_list_ascii_of_string.
    + now rewrite list_ascii_of_string_of_list_ascii.
  - intros l H. apply (N (list_ascii_of_string l)).
    unfold cleanBase in H.
    apply (f_equal list_ascii_of_string) in H.
    now rewrite list_ascii_of_string_of_list_ascii, list_ascii_of_string_app in H.
Qed.

End RequestUrl.

Lemma request_url_drops_trailing_slashes_witness :
  request_url "https://api.example.com/v1///" (sample_props None [])
  = "https://api.example.com/v1/models"
  /\ cleanBase "https://api.example.com/v1///" = "https://api.example.com/v1".
Proof.
  destruct (request_url_drops_trailing_slashes "https://api.example.com/v1///"
              (sample_props None [])) as (E & _).
  split; [rewrite E|]; reflexivity.
Defined.

Section HookFurther.
Variable Model : Type.
Variable has_id : Model -> bool.
Variable has_type : ModelType -> Model -> bool.

Lemma effect_with_type production stale t (props : UseModelsProps Model) st :
  effect has_id production stale (with_type t props) st
  = effect has_id production stale props st.
Proof. reflexivity. Qed.

(** X8.  [type] takes no part in the request: whatever [type] is, the
    hook makes the calls it makes without one and settles in the same
    state; it returns the models of that state that have the type. *)
Theorem type_filter_is_client_side :
  forall production t (props : UseModelsProps Model),
    let all := useModels has_id has_type production (with_type None props) in
    useModels has_id has_type production (with_type t props)
    = ({| models := match t with
                    | None => models (fst all)
                    | Some t' => filter (has_type t') (models (fst all))
                    end;
          result_loading := result_loading (fst all);
          result_error := result_error (fst all) |},
       snd all).
Proof.
  intros production t props. unfold useModels.
  rewrite !effect_with_type.
  change (initial_state (with_type t props)) with (initial_state props).
  change (initial_state (with_type None props)) with (initial_state props).
  destruct (effect has_id production false props (initial_state props))
    as [st events].
  unfold result_of. simpl. now destruct t.
Qed.



Lemma normalize_each_events production normalize raws :
  forallb is_warning (snd (normalize_each has_id production normalize raws)) = true
  /\ (production = true ->
      snd (normalize_each has_id production normalize raws) = []).
Proof.
  induction raws as [|raw raws [W P]]; simpl; [auto|].
  destruct (normalize raw) as [[model|]|e].
  - destruct (normalize_each has_id production normalize raws) as [r events].
    now destruct (has_id model).
  - auto.
  - destruct production; [auto|].
    destruct (warning_message raw); [|split; [reflexivity | discriminate]].
    destruct (normalize_each has_id false normalize raws) as [r events].
    split; [exact W | discriminate].
Qed.


Lemma read_response_events production (props : UseModelsProps Model) outcome :
  forallb is_warning (snd (read_response has_id production props outcome)) = true
  /\ (production = true ->
      snd (read_response has_id production props outcome) = []).
Proof.
  unfold read_response. destruct outcome as [e|ok status json]; [auto|].
  destruct (negb ok); [auto|].
  destruct json as [body|e]; [|auto].
  destruct (invalid_body body); [auto|].
  destruct (match responseExtractor props with
            | Some f => f
            | None => fun b => Ok (defaultResponseExtractor b)
            end body) as [items|e]; [|auto].
  apply normalize_each_events.
Qed.


(** X10.  What a run of the effect does to the outside: nothing, or one
    request to a valid endpoint, at the URL and with the headers of the
    props, followed by warnings only -- and by none in a production
    build. *)
Theorem effect_makes_at_most_one_request :
  forall production stale (props : UseModelsProps Model) st,
    let events := snd (effect has_id production stale props st) in
    events = []
    \/ exists base warnings,
         baseUrl props = Some base
         /\ has_http_scheme base = true
         /\ events = Fetched (request_url base props) (request_headers props)
                       :: warnings
         /\ forallb is_warning warnings = true
         /\ (production = true -> warnings = []).
Proof.
  intros production stale props st. unfold effect.
  destruct (baseUrl props) as [base|] eqn:B; simpl; [|now left].
  destruct (String.eqb base EmptyString); simpl; [now left|].
  rewrite scheme_pattern_spec.
  destruct (has_http_scheme base) eqn:S; simpl; [|now left].
  right. unfold fetchModels.
  pose proof (@read_response_events production props
                (fetcher props (request_url base props) (request_headers props)))
    as [W P].
  destruct (read_response has_id production props _) as [outcome events].
  exists base, events. simpl in *.
  destruct stale; [|destruct outcome]; simpl; auto.
Qed.






End HookFurther.


Lemma set_each_In items : forall mp k m,
  In (k, m) (set_each items mp) -> In m items \/ In (k, m) mp.
Proof.
  unfold set_each.
  induction items as [|x items IH]; intros mp k m; simpl; [auto|].
  intros I. apply IH in I. destruct I as [I|I]; [auto|].
  apply map_set_In in I. destruct I as [[_ ->]|I]; auto.
Qed.

Lemma merge_In fetchedModels models k m :
  In (k, m) (merge fetchedModels models) -> In m models \/ In m fetchedModels.
Proof.
  unfold merge. intros I. apply set_each_In in I. destruct I as [I|I]; [auto|].
  apply set_each_In in I. destruct I as [I|[]]. auto.
Qed.

Lemma map_get_In k mp :
  In k (map fst mp) <-> map_get k mp <> None.
Proof.
  induction mp as [|[k' m] mp IH]; simpl; [tauto|].
  destruct (String.eqb_spec k k') as [->|N].
  - split; [discriminate | auto].
  - rewrite <- IH. split; [intros [E|I]; [congruence | exact I] | auto].
Qed.

Lemma last_with_id_In k items :
  last_with_id k items <> None <-> In k (map Types.id items).
Proof.
  unfold last_with_id. split.
  - destruct (find _ (rev items)) as [m|] eqn:F; [intros _ | congruence].
    apply find_some in F. destruct F as [I E].
    apply String.eqb_eq in E. subst k. apply in_map, in_rev, I.
  - intros I. apply in_map_iff in I. destruct I as (m & <- & I).
    destruct (find _ (rev items)) as [m'|] eqn:F; [discriminate|].
    apply find_none with (x := m) in F; [|now apply in_rev in I].
    now rewrite String.eqb_refl in F.
Qed.

Lemma merge_keys fetchedModels models k :
  In k (map fst (merge fetchedModels models))
  <-> In k (map Types.id models) \/ In k (map Types.id fetchedModels).
Proof.
  rewrite map_get_In. unfold merge. rewrite !set_each_get.
  rewrite <- !last_with_id_In. simpl.
  destruct (last_with_id k models), (last_with_id k fetchedModels);
    split; intros H; try discriminate; auto; destruct H; congruence.
Qed.

Section SelectorFurther.
Variable Date_parse : string -> option Z.
Variable localeCompare : string -> string -> number.

Lemma merged_entries_ids models fetchedModels localFavorites controlled :
  map Types.id (map_values
                  (merged_entries models fetchedModels localFavorites controlled))
  = map fst (merge fetchedModels models).
Proof.
  destruct (merge_invariant fetchedModels models) as [N K].
  unfold merged_entries. destruct (negb controlled).
  - now apply overlay_ids.
  - now apply keyed_ids.
Qed.

Lemma allModels_memo_perm models fetchedModels sortOrder localFavorites
  controlled showDeprecated now :
  Permutation
    (allModels_memo Date_parse localeCompare models fetchedModels sortOrder
       localFavorites controlled showDeprecated now)
    (filter_stage Date_parse showDeprecated now
       (map_values (merged_entries models fetchedModels localFavorites controlled))).
Proof.
  unfold allModels_memo. rewrite partition_stage_filters.
  fold (merged_entries models fetchedModels localFavorites controlled).
  eapply perm_trans; [apply filter_partition_perm | apply sort_stage_perm].
Qed.

Lemma visible_not_past now m :
  visible Date_parse now m = true -> past_deprecated Date_parse now m = false.
Proof.
  unfold visible, past_deprecated, date_at_or_after, date_before.
  destruct (Types.deprecation m) as [d|]; [|reflexivity].
  destruct (Date_parse (Types.date d)) as [t|]; [|discriminate]. lia.
Qed.

Lemma filter_all (A : Type) (f : A -> bool) l :
  (forall x, In x l -> f x = true) -> filter f l = l.
Proof.
  induction l as [|x l IH]; intros H; simpl; [reflexivity|].
  rewrite (H x (or_introl eq_refl)), IH; [reflexivity|].
  intros y I. apply H. now right.
Qed.

Lemma filter_none (A : Type) (f : A -> bool) l :
  (forall x, In x l -> f x = false) -> filter f l = [].
Proof.
  induction l as [|x l IH]; intros H; simpl; [reflexivity|].
  rewrite (H x (or_introl eq_refl)). apply IH.
  intros y I. apply H. now right.
Qed.

Lemma merged_entries_In models fetchedModels localFavorites controlled m :
  In m (map_values (merged_entries models fetchedModels localFavorites controlled)) ->
  exists m0,
    (In m0 models \/ In m0 fetchedModels)
    /\ m = (if negb controlled && favorites_has localFavorites (Types.id m0)
            then Types.with_favorite m0 else m0).
Proof.
  destruct (merge_invariant fetchedModels models) as [N K].
  unfold merged_entries, map_values. intros I.
  apply in_map_iff in I. destruct I as ([k x] & <- & I).
  destruct (negb controlled); simpl.
  - rewrite overlay_favorites_entries in I by assumption.
    apply in_map_iff in I. destruct I as ([k0 m0] & E & I).
    exists m0. split; [now apply merge_In in I|].
    unfold overlay_entry in E. simpl in E.
    destruct (favorites_has localFavorites (Types.id m0));
      now injection E as <- <-.
  - exists x. split; [now apply merge_In in I | reflexivity].
Qed.

(** X12.  With deprecated models shown, the list holds every model: an id
    is the id of a listed model exactly when it is the id of a static or
    of a fetched model, whatever the sort order, the favorites and the
    date are. *)
Theorem every_model_is_listed :
  forall models fetchedModels sortOrder localFavorites controlled now k,
    In k (map Types.id
            (allModels_memo Date_parse localeCompare models fetchedModels
               sortOrder localFavorites controlled true now))
    <-> In k (map Types.id models) \/ In k (map Types.id fetchedModels).
Proof.
  intros models fetchedModels sortOrder localFavorites controlled now k.
  rewrite <- merge_keys.
  rewrite <- (merged_entries_ids models fetchedModels localFavorites controlled).
  pose proof (allModels_memo_perm models fetchedModels sortOrder localFavorites
                controlled true now) as P.
  simpl in P. apply (Permutation_map Types.id) in P.
  split; intros I.
  - eapply Permutation_in; [exact P | exact I].
  - eapply Permutation_in; [apply Permutation_sym, P | exact I].
Qed.

(** X13.  With deprecated models hidden, the list is the sort of the
    visible merged models: no past-deprecated model is left for the last
    stage to move to the end, every listed model is visible, and every
    visible merged model is listed. *)
Theorem hidden_models_are_filtered_before_the_sort :
  forall models fetchedModels sortOrder localFavorites controlled now,
    let listed :=
      allModels_memo Date_parse localeCompare models fetchedModels sortOrder
        localFavorites controlled false now in
    listed
    = sort_stage localeCompare sortOrder
        (filter (visible Date_parse now)
           (map_values
              (merged_entries models fetchedModels localFavorites controlled)))
    /\ (forall m, In m listed ->
          visible Date_parse now m = true
          /\ past_deprecated Date_parse now m = false)
    /\ (forall m,
          In m (map_values
                  (merged_entries models fetchedModels localFavorites controlled)) ->
          visible Date_parse now m = true -> In m listed).
Proof.
  intros models fetchedModels sortOrder localFavorites controlled now listed.
  pose proof (allModels_memo_perm models fetchedModels sortOrder localFavorites
                controlled false now) as P.
  fold listed in P. simpl in P.
  assert (V : forall m, In m listed -> visible Date_parse now m = true).
  { intros m I. eapply Permutation_in in I; [|exact P].
    now apply filter_In in I. }
  split; [|split].
  - unfold listed, allModels_memo. rewrite partition_stage_filters.
    fold (merged_entries models fetchedModels localFavorites controlled).
    set (sorted := sort_stage localeCompare sortOrder _).
    assert (S : forall m, In m sorted -> past_deprecated Date_parse now m = false).
    { intros m I. apply visible_not_past.
      eapply Permutation_in in I; [|apply sort_stage_perm].
      now apply filter_In in I. }
    rewrite filter_all, filter_none, app_nil_r; [reflexivity | exact S |].
    intros m I. now rewrite (S m I).
  - intros m I. split; [now apply V | now apply visible_not_past, V].
  - intros m I E. eapply Permutation_in; [apply Permutation_sym, P|].
    apply filter_In. auto.
Qed.

(** X14.  A listed model is a static or a fetched model, unchanged -- or,
    when the favorites are kept by the component ([onToggleFavorite] is
    absent) and its id is one of the stored ids, that model with
    [is_favorite] set to true.  The overlay changes no id and no other
    field, and marks nothing when the favorites are controlled. *)
Theorem favorites_overlay_marks_only_the_stored_ids :
  forall models fetchedModels sortOrder localFavorites controlled
         showDeprecated now m,
    In m (allModels_memo Date_parse localeCompare models fetchedModels
            sortOrder localFavorites controlled showDeprecated now) ->
    exists m0,
      (In m0 models \/ In m0 fetchedModels)
      /\ Types.id m = Types.id m0
      /\ m = (if negb controlled && favorites_has localFavorites (Types.id m0)
              then Types.with_favorite m0 else m0).
Proof.
  intros models fetchedModels sortOrder localFavorites controlled
         showDeprecated now m I.
  eapply Permutation_in in I; [|apply allModels_memo_perm].
  assert (I' : In m (map_values
             (merged_entries models fetchedModels localFavorites controlled))).
  { unfold filter_stage in I. destruct (negb showDeprecated); [|exact I].
    now apply filter_In in I. }
  apply merged_entries_In in I'. destruct I' as (m0 & O & E).
  exists m0. split; [exact O|]. split; [|exact E].
  rewrite E. now destruct (negb controlled && favorites_has localFavorites (Types.id m0)).
Qed.

Lemma allModels_memo_NoDup models fetchedModels sortOrder localFavorites
  controlled showDeprecated now :
  NoDup (map Types.id
           (allModels_memo Date_parse localeCompare models fetchedModels
              sortOrder localFavorites controlled showDeprecated now)).
Proof.
  eapply Permutation_NoDup;
    [apply Permutation_map, Permutation_sym, allModels_memo_perm|].
  assert (V : NoDup (map Types.id (map_values
                (merged_entries models fetchedModels localFavorites controlled)))).
  { rewrite merged_entries_ids. apply merge_invariant. }
  unfold filter_stage. destruct (negb showDeprecated);
    [now apply NoDup_map_filter | exact V].
Qed.

Lemma find_by_id l : forall m,
  NoDup (map Types.id l) -> In m l ->
  find (fun x => String.eqb (Types.id x) (Types.id m)) l = Some m.
Proof.
  induction l as [|x l IH]; intros m N I; [destruct I|].
  simpl in N. inversion N as [|? ? X N']; subst.
  simpl. destruct I as [->|I]; [now rewrite String.eqb_refl|].
  destruct (String.eqb_spec (Types.id x) (Types.id m)) as [E|_]; [|now apply IH].
  exfalso. apply X. rewrite E. now apply in_map.
Qed.

Lemma find_no_id l k :
  ~ In k (map Types.id l) ->
  find (fun x => String.eqb (Types.id x) k) l = None.
Proof.
  induction l as [|x l IH]; simpl; intros N; [reflexivity|].
  destruct (String.eqb_spec (Types.id x) k) as [E|_]; [tauto|].
  apply IH. tauto.
Qed.

(** X15.  Ids are unique in the list, so selection by id is exact:
    [handleModelSelect] on the id of a listed model reports that very
    model to [onChange] and closes the popover, [selectedModel] finds it,
    and an id that is not listed is reported with [null].  The Favorites
    and All Models groups together hold each listed model once: they are a
    rearrangement of the list, and no model is in both. *)
Theorem selecting_a_listed_model_reports_it :
  forall models fetchedModels sortOrder localFavorites controlled
         showDeprecated now,
    let listed :=
      allModels_memo Date_parse localeCompare models fetchedModels sortOrder
        localFavorites controlled showDeprecated now in
    (forall m, In m listed ->
       handleModelSelect listed (Types.id m) = (Types.id m, Some m, false)
       /\ selectedModel listed (Some (Types.id m)) = Some m)
    /\ (forall k, ~ In k (map Types.id listed) ->
          handleModelSelect listed k = (k, None, false)
          /\ selectedModel listed (Some k) = None)
    /\ Permutation (favorites listed ++ otherModels listed) listed
    /\ (forall m, In m (favorites listed) -> ~ In m (otherModels listed)).
Proof.
  intros models fetchedModels sortOrder localFavorites controlled
         showDeprecated now listed.
  pose proof (allModels_memo_NoDup models fetchedModels sortOrder localFavorites
                controlled showDeprecated now) as N.
  fold listed in N.
  split; [|split; [|split]].
  - intros m I. unfold handleModelSelect, selectedModel.
    now rewrite (@find_by_id listed m N I).
  - intros k I. unfold handleModelSelect, selectedModel.
    now rewrite (@find_no_id listed k I).
  - unfold favorites, otherModels.
    eapply perm_trans; [apply Permutation_app_comm|].
    apply filter_partition_perm.
  - unfold favorites, otherModels. intros m F O.
    apply filter_In in F. apply filter_In in O.
    destruct F as [_ F], O as [_ O]. rewrite F in O. discriminate O.
Qed.

End SelectorFurther.

Lemma favorites_overlay_marks_only_the_stored_ids_witness :
  In (Types.with_favorite model_A)
     (allModels_memo iso_Date_parse ordinal_compare [model_A] [fetched_A]
        sort_name ["a"] false true sample_now)
  /\ exists m0,
       (In m0 [model_A] \/ In m0 [fetched_A])
       /\ Types.id (Types.with_favorite model_A) = Types.id m0
       /\ Types.with_favorite model_A
          = (if negb false && favorites_has ["a"] (Types.id m0)
             then Types.with_favorite m0 else m0).
Proof.
  assert (I : In (Types.with_favorite model_A)
                (allModels_memo iso_Date_parse ordinal_compare [model_A]
                   [fetched_A] sort_name ["a"] false true sample_now))
    by (vm_compute; left; reflexivity).
  split; [exact I|].
  exact (@favorites_overlay_marks_only_the_stored_ids iso_Date_parse
           ordinal_compare [model_A] [fetched_A] sort_name ["a"] false true
           sample_now (Types.with_favorite model_A) I).
Defined.

Lemma favorites_has_app favs k x :
  favorites_has (favs ++ [x]) k = favorites_has favs k || String.eqb k x.
Proof.
  unfold favorites_has. rewrite existsb_app. simpl. now rewrite orb_false_r.
Qed.

Lemma favorites_has_filter favs k x :
  favorites_has (filter (fun id => negb (String.eqb id x)) favs) k
  = favorites_has favs k && negb (String.eqb k x).
Proof.
  unfold favorites_has. induction favs as [|y favs IH]; simpl; [reflexivity|].
  destruct (String.eqb_spec y x) as [->|N]; simpl.
  - rewrite IH. destruct (String.eqb_spec k x) as [->|_]; simpl.
    + now rewrite !andb_false_r.
    + now rewrite !andb_true_r.
  - rewrite IH. destruct (String.eqb_spec k y) as [->|_]; simpl; [|reflexivity].
    destruct (String.eqb_spec y x); [contradiction | reflexivity].
Qed.

Lemma toggle_has modelId prev k :
  favorites_has (toggle_local_favorite modelId prev) k
  = if String.eqb k modelId then negb (favorites_has prev modelId)
    else favorites_has prev k.
Proof.
  unfold toggle_local_favorite.
  fold (favorites_has prev modelId).
  destruct (favorites_has prev modelId) eqn:H.
  - rewrite favorites_has_filter.
    destruct (String.eqb_spec k modelId) as [->|_]; simpl.
    + now rewrite andb_false_r.
    + now rewrite andb_true_r.
  - rewrite favorites_has_app.
    destruct (String.eqb_spec k modelId) as [->|_]; simpl.
    + now rewrite orb_true_r.
    + now rewrite orb_false_r.
Qed.

(** X16.  Toggling a favorite in the uncontrolled mode flips whether that
    id is stored and leaves every other id as it was; toggling twice
    restores what is stored for every id; a list without repetition stays
    without repetition; and adding an id that was not stored and removing
    it again gives back the very list. *)
Theorem toggling_a_favorite_flips_its_membership :
  forall modelId prev,
    let next := toggle_local_favorite modelId prev in
    favorites_has next modelId = negb (favorites_has prev modelId)
    /\ (forall k, k <> modelId -> favorites_has next k = favorites_has prev k)
    /\ (forall k, favorites_has (toggle_local_favorite modelId next) k
                  = favorites_has prev k)
    /\ (NoDup prev -> NoDup next)
    /\ (favorites_has prev modelId = false ->
        toggle_local_favorite modelId next = prev).
Proof.
  intros modelId prev next. unfold next.
  split; [|split; [|split; [|split]]].
  - now rewrite toggle_has, String.eqb_refl.
  - intros k N. rewrite toggle_has.
    now destruct (String.eqb_spec k modelId).
  - intros k. rewrite !toggle_has, String.eqb_refl.
    destruct (String.eqb_spec k modelId) as [->|_]; [|reflexivity].
    now rewrite negb_involutive.
  - intros N. unfold toggle_local_favorite.
    destruct (existsb (String.eqb modelId) prev) eqn:H.
    + now apply NoDup_filter.
    + apply NoDup_app; [exact N | repeat constructor; intros [] |].
      intros x I [<-|[]]. apply existsb_eqb_In in I. congruence.
  - intros H. unfold toggle_local_favorite at 2.
    fold (favorites_has prev modelId). rewrite H.
    unfold toggle_local_favorite.
    assert (E : existsb (String.eqb modelId) (prev ++ [modelId]) = true).
    { rewrite existsb_app. simpl. now rewrite String.eqb_refl, orb_true_r. }
    rewrite E, filter_app. simpl. rewrite String.eqb_refl. simpl.
    rewrite app_nil_r. apply filter_all.
    intros x I. destruct (String.eqb_spec x modelId) as [->|_]; [|reflexivity].
    apply existsb_eqb_In in I. unfold favorites_has in H. congruence.
Qed.

Section OrderingProperties.
Variable A : Type.
Variable compare : A -> A -> number.

Lemma consistent_on_total items a b :
  consistent_on compare items = true -> In a items -> In b items ->
  not_after compare a b = true \/ not_after compare b a = true.
Proof.
  unfold consistent_on. intros C Ia Ib.
  rewrite forallb_forall in C. specialize (C a Ia).
  rewrite forallb_forall in C. specialize (C b Ib).
  apply andb_true_iff in C. destruct C as [C _].
  now apply orb_true_iff in C.
Qed.

Lemma consistent_on_trans items a b c :
  consistent_on compare items = true ->
  In a items -> In b items -> In c items ->
  not_after compare a b = true -> not_after compare b c = true ->
  not_after compare a c = true.
Proof.
  unfold consistent_on. intros C Ia Ib Ic Rab Rbc.
  rewrite forallb_forall in C. specialize (C a Ia).
  rewrite forallb_forall in C. specialize (C b Ib).
  apply andb_true_iff in C. destruct C as [_ C].
  rewrite forallb_forall in C. specialize (C c Ic).
  now rewrite Rab, Rbc in C.
Qed.

Lemma insert_sorted_in_order items x l :
  consistent_on compare items = true ->
  In x items -> (forall y, In y l -> In y items) ->
  in_order compare l -> in_order compare (insert_sorted compare x l).
Proof.
  intros C Ix. unfold in_order.
  induction l as [|y l IH]; intros Il S; simpl.
  - repeat constructor.
  - inversion S as [|? ? S' F]; subst.
    destruct (num_pos (compare x y)) eqn:P.
    + constructor; [apply IH; [intros z I; apply Il; now right | exact S']|].
      apply Forall_forall. intros z I.
      eapply Permutation_in in I; [|apply insert_sorted_perm].
      destruct I as [<-|I].
      * destruct (@consistent_on_total items x y C Ix (Il y (or_introl eq_refl)))
          as [R|R]; [|exact R].
        unfold not_after in R. rewrite P in R. discriminate R.
      * rewrite Forall_forall in F. now apply F.
    + constructor; [exact S|].
      assert (R : not_after compare x y = true) by (unfold not_after; now rewrite P).
      constructor; [exact R|].
      apply Forall_forall. intros z I.
      rewrite Forall_forall in F.
      apply (@consistent_on_trans items x y z C Ix
               (Il y (or_introl eq_refl)) (Il z (or_intror I)) R (F z I)).
Qed.

Lemma Array_sort_in_order items :
  consistent_on compare items = true ->
  in_order compare (Array_sort compare items).
Proof.
  intros C. unfold Array_sort.
  assert (G : forall l, (forall y, In y l -> In y items) ->
            in_order compare (fold_right (insert_sorted compare) [] l)).
  { induction l as [|x l IH]; intros Il; simpl; [constructor|].
    apply insert_sorted_in_order with items.
    - exact C.
    - apply Il. now left.
    - intros y I. apply Il. right.
      eapply Permutation_in; [apply (Array_sort_perm compare l) | exact I].
    - apply IH. intros y I. apply Il. now right. }
  apply G. auto.
Qed.

Lemma in_order_filter (f : A -> bool) l :
  in_order compare l -> in_order compare (filter f l).
Proof.
  unfold in_order. induction 1 as [|x l S IH F]; simpl; [constructor|].
  destruct (f x); [|exact IH].
  constructor; [exact IH|].
  rewrite Forall_forall in *. intros y I. apply F.
  now apply filter_In in I.
Qed.

End OrderingProperties.

Section SortFurther.
Variable Date_parse : string -> option Z.
Variable localeCompare : string -> string -> number.

Lemma sort_stage_comparator sortOrder items :
  sort_stage localeCompare sortOrder items
  = Array_sort (comparator localeCompare sortOrder) items.
Proof. now destruct sortOrder. Qed.

(** X17.  When the comparator of the sort order is consistent on the
    models that reach the sort -- of two of them one may stand before the
    other, and "may stand before" is transitive -- the list is the models
    that are not past-deprecated followed by those that are, and each of
    the two groups is in sort order: moving the deprecated models to the end
    does not disturb the order within either group. *)
Theorem both_groups_are_in_sort_order :
  forall models fetchedModels sortOrder localFavorites controlled
         showDeprecated now,
    consistent_on (comparator localeCompare sortOrder)
      (filter_stage Date_parse showDeprecated now
         (map_values
            (merged_entries models fetchedModels localFavorites controlled)))
    = true ->
    exists nonDeprecated deprecated,
      allModels_memo Date_parse localeCompare models fetchedModels sortOrder
        localFavorites controlled showDeprecated now
      = (nonDeprecated ++ deprecated)%list
      /\ Forall (fun m => past_deprecated Date_parse now m = false) nonDeprecated
      /\ Forall (fun m => past_deprecated Date_parse now m = true) deprecated
      /\ in_order (comparator localeCompare sortOrder) nonDeprecated
      /\ in_order (comparator localeCompare sortOrder) deprecated.
Proof.
  intros models fetchedModels sortOrder localFavorites controlled
         showDeprecated now C.
  unfold allModels_memo. rewrite partition_stage_filters.
  fold (merged_entries models fetchedModels localFavorites controlled).
  rewrite sort_stage_comparator.
  apply Array_sort_in_order in C.
  eexists _, _. split; [reflexivity|].
  split; [|split; [|split]].
  - apply Forall_forall. intros m I. apply filter_In in I.
    now apply negb_true_iff.
  - apply Forall_forall. intros m I. now apply filter_In in I.
  - now apply in_order_filter.
  - now apply in_order_filter.
Qed.

End SortFurther.

Lemma both_groups_are_in_sort_order_witness :
  exists nonDeprecated deprecated,
    allModels_memo iso_Date_parse ordinal_compare [model_C; model_B; model_A] []
      sort_name [] false true sample_now
    = (nonDeprecated ++ deprecated)%list
    /\ Forall (fun m => past_deprecated iso_Date_parse sample_now m = false)
         nonDeprecated
    /\ Forall (fun m => past_deprecated iso_Date_parse sample_now m = true)
         deprecated
    /\ in_order (comparator ordinal_compare sort_name) nonDeprecated
    /\ in_order (comparator ordinal_compare sort_name) deprecated.
Proof.
  apply (@both_groups_are_in_sort_order iso_Date_parse ordinal_compare
           [model_C; model_B; model_A] [] sort_name [] false true sample_now).
  vm_compute. reflexivity.
Defined.

Ltac next_date_char :=
  match goal with
  | |- context [is_digit ?c] =>
      destruct (is_digit c); cbn -[is_digit Ascii.eqb]; try reflexivity
  | |- context [Ascii.eqb "-" ?c] =>
      destruct (Ascii.eqb "-" c); cbn -[is_digit Ascii.eqb]; try reflexivity
  | |- context [match ?s with [] => _ | _ :: _ => _ end] =>
      destruct s; cbn -[is_digit Ascii.eqb]; try reflexivity
  end.

Lemma date_only_spec s : regex_test false date_only s = date_only_shape s.
Proof.
  unfold date_only. rewrite regex_test_anchored.
  unfold date_only_shape.
  destruct (list_ascii_of_string s) as [|y1 l]; [reflexivity|].
  cbn -[is_digit Ascii.eqb]. unfold chr_matches.
  repeat next_date_char.
Qed.

Lemma date_only_shape_inv s :
  date_only_shape s = true ->
  exists y1 y2 y3 y4 m1 m2 d1 d2,
    list_ascii_of_string s
    = [y1; y2; y3; y4; "-"%char; m1; m2; "-"%char; d1; d2]
    /\ is_digit y1 = true /\ is_digit y2 = true /\ is_digit y3 = true
    /\ is_digit y4 = true /\ is_digit m1 = true /\ is_digit m2 = true
    /\ is_digit d1 = true /\ is_digit d2 = true.
Proof.
  unfold date_only_shape.
  destruct (list_ascii_of_string s)
    as [|y1 [|y2 [|y3 [|y4 [|h1 [|m1 [|m2 [|h2 [|d1 [|d2 [|x l]]]]]]]]]]];
    try discriminate.
  intros H. repeat (apply andb_true_iff in H; destruct H as [H ?]).
  repeat match goal with
         | E : Ascii.eqb _ _ = true |- _ => apply Ascii.eqb_eq in E; subst
         end.
  exists y1, y2, y3, y4, m1, m2, d1, d2.
  repeat split; try assumption.
  unfold is_digit. apply andb_true_iff. split; assumption.
Qed.

Lemma date_only_shape_longer s tail :
  date_only_shape s = true -> tail <> EmptyString ->
  date_only_shape (s ++ tail) = false.
Proof.
  intros H N. apply date_only_shape_inv in H.
  destruct H as (y1 & y2 & y3 & y4 & m1 & m2 & d1 & d2 & E & _).
  unfold date_only_shape.
  assert (L : list_ascii_of_string (s ++ tail)
              = ([y1; y2; y3; y4; "-"%char; m1; m2; "-"%char; d1; d2]
                 ++ list_ascii_of_string tail)%list).
  { rewrite <- E. clear. induction s as [|c s IH]; simpl; [reflexivity|].
    now rewrite IH. }
  rewrite L. destruct tail as [|c tail]; [congruence|]. reflexivity.
Qed.

Lemma iso_Date_parse_date_only s :
  date_only_shape s = true ->
  iso_Date_parse (s ++ "T00:00:00Z") = iso_Date_parse s.
Proof.
  intros H. apply date_only_shape_inv in H.
  destruct H as (y1 & y2 & y3 & y4 & m1 & m2 & d1 & d2 & E
                 & Y1 & Y2 & Y3 & Y4 & M1 & M2 & D1 & D2).
  unfold iso_Date_parse.
  assert (L : list_ascii_of_string (s ++ "T00:00:00Z")
              = ([y1; y2; y3; y4; "-"%char; m1; m2; "-"%char; d1; d2]
                 ++ list_ascii_of_string "T00:00:00Z")%list).
  { rewrite <- E. clear. induction s as [|c s IH]; simpl; [reflexivity|].
    now rewrite IH. }
  rewrite L, E.
  cbn [take_digits opt_bind expect app list_ascii_of_string].
  rewrite Y1, Y2, Y3, Y4. cbn [opt_bind expect]. rewrite Ascii.eqb_refl.
  cbn [take_digits opt_bind expect]. rewrite M1, M2.
  cbn [opt_bind expect]. rewrite Ascii.eqb_refl.
  cbn [take_digits opt_bind expect]. rewrite D1, D2. cbn [opt_bind].
  match goal with |- (if ?c then _ else _) = _ => destruct c end;
    [|reflexivity].
  match goal with
  | |- option_map _ (iso_time ?t) = _ => change (iso_time t) with (Some 0)
  end.
  cbn [option_map]. now rewrite Z.add_0_r.
Qed.

Section DeprecationFurther.
Variable Date_parse : string -> option Z.

Lemma isDeprecated_utc_form now dateStr :
  isDeprecated Date_parse now dateStr
  = match Date_parse (utc_form dateStr) with
    | Some ts => ts <? now
    | None => false
    end.
Proof. unfold isDeprecated, utc_form. now rewrite date_only_spec. Qed.

(** X18.  [isDeprecated] is true exactly when the date parses -- a date
    without a time being read with [T00:00:00Z] appended -- to an instant
    before now; so a date that does not parse is never deprecated.  A date
    without a time and the same date with [T00:00:00Z] written out get the
    same answer, and a date that is deprecated stays deprecated at every
    later instant. *)
Theorem isDeprecated_reads_a_date_in_utc :
  forall now dateStr,
    (isDeprecated Date_parse now dateStr = true
     <-> exists ts, Date_parse (utc_form dateStr) = Some ts /\ ts < now)
    /\ (date_only_shape dateStr = true ->
        isDeprecated Date_parse now (dateStr ++ "T00:00:00Z")
        = isDeprecated Date_parse now dateStr)
    /\ (forall later, now <= later ->
          isDeprecated Date_parse now dateStr = true ->
          isDeprecated Date_parse later dateStr = true).
Proof.
  intros now dateStr. rewrite !isDeprecated_utc_form.
  split; [|split].
  - destruct (Date_parse (utc_form dateStr)) as [ts|].
    + split; [intros H; exists ts; split; [reflexivity | lia]|].
      intros (t & E & L). injection E as ->. lia.
    + split; [discriminate | intros (t & E & _); discriminate E].
  - intros S. unfold utc_form at 1.
    rewrite date_only_shape_longer by (assumption || discriminate).
    unfold utc_form. now rewrite S.
  - intros later L. rewrite isDeprecated_utc_form.
    destruct (Date_parse (utc_form dateStr)) as [ts|]; [lia | discriminate].
Qed.

End DeprecationFurther.

Lemma isDeprecated_date_before Date_parse now dateStr :
  date_only_is_utc Date_parse ->
  isDeprecated Date_parse now dateStr = date_before Date_parse now dateStr.
Proof.
  intros U. rewrite isDeprecated_utc_form. unfold date_before, utc_form.
  destruct (date_only_shape dateStr) eqn:S; [|reflexivity].
  now rewrite U.
Qed.

Lemma concat_empty sep l :
  Forall (fun s => s <> EmptyString) l ->
  String.concat sep l = EmptyString -> l = [].
Proof.
  destruct l as [|x l]; [reflexivity|]. intros F H. exfalso.
  inversion F as [|? ? N _]; subst. apply N.
  simpl in H. destruct l as [|y l]; [exact H|].
  destruct x; [reflexivity | discriminate H].
Qed.

Lemma truthy_classes_nonempty classes :
  Forall (fun s => s <> EmptyString) (truthy_classes classes).
Proof.
  unfold truthy_classes. induction classes as [|c l IH]; simpl; [constructor|].
  destruct c as [s|]; [|exact IH].
  destruct (String.eqb_spec s EmptyString); [exact IH|].
  simpl. now constructor.
Qed.

Lemma truthy_classes_app a b :
  truthy_classes (a ++ b) = (truthy_classes a ++ truthy_classes b)%list.
Proof. unfold truthy_classes. apply flat_map_app. Qed.

Lemma string_app_assoc (a b c : string) : (a ++ b) ++ c = a ++ (b ++ c).
Proof. induction a as [|x a IH]; simpl; [reflexivity | now rewrite IH]. Qed.

Lemma concat_app sep a b :
  a <> [] -> b <> [] ->
  String.concat sep (a ++ b)
  = String.concat sep a ++ sep ++ String.concat sep b.
Proof.
  intros Na Nb. induction a as [|x a IH]; [congruence|].
  destruct a as [|y a].
  - simpl. destruct b; [congruence | reflexivity].
  - change (String.concat sep ((x :: y :: a) ++ b))
      with (x ++ sep ++ String.concat sep ((y :: a) ++ b)).
    rewrite IH by discriminate.
    change (String.concat sep (x :: y :: a))
      with (x ++ sep ++ String.concat sep (y :: a)).
    now rewrite !string_app_assoc.
Qed.


Lemma cn_empty classes :
  cn classes = EmptyString
  <-> Forall (fun c => c = None \/ c = Some EmptyString) classes.
Proof.
  unfold cn, join. split.
  - intros H. apply concat_empty in H; [|apply truthy_classes_nonempty].
    unfold truthy_classes in H.
    induction classes as [|c l IH]; [constructor|].
    simpl in H. apply app_eq_nil in H. destruct H as [H1 H2].
    constructor; [|now apply IH].
    destruct c as [s|]; [|now left]. right.
    destruct (String.eqb_spec s EmptyString); [now subst | discriminate H1].
  - intros F. replace (truthy_classes classes) with (@nil string); [reflexivity|].
    unfold truthy_classes. induction F as [|c l [->| ->] _ IH]; simpl; auto.
Qed.

Lemma cn_pair x y :
  cn [Some x; Some y]
  = if String.eqb x EmptyString then y
    else if String.eqb y EmptyString then x
    else x ++ " " ++ y.
Proof.
  unfold cn, join, truthy_classes. simpl.
  destruct (String.eqb x EmptyString) eqn:X, (String.eqb y EmptyString) eqn:Y;
    simpl; try reflexivity.
  now apply String.eqb_eq in Y.
Qed.

Lemma cn_app a b : cn (a ++ b) = cn [Some (cn a); Some (cn b)].
Proof.
  rewrite cn_pair. unfold cn at 1. rewrite truthy_classes_app. unfold join.
  pose proof (truthy_classes_nonempty a) as Fa.
  pose proof (truthy_classes_nonempty b) as Fb.
  unfold cn, join.
  destruct (String.eqb_spec (String.concat " " (truthy_classes a)) EmptyString)
    as [Ea|Na].
  { apply concat_empty in Ea; [|exact Fa]. now rewrite Ea. }
  destruct (String.eqb_spec (String.concat " " (truthy_classes b)) EmptyString)
    as [Eb|Nb].
  { apply concat_empty in Eb; [|exact Fb]. now rewrite Eb, app_nil_r. }
  apply concat_app.
  - intros E. apply Na. now rewrite E.
  - intros E. apply Nb. now rewrite E.
Qed.

(** X19.  [cn] joins the truthy class names with single spaces: the result
    is empty exactly when every argument is falsy ([undefined], [null],
    [false] or the empty string); a falsy argument changes nothing; and
    the classes of two argument lists joined at once are the join of their
    two joins, so no space is doubled and none leads or trails. *)
Theorem cn_joins_the_truthy_classes :
  forall a b,
    (cn a = EmptyString
     <-> Forall (fun c => c = None \/ c = Some EmptyString) a)
    /\ cn (a ++ b) = cn [Some (cn a); Some (cn b)]
    /\ cn (None :: a) = cn a
    /\ cn (Some EmptyString :: a) = cn a.
Proof.
  intros a b. split; [apply cn_empty|]. split; [apply cn_app|].
  split; reflexivity.
Qed.

Section ModelItemFurther.
Variable Date_parse : string -> option Z.

Lemma ModelItem_className_cases now model :
  ModelItem_className Date_parse now model
  = match Types.deprecation model with
    | None => None
    | Some d =>
        Some (if isDeprecated Date_parse now (Types.date d)
              then "oms-deprecated" else "oms-deprecating")
    end.
Proof.
  unfold ModelItem_className, itemClass, deprecatingFuture, deprecatedPast.
  destruct (Types.deprecation model) as [d|]; [|reflexivity].
  now destruct (isDeprecated Date_parse now (Types.date d)).
Qed.

End ModelItemFurther.

(** X20.  With a date parser that reads a date without a time as midnight
    UTC, the style of a row agrees with the place of the model in the list
    at the same instant: the row has the class [oms-deprecated] exactly
    when the list moves the model to the end as past-deprecated, the class
    [oms-deprecating] exactly when the model has a deprecation that is not
    past (an unparseable date included), and no class exactly when it has
    no deprecation. *)
Theorem deprecated_style_agrees_with_the_order :
  forall Date_parse now model,
    date_only_is_utc Date_parse ->
    (ModelItem_className Date_parse now model = Some "oms-deprecated"
     <-> past_deprecated Date_parse now model = true)
    /\ (ModelItem_className Date_parse now model = Some "oms-deprecating"
        <-> Types.deprecation model <> None
            /\ past_deprecated Date_parse now model = false)
    /\ (ModelItem_className Date_parse now model = None
        <-> Types.deprecation model = None).
Proof.
  intros Date_parse now model U.
  rewrite ModelItem_className_cases. unfold past_deprecated.
  destruct (Types.deprecation model) as [d|].
  - rewrite <- (isDeprecated_date_before now (Types.date d) U).
    destruct (isDeprecated Date_parse now (Types.date d)).
    + split; [split; reflexivity|]. split.
      * split; [discriminate | intros [_ H]; discriminate H].
      * split; discriminate.
    + split; [split; discriminate|]. split.
      * split; [intros _; split; [discriminate | reflexivity] | reflexivity].
      * split; discriminate.
  - split; [split; discriminate|]. split.
    + split; [discriminate | intros [H _]; now elim H].
    + split; reflexivity.
Qed.

Lemma deprecated_style_agrees_with_the_order_witness :
  date_only_is_utc iso_Date_parse
  /\ ModelItem_className iso_Date_parse sample_now model_B = Some "oms-deprecated"
  /\ past_deprecated iso_Date_parse sample_now model_B = true.
Proof.
  assert (U : date_only_is_utc iso_Date_parse)
    by exact iso_Date_parse_date_only.
  split; [exact U|].
  destruct (@deprecated_style_agrees_with_the_order iso_Date_parse sample_now
              model_B U) as ((_ & G) & _).
  split; [apply G|]; reflexivity.
Defined.

(* ===================================================================== *)
(** * The tests of the repository, replayed on the definitions above *)
(* ===================================================================== *)

(** normalizers.test.ts, [toNum]. *)
Example test_toNum :
  toNum (VNum (num 42)) = Ok (Some (num 42))
  /\ toNum (VStr "42") = Ok (Some (num 42))
  /\ toNum VNull = Ok None
  /\ toNum VUndefined = Ok None
  /\ toNum (VStr EmptyString) = Ok None
  /\ toNum (VStr "abc") = Ok None
  /\ toNum (VNum NaN) = Ok None
  /\ toNum (VNum (num 0)) = Ok (Some (num 0))
  /\ toNum (VNum (num (-5))) = Ok (Some (num (-5)))
  /\ toNum (VStr "3.14") = toNum (js_literal "3.14")
  /\ (do n <- toNum (VStr "3.14"); Ok (option_map Number_toString n))
     = Ok (Some "3.14").
Proof. repeat split; vm_compute; reflexivity. Qed.

(** normalizers.test.ts, [defaultResponseExtractor]. *)
Example test_defaultResponseExtractor :
  let a := [record_with_id "a"; record_with_id "b"] in
  defaultResponseExtractor (VArr a) = a
  /\ defaultResponseExtractor (VObj [("data", VArr a)]) = a
  /\ defaultResponseExtractor (VObj [("models", VArr a)]) = a
  /\ defaultResponseExtractor
       (VObj [("results", VArr [VNum (num 1); VNum (num 2); VNum (num 3)])])
     = [].
Proof. repeat split. Qed.

(** normalizers.test.ts, [extractBaseFields]. *)
Example test_extractBaseFields :
  let base := extractBaseFields (num 0) in
  field "id" (base (record_with_id "gpt-4o")) = Ok (VStr "gpt-4o")
  /\ field "id" (base (VObj [("model_id", VStr "claude-3")]))
     = Ok (VStr "claude-3")
  /\ base (VObj []) = Throw "Model missing required id field"
  /\ field "name"
       (base (VObj [ ("id", VStr "x");
                     ("model_spec", VObj [("name", VStr "Venice Name")]) ]))
     = Ok (VStr "Venice Name")
  /\ field "name" (base (VObj [("id", VStr "x"); ("name", VStr "Raw Name")]))
     = Ok (VStr "Raw Name")
  /\ field "name" (base (record_with_id "fallback-id"))
     = Ok (VStr "fallback-id")
  /\ field "provider" (base (record_with_id "anthropic/claude-3"))
     = Ok (VStr "anthropic")
  /\ field "provider"
       (base (VObj [("id", VStr "gpt-4o"); ("owned_by", VStr "openai")]))
     = Ok (VStr "openai")
  /\ field "provider" (base (record_with_id "gpt-4o")) = Ok (VStr "Unknown")
  /\ field "is_favorite" (base (record_with_id "x")) = Ok (VBool false).
Proof. repeat split; vm_compute; reflexivity. Qed.

Example test_extractBaseFields_venice :
  let r := extractBaseFields (num 0)
    (VObj [ ("id", VStr "venice-model");
            ("model_spec", VObj
              [ ("betaModel", VBool true); ("privacy", VStr "private");
                ("offline", VBool false); ("modelSource", VStr "huggingface");
                ("traits", VArr [VStr "fast"; VStr "cheap"]);
                ("deprecation", VObj [("date", VStr "2025-12-31")]) ]) ]) in
  field "betaModel" r = Ok (VBool true)
  /\ field "privacy" r = Ok (VStr "private")
  /\ field "offline" r = Ok (VBool false)
  /\ field "modelSource" r = Ok (VStr "huggingface")
  /\ field "traits" r = Ok (VArr [VStr "fast"; VStr "cheap"])
  /\ field "deprecation" r = Ok (VObj [("date", VStr "2025-12-31")]).
Proof. repeat split; vm_compute; reflexivity. Qed.

(** normalizers.test.ts, [inferTypeFromId]. *)
Example test_inferTypeFromId :
  inferTypeFromId "text-embedding-ada-002" = Some embedding
  /\ inferTypeFromId "text-embedding-3-small" = Some embedding
  /\ inferTypeFromId "dall-e-3" = Some image
  /\ inferTypeFromId "stable-diffusion-xl" = Some image
  /\ inferTypeFromId "flux-dev" = Some image
  /\ inferTypeFromId "tts-1" = Some tts
  /\ inferTypeFromId "tts-1-hd" = Some tts
  /\ inferTypeFromId "whisper-1" = Some asr
  /\ inferTypeFromId "sora-v1" = Some video
  /\ inferTypeFromId "wan-2.1-14b" = Some video
  /\ inferTypeFromId "inpaint-model" = Some inpaint
  /\ inferTypeFromId "esrgan-4x" = Some upscale
  /\ inferTypeFromId "gpt-4-vision-preview" = None
  /\ inferTypeFromId "gpt-4o" = None
  /\ inferTypeFromId "my-custom-model" = None
  /\ inferTypeFromId "claude-3.5-sonnet" = None.
Proof. repeat split; vm_compute; reflexivity. Qed.

(** normalizers.test.ts, the dispatch of [defaultModelNormalizer]. *)
Example test_defaultModelNormalizer :
  let type_of raw := field "type" (defaultModelNormalizer (num 0) raw) in
  map type_of mock_api_data = [Ok (VStr "text"); Ok (VStr "image"); Ok (VStr "video")]
  /\ type_of (record_with_id "text-embedding-ada-002") = Ok (VStr "embedding")
  /\ type_of (record_with_id "dall-e-3") = Ok (VStr "image")
  /\ type_of (record_with_id "tts-1") = Ok (VStr "tts")
  /\ type_of (record_with_id "whisper-1") = Ok (VStr "asr")
  /\ type_of (record_with_id "gpt-4o") = Ok (VStr "text")
  /\ type_of banana_raw = Ok (VStr "text")
  /\ type_of (VObj [("id", VStr "custom-embed"); ("type", VStr "embedding")])
     = Ok (VStr "embedding")
  /\ type_of (VObj [("id", VStr "custom-tts"); ("type", VStr "tts")])
     = Ok (VStr "tts")
  /\ type_of (VObj [("id", VStr "custom-asr"); ("type", VStr "asr")])
     = Ok (VStr "asr").
Proof. repeat split; vm_compute; reflexivity. Qed.

(** helpers.test.ts, [isDeprecated] under the ISO 8601 date parser. *)
Example test_isDeprecated :
  isDeprecated iso_Date_parse test_clock "2025-01-15" = true
  /\ isDeprecated iso_Date_parse test_clock "2025-12-01" = false
  /\ isDeprecated iso_Date_parse test_clock "2025-01-15T00:00:00Z" = true
  /\ isDeprecated iso_Date_parse test_clock "2025-12-01T00:00:00Z" = false
  /\ isDeprecated iso_Date_parse (sample_now + 1000) "2025-01-15" = true
  /\ isDeprecated iso_Date_parse sample_now "2025-01-15" = false
  /\ isDeprecated iso_Date_parse test_clock "not-a-date" = false
  /\ isDeprecated iso_Date_parse test_clock EmptyString = false.
Proof. repeat split; vm_compute; reflexivity. Qed.

(** use-models.test.tsx: no endpoint; the request that is built; the type
    filter. *)
Example test_useModels_request :
  default_hook (default_props None None None None (ok_response mock_api_data))
  = ({| models := []; result_loading := false; result_error := None |}, [])
  /\ snd (default_hook (default_props (Some sample_endpoint) None None None
                          (ok_response mock_api_data)))
     = [Fetched "https://api.example.com/v1/models" []]
  /\ snd (default_hook (default_props (Some sample_endpoint) None None
                          (Some [("foo", "bar")]) (ok_response mock_api_data)))
     = [Fetched "https://api.example.com/v1/models?foo=bar" []]
  /\ snd (default_hook (default_props (Some sample_endpoint) None None
                          (Some []) (ok_response mock_api_data)))
     = [Fetched "https://api.example.com/v1/models" []]
  /\ snd (default_hook (default_props (Some sample_endpoint)
                          (Some "sk-test-123") None None
                          (ok_response mock_api_data)))
     = [Fetched "https://api.example.com/v1/models"
          [("Authorization", "Bearer sk-test-123")]]
  /\ snd (default_hook (default_props (Some "https://api.example.com/v1///")
                          None None (Some []) (ok_response [])))
     = [Fetched "https://api.example.com/v1/models" []].
Proof. repeat split; vm_compute; reflexivity. Qed.

Example test_useModels_type_filter :
  let ids t :=
    map (get "id")
      (models (fst (default_hook
         (default_props (Some sample_endpoint) None t None
            (ok_response mock_api_data))))) in
  ids None = [VStr "gpt-4"; VStr "dall-e-3"; VStr "wan-video"]
  /\ ids (Some text) = [VStr "gpt-4"]
  /\ ids (Some image) = [VStr "dall-e-3"]
  /\ ids (Some video) = [VStr "wan-video"].
Proof. repeat split; vm_compute; reflexivity. Qed.

(** use-models.test.tsx: the ways a request fails, and the schemes. *)
Example test_useModels_errors :
  let settled base answer :=
    fst (default_hook (default_props (Some base) None None None answer)) in
  let failed message :=
    {| models := []; result_loading := false; result_error := Some message |} in
  settled sample_endpoint (Response false 500 (Ok VNull))
  = failed "Failed to load models (HTTP 500)"
  /\ settled sample_endpoint (Response true 200 (Ok (VStr "hello")))
     = failed "Invalid response: expected JSON object or array"
  /\ settled sample_endpoint (Rejected "Failed to fetch")
     = failed "Failed to fetch"
  /\ settled "javascript:alert(1)" (ok_response mock_api_data)
     = failed invalid_scheme_message
  /\ settled ("data:application/json,{" ++ double_quote ++ "data"
               ++ double_quote ++ ":[]}") (ok_response mock_api_data)
     = failed invalid_scheme_message
  /\ settled "file:///etc/passwd" (ok_response mock_api_data)
     = failed invalid_scheme_message
  /\ result_error (settled "http://localhost:3000/v1" (ok_response mock_api_data))
     = None
  /\ result_error (settled "HTTPS://api.example.com/v1" (ok_response mock_api_data))
     = None.
Proof. repeat split; vm_compute; reflexivity. Qed.

(** use-models.test.tsx: a record whose normalization throws is skipped
    and warned about. *)
Example test_useModels_skips_failing_record :
  let '(r, events) :=
    useModels has_id has_type false
      (sample_props (Some sample_endpoint) mock_api_data) in
  map Types.id (models r) = ["gpt-4"; "wan-video"]
  /\ filter is_warning events
     = [Warned ("[open-model-selector] Failed to normalize model "
                  ++ double_quote ++ "dall-e-3" ++ double_quote ++ ":")
               "Cannot normalize this model"].
Proof. vm_compute. split; reflexivity. Qed.
